(** * kleinanzeigen-watcher: a shallow embedding of the scraping pipeline

    The repository holds three Python scripts: [kleinanzeigen_watcher.py]
    (the current watcher), [kleinanzeigen-watcher.py] (its older variant) and
    [debug_kleinanzeigen.py] (a diagnostic run).  This development embeds the
    functions of those scripts and proves properties of them.

    Conventions of the embedding.
    - A Python [str] is a Rocq [string] holding the UTF-8 bytes of the text.
      [split], [replace], [in] and [startswith] on code points coincide with
      the same operations on the UTF-8 bytes.  [strip] and the regex class
      [\s] recognise the encodings of every Unicode white-space code point;
      [lower], the regex classes [\d] and [\D] and the digits of [int] act
      on the ASCII range: letters of other scripts pass through [lower]
      unchanged, and decimal digits of other scripts are no digits.  On
      ASCII text they are Python's.
    - [None] is [None] of an [option]; a Python exception is the [Raise]
      outcome of [outcome].
    - The spreadsheet, the network, the clock, the console and [time.sleep] are
      the fields of [world]; the scripts' [main] functions run in the
      state-and-exception monad [M] over it. *)

From Stdlib Require Import ZArith Ascii String List Bool Lia DecimalString DecimalPos.
From stdpp Require Import gmap strings list.

#[local] Set Warnings "-clear-no-such-hyp".

Open Scope string_scope.
Open Scope Z_scope.

(** ** Exceptions *)

(** The exceptions the scripts can meet.  Each is an instance of Python's
    [Exception], so [except Exception] catches every one of them. *)
Inductive exn : Type :=
| ValueError (msg : string)
| RuntimeError (msg : string)
| KeyError (key : string)
| IndexError (msg : string)
| RequestException (msg : string)
| HTTPError (status : Z).

Inductive outcome (A : Type) : Type :=
| Ok (a : A)
| Raise (e : exn).

Arguments Ok {A} a.
Arguments Raise {A} e.

(** [str(e)] as the scripts print it, in short: the text of a [ValueError] of
    [int] shows the literal as it is, where Python shows its [repr], and an
    [HTTPError] shows its status, where requests adds the reason and the
    address of the response. *)
Definition exn_text (e : exn) : string :=
  match e with
  | ValueError msg => msg
  | RuntimeError msg => msg
  | KeyError key => "'" +:+ key +:+ "'"
  | IndexError msg => msg
  | RequestException msg => msg
  | HTTPError status => NilZero.string_of_int (Z.to_int status) +:+ " Error"
  end.

(** ** Python's string methods *)

Module Py.

Definition code (c : ascii) : N := N_of_ascii c.

Definition between (lo hi : N) (c : ascii) : bool :=
  ((lo <=? code c) && (code c <=? hi))%N.

Definition is_digit (c : ascii) : bool := between 48 57 c.
Definition is_upper (c : ascii) : bool := between 65 90 c.
Definition is_lower (c : ascii) : bool := between 97 122 c.
Definition is_alnum (c : ascii) : bool := is_digit c || is_upper c || is_lower c.

Definition digit_value (c : ascii) : Z := Z.of_N (code c) - 48.

Definition byte_is (n : N) (c : ascii) : bool := (code c =? n)%N.

(** [str.lower()] *)
Definition lower_char (c : ascii) : ascii :=
  if is_upper c then ascii_of_N (code c + 32) else c.

Fixpoint lower (s : string) : string :=
  match s with
  | EmptyString => EmptyString
  | String c s' => String (lower_char c) (lower s')
  end.

(** White space as [str.isspace] has it, by encoded length: U+0009..U+000D,
    U+001C..U+0020; U+0085, U+00A0; U+1680, U+2000..U+200A, U+2028, U+2029,
    U+202F, U+205F, U+3000. *)
Definition ws1 (a : ascii) : bool := between 9 13 a || between 28 32 a.

Definition ws2 (a b : ascii) : bool := byte_is 194 a && (byte_is 133 b || byte_is 160 b).

Definition ws3 (a b c : ascii) : bool :=
  (byte_is 225 a && byte_is 154 b && byte_is 128 c)
  || (byte_is 226 a && byte_is 128 b && (between 128 138 c || byte_is 168 c || byte_is 169 c || byte_is 175 c))
  || (byte_is 226 a && byte_is 129 b && byte_is 159 c)
  || (byte_is 227 a && byte_is 128 b && byte_is 128 c).

(** The text after one leading white-space character, if there is one. *)
Definition ws_prefix (s : string) : option string :=
  match s with
  | String a s1 =>
      if ws1 a then Some s1 else
      match s1 with
      | String b s2 =>
          if ws2 a b then Some s2 else
          match s2 with
          | String c s3 => if ws3 a b c then Some s3 else None
          | EmptyString => None
          end
      | EmptyString => None
      end
  | EmptyString => None
  end.

Section Strip.
  Variable w1 : ascii -> bool.
  Variable w2 : ascii -> ascii -> bool.
  Variable w3 : ascii -> ascii -> ascii -> bool.

Fixpoint drop_ws (s : string) : string :=
  match s with
  | String a s1 =>
      if w1 a then drop_ws s1 else
      match s1 with
      | String b s2 =>
          if w2 a b then drop_ws s2 else
          match s2 with
          | String c s3 => if w3 a b c then drop_ws s3 else s
          | EmptyString => s
          end
      | EmptyString => s
      end
  | EmptyString => EmptyString
  end.
End Strip.

Fixpoint rev_onto (s acc : string) : string :=
  match s with
  | EmptyString => acc
  | String c s' => rev_onto s' (String c acc)
  end.

Definition rev (s : string) : string := rev_onto s EmptyString.

Definition lstrip (s : string) : string := drop_ws ws1 ws2 ws3 s.

Definition rstrip (s : string) : string :=
  rev (drop_ws ws1 (fun a b => ws2 b a) (fun a b c => ws3 c b a) (rev s)).

(** [str.strip()] *)
Definition strip (s : string) : string := rstrip (lstrip s).

(** [s.startswith(p)] *)
Fixpoint startswith (p s : string) : bool :=
  match p, s with
  | EmptyString, _ => true
  | String a p', String b s' => Ascii.eqb a b && startswith p' s'
  | String _ _, EmptyString => false
  end.

(** [sub in s] *)
Fixpoint contains (sub s : string) : bool :=
  startswith sub s ||
  match s with
  | EmptyString => false
  | String _ s' => contains sub s'
  end.

(** [s.replace(old, new)]: the occurrences of [old] found from the left,
    without overlap.  [skip] counts the characters of a found occurrence that
    are still to be passed over. *)
Fixpoint replace_from (old new : string) (skip : nat) (s : string) : string :=
  match s with
  | EmptyString => EmptyString
  | String c s' =>
      match skip with
      | S k => replace_from old new k s'
      | O =>
          if startswith old s
          then new +:+ replace_from old new (String.length old - 1) s'
          else String c (replace_from old new O s')
      end
  end.

Fixpoint intersperse (new s : string) : string :=
  match s with
  | EmptyString => EmptyString
  | String c s' => String c (new +:+ intersperse new s')
  end.

Definition replace (old new s : string) : string :=
  match old with
  | EmptyString => new +:+ intersperse new s
  | _ => replace_from old new O s
  end.

(** [s.split(sep)] for a separator that is not empty: [cur] is the part read
    so far. *)
Fixpoint split_from (sep : string) (skip : nat) (cur s : string) : list string :=
  match s with
  | EmptyString => [cur]
  | String c s' =>
      match skip with
      | S k => split_from sep k cur s'
      | O =>
          if startswith sep s
          then cur :: split_from sep (String.length sep - 1) EmptyString s'
          else split_from sep O (cur +:+ String c EmptyString) s'
      end
  end.

Definition split (sep s : string) : list string := split_from sep O EmptyString s.

(** [str(n)] for an [int] *)
Definition str (n : Z) : string := NilZero.string_of_int (Z.to_int n).

(** [sep.join(parts)] *)
Fixpoint join (sep : string) (parts : list string) : string :=
  match parts with
  | [] => EmptyString
  | [p] => p
  | p :: rest => p +:+ sep +:+ join sep rest
  end.

(** Truthiness of a string, and [s or d]. *)
Definition nonempty (s : string) : bool :=
  match s with EmptyString => false | _ => true end.

Definition or_else (s d : string) : string := if nonempty s then s else d.

(** [int(s)]: white space around the literal is dropped, a sign may lead, and
    single underscores may stand between digits; anything else is a
    [ValueError].  The white space of [int] is not that of [strip]: of the
    ASCII characters it takes those of C, tab to carriage return and the
    space, and not the separators U+001C to U+001F; beyond ASCII the two
    agree.  A literal of more than 4300 digits is refused, the limit Python
    sets on the conversion unless told otherwise. *)
Definition int_ws1 (a : ascii) : bool := between 9 13 a || byte_is 32 a.

Definition int_lstrip (s : string) : string := drop_ws int_ws1 ws2 ws3 s.

Definition int_rstrip (s : string) : string :=
  rev (drop_ws int_ws1 (fun a b => ws2 b a) (fun a b c => ws3 c b a) (rev s)).

Definition int_strip (s : string) : string := int_rstrip (int_lstrip s).

Fixpoint count_digits (s : string) : N :=
  match s with
  | EmptyString => 0%N
  | String c s' => ((if is_digit c then 1 else 0) + count_digits s')%N
  end.

Definition MAX_STR_DIGITS : N := 4300%N.

Fixpoint int_digits (acc : Z) (after_digit : bool) (s : string) : option Z :=
  match s with
  | EmptyString => if after_digit then Some acc else None
  | String c s' =>
      if is_digit c then int_digits (10 * acc + digit_value c) true s'
      else if byte_is 95 c && after_digit then int_digits acc false s'
      else None
  end.

Definition int_literal (s : string) : option Z :=
  match s with
  | String c s' =>
      if byte_is 45 c then option_map Z.opp (int_digits 0 false s')
      else if byte_is 43 c then int_digits 0 false s'
      else int_digits 0 false s
  | EmptyString => None
  end.

Definition int (s : string) : outcome Z :=
  match int_literal (int_strip s) with
  | Some n =>
      if (MAX_STR_DIGITS <? count_digits s)%N
      then Raise (ValueError ("Exceeds the limit (4300 digits) for integer string conversion: "
                              +:+ "value has " +:+ str (Z.of_N (count_digits s))
                              +:+ " digits; use sys.set_int_max_str_digits() to increase the limit"))
      else Ok n
  | None => Raise (ValueError ("invalid literal for int() with base 10: " +:+ s))
  end.

(** [urllib.parse.quote_plus]: letters, digits and [_.-~] stay, a space
    becomes [+], every other byte becomes [%XX]. *)
Definition hex_digit (n : N) : ascii :=
  if (n <? 10)%N then ascii_of_N (48 + n) else ascii_of_N (55 + n).

Definition unreserved (c : ascii) : bool :=
  is_alnum c || byte_is 95 c || byte_is 46 c || byte_is 45 c || byte_is 126 c.

Fixpoint quote_plus (s : string) : string :=
  match s with
  | EmptyString => EmptyString
  | String c s' =>
      if unreserved c then String c (quote_plus s')
      else if byte_is 32 c then String "+" (quote_plus s')
      else String "%" (String (hex_digit (code c / 16)) (String (hex_digit (code c mod 16)) (quote_plus s')))
  end.

(** [re.sub(r"\D", "", s)]: the decimal digits of [s]. *)
Fixpoint digits_only (s : string) : string :=
  match s with
  | EmptyString => EmptyString
  | String c s' => if is_digit c then String c (digits_only s') else digits_only s'
  end.

End Py.


(** ** Regular expressions

    The patterns of the scripts, matched the way Python's [re] matches them:
    by backtracking, the alternatives of [|] tried from the left, the
    repetitions greedy, and [search] taking the leftmost start.  [Grp] is the
    pattern's capturing group 1. *)

Module Re.

Inductive regex : Type :=
| Chr (f : string -> option string)
| Cat (a b : regex)
| Alt (a b : regex)
| Rep (a : regex) (lo : nat) (hi : option nat)
| Grp (a : regex).

(** One character of a class: the text after it. *)
Definition one (p : ascii -> bool) : string -> option string :=
  fun s => match s with
           | String c s' => if p c then Some s' else None
           | EmptyString => None
           end.

Definition digit : regex := Chr (one Py.is_digit).
Definition space : regex := Chr Py.ws_prefix.
Definition lit (c : ascii) : regex := Chr (one (Ascii.eqb c)).
(** The text after a prefix. *)
Fixpoint after_prefix (p s : string) : option string :=
  match p, s with
  | EmptyString, _ => Some s
  | String a p', String b s' => if Ascii.eqb a b then after_prefix p' s' else None
  | String _ _, EmptyString => None
  end.

(** The Kelvin sign U+212A, which [re.IGNORECASE] takes for a [k]. *)
Definition KELVIN : string :=
  String (ascii_of_N 226) (String (ascii_of_N 132) (String (ascii_of_N 170) EmptyString)).

(** A letter under [re.IGNORECASE]: the letter in either case, and for [k]
    the Kelvin sign as well. *)
Definition lit_nocase (c : ascii) : regex :=
  Chr (fun s =>
         match one (fun x => Ascii.eqb (Py.lower_char x) c) s with
         | Some s' => Some s'
         | None => if Ascii.eqb c "k" then after_prefix KELVIN s else None
         end).
Definition star (a : regex) : regex := Rep a 0 None.
Definition plus (a : regex) : regex := Rep a 1 None.
Definition opt (a : regex) : regex := Rep a 0 (Some 1%nat).
Definition times (a : regex) (n : nat) : regex := Rep a n (Some n).

(** The first [length s - length rest] characters of [s]. *)
Fixpoint consumed (s rest : string) : string :=
  if (String.length s <=? String.length rest)%nat then EmptyString
  else match s with
       | String c s' => String c (consumed s' rest)
       | EmptyString => EmptyString
       end.

Definition may_repeat (hi : option nat) (cnt : nat) : bool :=
  match hi with
  | Some h => (cnt <? h)%nat
  | None => true
  end.

Section Match.
Variable R : Type.

(** [run a s cap k]: match [a] at the start of [s], then go on with [k] on the
    group captured so far and the text left; [None] makes the matcher
    backtrack. *)
Fixpoint run (a : regex) (s : string) (cap : option string)
    (k : option string -> string -> option R) {struct a} : option R :=
  match a with
  | Chr f => match f s with Some s' => k cap s' | None => None end
  | Cat a1 a2 => run a1 s cap (fun cap' s' => run a2 s' cap' k)
  | Alt a1 a2 =>
      match run a1 s cap k with
      | Some r => Some r
      | None => run a2 s cap k
      end
  | Grp a1 => run a1 s cap (fun _ s' => k (Some (consumed s s')) s')
  | Rep a1 lo hi =>
      (fix loop (fuel cnt : nat) (s : string) (cap : option string) {struct fuel} : option R :=
         let stop := if (lo <=? cnt)%nat then k cap s else None in
         match fuel with
         | O => stop
         | S fuel' =>
             if may_repeat hi cnt then
               match run a1 s cap (fun cap' s' =>
                       if (String.length s' <? String.length s)%nat
                       then loop fuel' (S cnt) s' cap' else None) with
               | Some r => Some r
               | None => stop
               end
             else stop
         end) (String.length s) O s cap
  end.
End Match.

(** [re.search(a, s)] then [m.group(1)]: [None] when there is no match. *)
Fixpoint search (a : regex) (s : string) : option (option string) :=
  match run (option string) a s None (fun cap _ => Some cap) with
  | Some cap => Some cap
  | None =>
      match s with
      | String _ s' => search a s'
      | EmptyString => None
      end
  end.

Definition search_group1 (a : regex) (s : string) : option string :=
  match search a s with
  | Some (Some g) => Some g
  | _ => None
  end.

End Re.

(** ** Parsing ([kleinanzeigen_watcher.py]) *)

Definition NBSP : string := String (ascii_of_N 194) (String (ascii_of_N 160) EmptyString).

(** ["(\d{1,3}(?:[.\s]\d{3})+|\d{1,6})\s*km"], [re.IGNORECASE] *)
Definition KM_REGEX : Re.regex :=
  Re.Cat
    (Re.Grp (Re.Alt
       (Re.Cat (Re.Rep Re.digit 1 (Some 3%nat))
               (Re.plus (Re.Cat (Re.Alt (Re.lit ".") Re.space) (Re.times Re.digit 3))))
       (Re.Rep Re.digit 1 (Some 6%nat))))
    (Re.Cat (Re.star Re.space) (Re.Cat (Re.lit_nocase "k") (Re.lit_nocase "m"))).

(** ["(\d{1,3}(?:[.\s]\d{3})*|\d+)(?:[,\.]\d{1,2})?"] *)
Definition PRICE_REGEX : Re.regex :=
  Re.Cat
    (Re.Grp (Re.Alt
       (Re.Cat (Re.Rep Re.digit 1 (Some 3%nat))
               (Re.star (Re.Cat (Re.Alt (Re.lit ".") Re.space) (Re.times Re.digit 3))))
       (Re.plus Re.digit)))
    (Re.opt (Re.Cat (Re.Alt (Re.lit ",") (Re.lit ".")) (Re.Rep Re.digit 1 (Some 2%nat)))).

(** ["/(\d{6,})-"] *)
Definition AD_ID_REGEX : Re.regex :=
  Re.Cat (Re.lit "/") (Re.Cat (Re.Grp (Re.Rep Re.digit 6 None)) (Re.lit "-")).

(** [try: return int(num) / except ValueError: return None] *)
Definition int_or_none (num : string) : outcome (option Z) :=
  match Py.int num with
  | Ok n => Ok (Some n)
  | Raise (ValueError _) => Ok None
  | Raise e => Raise e
  end.

Definition parse_price_eur (text : option string) : outcome (option Z) :=
  match text with
  | None => Ok None
  | Some text =>
      if negb (Py.nonempty text) then Ok None else
      let t := Py.lower text in
      if Py.contains "verschenken" t then Ok (Some 0) else
      let raw := Py.strip (Py.replace NBSP " " text) in
      match Re.search_group1 PRICE_REGEX raw with
      | None => Ok None
      | Some g =>
          let num := Py.replace " " "" (Py.replace "." "" g) in
          int_or_none num
      end
  end.

Definition extract_km (text_blob : string) : outcome (option Z) :=
  if negb (Py.nonempty text_blob) then Ok None else
  match Re.search_group1 KM_REGEX (Py.replace NBSP " " text_blob) with
  | Some g =>
      match Py.int (Py.replace " " "" (Py.replace "." "" g)) with
      | Ok n => Ok (Some n)
      | Raise e => Raise e
      end
  | None => Ok None
  end.

Definition ad_id_from_url (url : string) : string :=
  match Re.search_group1 AD_ID_REGEX url with
  | Some g => g
  | None => url
  end.

(** ** Documents

    A fetched page is taken in parsed form: the tree [BeautifulSoup(html,
    "html.parser")] builds, with [render] giving back the text of the page.
    [select], [select_one], [get_text] and [get] are BeautifulSoup's.  A
    [Special] node is markup that is neither an element nor text: a comment,
    a doctype, a declaration or a processing instruction, kept as written. *)

Module Soup.

#[local] Set Warnings "-register-all".

Inductive node : Type :=
| Text (s : string)
| Special (s : string)
| Tag (name : string) (attrs : list (string * string)) (children : list node).

(** A tag's name and attributes. *)
Definition info : Type := string * list (string * string).

(** An element together with its ancestors, the nearest first. *)
Record element : Type := Element {
  ancestors : list info;
  name : string;
  attrs : list (string * string);
  children : list node
}.

Definition info_of (e : element) : info := (name e, attrs e).

Fixpoint get (k : string) (l : list (string * string)) : option string :=
  match l with
  | [] => None
  | (k', v) :: l' => if String.eqb k k' then Some v else get k l'
  end.

(** The tokens of a [class] attribute: the runs of characters that are not
    white space. *)
Fixpoint words_from (skip : nat) (cur s : string) : list string :=
  let flush := if Py.nonempty cur then [cur] else [] in
  match s with
  | EmptyString => flush
  | String c s' =>
      match skip with
      | S k => words_from k cur s'
      | O =>
          match Py.ws_prefix s with
          | Some rest =>
              (flush ++ words_from (String.length s' - String.length rest) EmptyString s')%list
          | None => words_from O (cur +:+ String c EmptyString) s'
          end
      end
  end.

Definition classes (i : info) : list string :=
  match get "class" (snd i) with
  | Some v => words_from O EmptyString v
  | None => []
  end.

Definition mem (x : string) (l : list string) : bool := existsb (String.eqb x) l.

(** A compound selector [tag.class1.class2]; no tag means any tag. *)
Record compound : Type := Compound {
  sel_tag : option string;
  sel_classes : list string
}.

Definition matches (c : compound) (i : info) : bool :=
  match sel_tag c with
  | Some t => String.eqb t (fst i)
  | None => true
  end && forallb (fun k => mem k (classes i)) (sel_classes c).

(** The ancestors of a subject against the rest of a descendant chain, read
    from the subject outwards. *)
Fixpoint matches_up (chain : list compound) (ancs : list info) : bool :=
  match chain with
  | [] => true
  | c :: chain' =>
      match ancs with
      | [] => false
      | i :: ancs' =>
          if matches c i then matches_up chain' ancs' else matches_up chain ancs'
      end
  end.

(** A complex selector [c1 c2 ... cn] is kept with its subject [cn] first. *)
Definition complex : Type := list compound.

Definition matches_complex (x : complex) (e : element) : bool :=
  match x with
  | [] => false
  | subject :: outer => matches subject (info_of e) && matches_up outer (ancestors e)
  end.

(** A selector list [x1, x2, ...]. *)
Definition selector : Type := list complex.

Definition matches_selector (sel : selector) (e : element) : bool :=
  existsb (fun x => matches_complex x e) sel.

(** The elements below a node, the node itself first, in document order. *)
Fixpoint elements (ancs : list info) (n : node) : list element :=
  match n with
  | Text _ | Special _ => []
  | Tag nm ats ch =>
      Element ancs nm ats ch ::
      (fix below (l : list node) : list element :=
         match l with
         | [] => []
         | x :: l' => (elements ((nm, ats) :: ancs) x ++ below l')%list
         end) ch
  end.

Definition elements_of (ancs : list info) (l : list node) : list element :=
  flat_map (elements ancs) l.

Definition descendants (e : element) : list element :=
  elements_of (info_of e :: ancestors e) (children e).

(** [soup.select(sel)] *)
Definition select (sel : selector) (doc : list node) : list element :=
  List.filter (matches_selector sel) (elements_of [] doc).

(** [e.select_one(sel)] *)
Definition select_one (sel : selector) (e : element) : option element :=
  head (List.filter (matches_selector sel) (descendants e)).

(** The elements whose strings BeautifulSoup keeps apart from ordinary
    text: a string is of the kind of the nearest of them around it. *)
Definition CONTAINERS : list string := ["rt"; "rp"; "style"; "script"; "template"].

Definition kind_below (nm : string) (outer : option string) : option string :=
  if mem nm CONTAINERS then Some nm else outer.

Fixpoint kind_within (ancs : list info) : option string :=
  match ancs with
  | [] => None
  | i :: ancs' => if mem (fst i) CONTAINERS then Some (fst i) else kind_within ancs'
  end.

Definition same_kind (a b : option string) : bool :=
  match a, b with
  | None, None => true
  | Some x, Some y => String.eqb x y
  | _, _ => false
  end.

(** The strings below a node, each with its kind, in document order. *)
Fixpoint strings (kind : option string) (n : node) : list (option string * string) :=
  match n with
  | Text s => [(kind, s)]
  | Special _ => []
  | Tag nm _ ch =>
      (fix below (l : list node) : list (option string * string) :=
         match l with
         | [] => []
         | x :: l' => (strings (kind_below nm kind) x ++ below l')%list
         end) ch
  end.

(** [e.get_text(sep, strip=True)]: the strings below [e] of the kind [e]
    asks for, ordinary text unless [e] is itself one of [CONTAINERS]; the
    text of a script, a style sheet, a template or a ruby annotation below an
    ordinary element is left out, and so is every [Special] node. *)
Definition get_text (sep : string) (e : element) : string :=
  let wanted := if mem (name e) CONTAINERS then Some (name e) else None in
  let found :=
    flat_map (strings (kind_below (name e) (kind_within (ancestors e)))) (children e) in
  Py.join sep
    (List.filter Py.nonempty
       (map (fun ks => Py.strip (snd ks))
          (List.filter (fun ks => same_kind (fst ks) wanted) found))).

Definition DQUOTE : string := String (ascii_of_N 34) EmptyString.

Fixpoint render_attrs (l : list (string * string)) : string :=
  match l with
  | [] => EmptyString
  | (k, v) :: l' => " " +:+ k +:+ "=" +:+ DQUOTE +:+ v +:+ DQUOTE +:+ render_attrs l'
  end.

Fixpoint render (n : node) : string :=
  match n with
  | Text s | Special s => s
  | Tag nm ats ch =>
      "<" +:+ nm +:+ render_attrs ats +:+ ">" +:+
      (fix below (l : list node) : string :=
         match l with
         | [] => EmptyString
         | x :: l' => render x +:+ below l'
         end) ch +:+ "</" +:+ nm +:+ ">"
  end.

(** [r.text] of a page *)
Definition text (doc : list node) : string :=
  fold_right (fun n acc => render n +:+ acc) EmptyString doc.

End Soup.

(** ** The world

    What a run reads and changes outside the process: the spreadsheet, the
    web site, the clock and the console.  A tab of the spreadsheet is its grid
    of values in the columns A to Z, a list of rows that may be ragged.  [net]
    answers the n-th request of a run, [clock] the n-th reading of the time;
    [trace] records what the run did, the latest event first. *)

Inductive cell : Type :=
| CStr (s : string)
| CInt (n : Z).

Definition cell_text (c : cell) : string :=
  match c with
  | CStr s => s
  | CInt n => Py.str n
  end.

Inductive reply : Type :=
| Page (status : Z) (doc : list Soup.node)
| Failed (e : exn).

Inductive event : Type :=
| SheetGet (tab rng : string)
| SheetClear (tab rng : string)
| SheetUpdate (tab rng : string) (rows : list (list cell))
| SheetAppend (tab rng : string) (rows : list (list cell))
| HttpGet (url : string)
| Now
| Sleep (ms : Z)
| Print (line : string).

Record world : Type := World {
  sheets : gmap string (list (list cell));
  net : nat -> string -> reply;
  requests : nat;
  clock : nat -> string;
  ticks : nat;
  trace : list event
}.

Definition with_sheets (f : gmap string (list (list cell)) -> gmap string (list (list cell)))
    (w : world) : world :=
  World (f (sheets w)) (net w) (requests w) (clock w) (ticks w) (trace w).

Definition with_event (e : event) (w : world) : world :=
  World (sheets w) (net w) (requests w) (clock w) (ticks w) (e :: trace w).

Definition with_request (w : world) : world :=
  World (sheets w) (net w) (S (requests w)) (clock w) (ticks w) (trace w).

Definition with_tick (w : world) : world :=
  World (sheets w) (net w) (requests w) (clock w) (S (ticks w)) (trace w).

(** ** The monad of the scripts *)

Definition M (A : Type) : Type := world -> outcome A * world.

Definition ret {A : Type} (a : A) : M A := fun w => (Ok a, w).

Definition bind {A B : Type} (m : M A) (f : A -> M B) : M B :=
  fun w => match m w with
           | (Ok a, w') => f a w'
           | (Raise e, w') => (Raise e, w')
           end.

Definition lift {A : Type} (o : outcome A) : M A := fun w => (o, w).

Definition raise {A : Type} (e : exn) : M A := lift (Raise e).

(** [try: m / except Exception as e: ...]: the outcome of [m] as a value. *)
Definition try {A : Type} (m : M A) : M (outcome A) :=
  fun w => let (r, w') := m w in (Ok r, w').

Notation "x <- m ;; k" := (bind m (fun x => k))
  (at level 100, m at next level, right associativity).
Notation "m ;; k" := (bind m (fun _ => k))
  (at level 100, right associativity).

Definition emit (e : event) : M unit := fun w => (Ok tt, with_event e w).

Definition print (line : string) : M unit := emit (Print line).

Definition sleep (ms : Z) : M unit := emit (Sleep ms).

(** [for x in l: st = body(st, x)] *)
Fixpoint for_each {A S : Type} (body : S -> A -> M S) (st : S) (l : list A) : M S :=
  match l with
  | [] => ret st
  | x :: l' => st' <- body st x ;; for_each body st' l'
  end.

(** The same loop over outcomes alone. *)
Fixpoint for_each_pure {A S : Type} (body : S -> A -> outcome S) (st : S) (l : list A)
    : outcome S :=
  match l with
  | [] => Ok st
  | x :: l' =>
      match body st x with
      | Ok st' => for_each_pure body st' l'
      | Raise e => Raise e
      end
  end.

(** ** Google Sheets *)

Definition CONFIG_TAB : string := "Config".
Definition SEARCHES_TAB : string := "Searches".
Definition RESULTS_TAB : string := "Results".
Definition LOCATIONS_TAB : string := "LocationIDs".

Definition tab_rows (tab : string) (w : world) : list (list cell) :=
  default [] (sheets w !! tab).

(** The service leaves out the empty cells at the end of a row and the empty
    rows at the end of a range. *)
Definition drop_end {A : Type} (blank : A -> bool) (l : list A) : list A :=
  fold_right (fun x acc => match acc with
                           | [] => if blank x then [] else [x]
                           | _ => x :: acc
                           end) [] l.

Definition is_nil {A : Type} (l : list A) : bool :=
  match l with [] => true | _ => false end.

Definition reported (rows : list (list string)) : list (list string) :=
  drop_end is_nil (map (drop_end (fun s => negb (Py.nonempty s))) rows).

(** The ranges the scripts ask for. *)
Definition window (rng : string) (rows : list (list string)) : list (list string) :=
  if String.eqb rng "A1:Z1" then take 1 rows
  else if String.eqb rng "A:B" then map (take 2) rows
  else if String.eqb rng "A2:A" then map (take 1) (drop 1 rows)
  else rows.

(** What [values().get(range=tab!rng)] answers. *)
Definition values (tab rng : string) (w : world) : list (list string) :=
  reported (window rng (map (map cell_text) (tab_rows tab w))).

Definition read_sheet_range (tab rng : string) : M (list (list string)) :=
  fun w => (Ok (values tab rng w), with_event (SheetGet tab rng) w).

(** [values().append(range=tab!A1, insertDataOption=INSERT_ROWS)] *)
Definition sheets_append (tab : string) (rows : list (list cell)) : M unit :=
  fun w => (Ok tt,
            with_event (SheetAppend tab "A1" rows)
              (with_sheets (fun m => <[tab := (tab_rows tab w ++ rows)%list]> m) w)).

(** [values().clear(range=tab!A:Z)] *)
Definition sheets_clear (tab : string) : M unit :=
  fun w => (Ok tt, with_event (SheetClear tab "A:Z") (with_sheets (fun m => <[tab := []]> m) w)).

(** Writing a block of rows from the cell A1 on. *)
Fixpoint over_row (new old : list cell) : list cell :=
  match new, old with
  | [], _ => old
  | c :: new', [] => c :: new'
  | c :: new', _ :: old' => c :: over_row new' old'
  end.

Fixpoint over_rows (new old : list (list cell)) : list (list cell) :=
  match new, old with
  | [], _ => old
  | r :: new', [] => r :: new'
  | r :: new', o :: old' => over_row r o :: over_rows new' old'
  end.

(** [values().update(range=tab!A1)] *)
Definition sheets_update (tab : string) (rows : list (list cell)) : M unit :=
  fun w => (Ok tt,
            with_event (SheetUpdate tab "A1" rows)
              (with_sheets (fun m => <[tab := over_rows rows (tab_rows tab w)]> m) w)).

Definition write_rows_append (tab : string) (rows : list (list cell)) : M unit :=
  if is_nil rows then ret tt else sheets_append tab rows.

Definition list_eqb (a b : list string) : bool := bool_decide (a = b).

Definition ensure_headers (tab : string) (headers : list string) : M unit :=
  existing <- read_sheet_range tab "A1:Z1" ;;
  match existing with
  | first :: _ => if list_eqb first headers then ret tt
                  else sheets_clear tab ;; sheets_update tab [map CStr headers]
  | [] => sheets_clear tab ;; sheets_update tab [map CStr headers]
  end.

Definition item (i : nat) (r : list string) : string := nth i r EmptyString.

Definition get_config : M (Z * string) :=
  cfg_rows <- read_sheet_range CONFIG_TAB "A:B" ;;
  let cfg : gmap string string :=
    fold_left (fun cfg r =>
                 if is_nil r || negb (Py.nonempty (Py.strip (item 0 r))) then cfg
                 else <[Py.strip (item 0 r) :=
                          if (1 <? length r)%nat then Py.strip (item 1 r) else EmptyString]> cfg)
              cfg_rows ∅ in
  max_radius <- lift (Py.int (default "25" (cfg !! "max_radius_km"))) ;;
  ret (max_radius, default "daily" (cfg !! "fetch_frequency")).

(** ** Location IDs *)

Definition normalize_city (s : string) : string := Py.lower (Py.strip s).

Definition load_location_ids : M (gmap string string) :=
  rows <- read_sheet_range LOCATIONS_TAB "A:B" ;;
  match rows with
  | [] => ret ∅
  | first :: _ =>
      let start_idx :=
        if negb (is_nil first)
           && (String.eqb (normalize_city (item 0 first)) "city"
               || String.eqb (normalize_city (item 0 first)) "stadt")
        then 1%nat else 0%nat in
      ret (fold_left (fun loc_map r =>
                        if (length r <? 2)%nat then loc_map else
                        let city := normalize_city (item 0 r) in
                        let loc_id := Py.digits_only (item 1 r) in
                        if Py.nonempty city && Py.nonempty loc_id
                        then <[city := loc_id]> loc_map else loc_map)
                     (drop start_idx rows) ∅)
  end.

(** ** URL builder *)

Definition BASE_HOST : string := "https://www.kleinanzeigen.de".

(** Truthiness of an optional string: [None] and the empty string are false. *)
Definition truthy (o : option string) : bool :=
  match o with
  | Some s => Py.nonempty s
  | None => false
  end.

Definition is_some {A : Type} (o : option A) : bool :=
  match o with Some _ => true | None => false end.

Definition str_or_empty (o : option Z) : string :=
  match o with
  | Some n => Py.str n
  | None => EmptyString
  end.

(** [query] and [location_str] are strings here: [query or ""] and
    [location_str or ""] only turn [None] into the empty string. *)
Definition build_search_url (query location_str : string) (radius_km : Z)
    (price_min price_max : option Z) (loc_id : option string) : string :=
  let q := Py.quote_plus query in
  let slug := Py.or_else (Py.replace " " "-" (Py.lower (Py.strip location_str))) "deutschland" in
  let base := BASE_HOST +:+ "/s-" +:+ slug +:+ "/" +:+ q +:+ "/k0" in
  let base := if truthy loc_id then base +:+ "l" +:+ default EmptyString loc_id else base in
  let base := if negb (Z.eqb radius_km 0) then base +:+ "r" +:+ Py.str radius_km else base in
  if is_some price_min || is_some price_max then
    let lo := str_or_empty price_min in
    let hi := str_or_empty price_max in
    base +:+ "p" +:+ lo +:+ "p" +:+ hi
  else base.

(** ** Fetching and extracting *)

Record Listing : Type := MkListing {
  ad_id : string;
  title : string;
  price_eur : option Z;
  km : option Z;
  meta : string;
  url : string
}.

Definition by_class (k : string) : Soup.compound := Soup.Compound None [k].
Definition by_tag (t : string) (ks : list string) : Soup.compound := Soup.Compound (Some t) ks.

(** ["article.aditem, li.ad-listitem, div.aditem"] *)
Definition CARDS : Soup.selector :=
  [ [by_tag "article" ["aditem"]]; [by_tag "li" ["ad-listitem"]]; [by_tag "div" ["aditem"]] ].

(** [".aditem-main--middle--title a, a.ellipsis, a.ellipsis-text"] *)
Definition TITLE_LINK : Soup.selector :=
  [ [by_tag "a" []; by_class "aditem-main--middle--title"];
    [by_tag "a" ["ellipsis"]];
    [by_tag "a" ["ellipsis-text"]] ].

(** [".aditem-main--middle--price-shipping .aditem-main--middle--price,
     .aditem-main--middle--price, .aditem-price"] *)
Definition PRICE : Soup.selector :=
  [ [by_class "aditem-main--middle--price"; by_class "aditem-main--middle--price-shipping"];
    [by_class "aditem-main--middle--price"];
    [by_class "aditem-price"] ].

(** [".aditem-main--top .aditem-main--top--left, .aditem-main--top"] *)
Definition META : Soup.selector :=
  [ [by_class "aditem-main--top--left"; by_class "aditem-main--top"];
    [by_class "aditem-main--top"] ].

(** The title link of a card: [None] when the card has none or its [href]
    is missing or empty. *)
Definition title_link (sel : Soup.selector) (c : Soup.element) : option (Soup.element * string) :=
  match Soup.select_one sel c with
  | Some a =>
      match Soup.get "href" (Soup.attrs a) with
      | Some href => if Py.nonempty href then Some (a, href) else None
      | None => None
      end
  | None => None
  end.

Definition absolute (href : string) : string :=
  if Py.startswith "/" href then BASE_HOST +:+ href else href.

(** The body of the loop over the cards: the item of one card, [None] for a
    card that is skipped. *)
Definition card_item (c : Soup.element) : outcome (option Listing) :=
  match title_link TITLE_LINK c with
  | None => Ok None
  | Some (a, href) =>
      let url := absolute href in
      let title := Soup.get_text EmptyString a in
      let price_text :=
        match Soup.select_one PRICE c with
        | Some price_el => Soup.get_text EmptyString price_el
        | None => EmptyString
        end in
      match parse_price_eur (Some price_text) with
      | Raise e => Raise e
      | Ok price_eur =>
          let meta_text :=
            match Soup.select_one META c with
            | Some meta_el => Soup.get_text " " meta_el
            | None => EmptyString
            end in
          match extract_km (Soup.get_text " " c) with
          | Raise e => Raise e
          | Ok km =>
              Ok (Some (MkListing (ad_id_from_url url) title price_eur km meta_text url))
          end
      end
  end.

Definition items_of (doc : list Soup.node) : outcome (list Listing) :=
  for_each_pure (fun items c =>
                   match card_item c with
                   | Ok (Some it) => Ok (items ++ [it])%list
                   | Ok None => Ok items
                   | Raise e => Raise e
                   end) [] (Soup.select CARDS doc).

(** [requests.get(url, headers=HEADERS, timeout=25)] *)
Definition requests_get (url : string) : M (Z * list Soup.node) :=
  fun w =>
    let w' := with_event (HttpGet url) (with_request w) in
    match net w (requests w) url with
    | Page status doc => (Ok (status, doc), w')
    | Failed e => (Raise e, w')
    end.

(** [r.raise_for_status()] *)
Definition raise_for_status (status : Z) : outcome unit :=
  if (400 <=? status) && (status <? 600) then Raise (HTTPError status) else Ok tt.

Definition fetch_listings (search_url : string) : M (list Listing) :=
  r <- requests_get search_url ;;
  lift (raise_for_status (fst r)) ;;
  lift (items_of (snd r)).

Definition load_existing_ad_ids : M (gset string) :=
  rows <- read_sheet_range RESULTS_TAB "A2:A" ;;
  ret (list_to_set (map (item 0) (List.filter (fun r => negb (is_nil r)) rows))).

(** ** The watcher's main loop ([kleinanzeigen_watcher.py]) *)

Definition RESULT_HEADERS : list string :=
  ["ad_id"; "query"; "title"; "price_eur"; "km"; "location"; "url"; "posted_at"; "fetched_at"].

Definition REQUIRED : list string :=
  ["active"; "query"; "location"; "price_min"; "price_max"; "type"; "km_min"; "km_max"].

(** The literal bullet [kleinanzeigen_watcher.py] splits on, and the three
    characters [kleinanzeigen-watcher.py] has in its place. *)
Definition BULLET : string := "•".
Definition BULLET_MISREAD : string := "â€¢".

(** The values [main] reads off one row of the Searches tab. *)
Record search : Type := MkSearch {
  query : string;
  location : string;
  price_min : option Z;
  price_max : option Z;
  kind : string;
  km_min : option Z;
  km_max : option Z;
  loc_id : option string
}.

(** [existing_ids] and [to_append] *)
Definition state : Type := gset string * list (list cell).

(** [km_min is not None and (it["km"] is None or it["km"] < km_min)] *)
Definition under_min (km_min km : option Z) : bool :=
  match km_min with
  | Some lo => match km with
               | Some k => k <? lo
               | None => true
               end
  | None => false
  end.

(** [km_max is not None and (it["km"] is None or it["km"] > km_max)] *)
Definition over_max (km_max km : option Z) : bool :=
  match km_max with
  | Some hi => match km with
               | Some k => hi <? k
               | None => true
               end
  | None => false
  end.

(** [posted_at] and [loc_in_meta] *)
Definition split_meta (bullet meta : string) : string * string :=
  if Py.nonempty meta then
    match map Py.strip (Py.split bullet meta) with
    | [a; b] => (a, b)
    | [a] => (EmptyString, a)
    | _ => (EmptyString, EmptyString)
    end
  else (EmptyString, EmptyString).

Definition int_or_blank (o : option Z) : cell :=
  match o with
  | Some n => CInt n
  | None => CStr EmptyString
  end.

Definition result_row (bullet now_iso qry : string) (it : Listing) : list cell :=
  let (posted_at, loc_in_meta) := split_meta bullet (meta it) in
  [CStr (ad_id it); CStr qry; CStr (title it); int_or_blank (price_eur it);
   int_or_blank (km it); CStr loc_in_meta; CStr (url it); CStr posted_at; CStr now_iso].

(** The body of [for it in items]. *)
Definition consider (bullet now_iso : string) (sd : search) (st : state) (it : Listing) : state :=
  if String.eqb (kind sd) "vehicle" && under_min (km_min sd) (km it) then st
  else if String.eqb (kind sd) "vehicle" && over_max (km_max sd) (km it) then st
  else if bool_decide (ad_id it ∈ st.1) then st
  else (st.1 ∪ {[ad_id it]}, (st.2 ++ [result_row bullet now_iso (query sd) it])%list).

Definition consider_all (bullet now_iso : string) (sd : search) (st : state)
    (items : list Listing) : state :=
  fold_left (consider bullet now_iso sd) items st.

Definition and_then {A B : Type} (o : outcome A) (f : A -> outcome B) : outcome B :=
  match o with
  | Ok a => f a
  | Raise e => Raise e
  end.

Notation "x <~ o ;; k" := (and_then o (fun x => k))
  (at level 100, o at next level, right associativity).

(** [row[idx[name]]] *)
Definition field (idx : gmap string nat) (row : list string) (name : string) : outcome string :=
  match idx !! name with
  | Some i =>
      match row !! i with
      | Some v => Ok v
      | None => Raise (IndexError "list index out of range")
      end
  | None => Raise (KeyError name)
  end.

(** [int(str(v).replace("_", "")) if str(v).strip() else None] *)
Definition int_or_absent (v : string) : outcome (option Z) :=
  if Py.nonempty (Py.strip v) then n <~ Py.int (Py.replace "_" EmptyString v) ;; Ok (Some n)
  else Ok None.

Definition ACTIVE_WORDS : list string := ["true"; "1"; "yes"; "y"; "ja"].

(** The values of one row; [None] for a row that is not active. *)
Definition read_row (idx : gmap string nat) (has_loc_id_col : bool)
    (city_to_id : gmap string string) (row : list string) : outcome (option search) :=
  active_val <~ field idx row "active" ;;
  if negb (Soup.mem (Py.lower (Py.strip active_val)) ACTIVE_WORDS) then Ok None else
  qry <~ field idx row "query" ;;
  loc <~ field idx row "location" ;;
  pmin_text <~ field idx row "price_min" ;;
  pmin <~ int_or_absent pmin_text ;;
  pmax_text <~ field idx row "price_max" ;;
  pmax <~ int_or_absent pmax_text ;;
  kind_text <~ field idx row "type" ;;
  let knd := Py.or_else (Py.lower (Py.strip kind_text)) "generic" in
  kms <~ (if String.eqb knd "vehicle" then
            lo_text <~ field idx row "km_min" ;;
            lo <~ int_or_absent lo_text ;;
            hi_text <~ field idx row "km_max" ;;
            hi <~ int_or_absent hi_text ;;
            Ok (lo, hi)
          else Ok (None, None)) ;;
  given <~ (if has_loc_id_col then
              raw <~ field idx row "location_id" ;;
              Ok (if Py.nonempty (Py.strip raw) then Some (Py.digits_only (Py.strip raw)) else None)
            else Ok None) ;;
  let lid := if truthy given then given else city_to_id !! normalize_city (Py.strip loc) in
  Ok (Some (MkSearch (Py.strip qry) (Py.strip loc) pmin pmax knd kms.1 kms.2 lid)).

(** [row += [""] * (len(header) - len(row))] *)
Definition pad (width : nat) (row : list string) : list string :=
  (row ++ replicate (width - length row) EmptyString)%list.

Definition now_utc_iso : M string :=
  fun w => (Ok (clock w (ticks w)), with_event Now (with_tick w)).

(** The body of [for row in searches[1:]]. *)
Definition search_row (bullet now_iso : string) (max_radius : Z) (width : nat)
    (idx : gmap string nat) (has_loc_id_col : bool) (city_to_id : gmap string string)
    (st : state) (row : list string) : M state :=
  parsed <- lift (read_row idx has_loc_id_col city_to_id (pad width row)) ;;
  match parsed with
  | None => ret st
  | Some sd =>
      let url := build_search_url (query sd) (location sd) max_radius
                   (price_min sd) (price_max sd) (loc_id sd) in
      fetched <- try (fetch_listings url) ;;
      match fetched with
      | Raise e =>
          print ("Fetch failed for " +:+ query sd +:+ " @ " +:+ location sd +:+ ": " +:+ exn_text e) ;;
          sleep 2000 ;;
          ret st
      | Ok items =>
          let st' := consider_all bullet now_iso sd st items in
          sleep 1200 ;;
          ret st'
      end
  end.

(** [idx = {h: i for i, h in enumerate(header)}] *)
Definition index_of (header : list string) : gmap string nat :=
  fold_left (fun idx hi => <[hi.2 := hi.1]> idx) (imap (fun i h => (i, h)) header) ∅.

Definition first_missing (idx : gmap string nat) (names : list string) : option string :=
  List.find (fun r => negb (is_some (idx !! r))) names.

(** [if to_append: ... else: ...] at the end of [main]. *)
Definition flush (to_append : list (list cell)) : M unit :=
  if is_nil to_append then print "No new results."
  else write_rows_append RESULTS_TAB to_append ;;
       print ("Added " +:+ Py.str (Z.of_nat (length to_append)) +:+ " new rows.").

(** [main] up to its last [if]: the rows [to_append] holds when the loop has
    ended, [None] when [main] has returned before the loop. *)
Definition main_rows : M (option (list (list cell))) :=
  ensure_headers RESULTS_TAB RESULT_HEADERS ;;
  cfg <- get_config ;;
  city_to_id <- load_location_ids ;;
  searches <- read_sheet_range SEARCHES_TAB "A:Z" ;;
  match searches with
  | first :: ((_ :: _) as rows) =>
      let header := map Py.lower first in
      let idx := index_of header in
      match first_missing idx REQUIRED with
      | Some r => raise (RuntimeError ("Missing column in Searches: " +:+ r))
      | None =>
          let has_loc_id_col := is_some (idx !! "location_id") in
          existing_ids <- load_existing_ad_ids ;;
          now_iso <- now_utc_iso ;;
          st <- for_each (search_row BULLET now_iso cfg.1 (length header) idx has_loc_id_col city_to_id)
                  (existing_ids, []) rows ;;
          ret (Some st.2)
      end
  | _ => print "No searches found." ;; ret None
  end.

Definition main : M unit :=
  rows <- main_rows ;;
  match rows with
  | Some to_append => flush to_append
  | None => ret tt
  end.

(** ** The diagnostic run ([debug_kleinanzeigen.py]) *)

Module Debug.

Definition NL : string := String (ascii_of_N 10) EmptyString.

(** [print(a, b, ...)] *)
Definition print_args (args : list string) : M unit := print (Py.join " " args).

Definition load_config : M Z :=
  rows <- read_sheet_range CONFIG_TAB "A:B" ;;
  let cfg : gmap string string :=
    fold_left (fun cfg r =>
                 if negb (is_nil r) && Py.nonempty (Py.strip (item 0 r))
                 then <[Py.strip (item 0 r) :=
                          if (1 <? length r)%nat then Py.strip (item 1 r) else EmptyString]> cfg
                 else cfg)
              rows ∅ in
  lift (Py.int (Py.or_else (default "25" (cfg !! "max_radius_km")) "25")).

Definition build_url (query location_str : string) (radius_km : Z)
    (price_min price_max : option Z) (loc_id : option string) (alt_price : bool) : string :=
  let q := Py.quote_plus query in
  let slug := Py.or_else (Py.replace " " "-" (Py.lower (Py.strip location_str))) "deutschland" in
  let u := BASE_HOST +:+ "/s-" +:+ slug +:+ "/" +:+ q +:+ "/k0" in
  let u := if truthy loc_id then u +:+ "l" +:+ default EmptyString loc_id else u in
  let u := if negb (Z.eqb radius_km 0) then u +:+ "r" +:+ Py.str radius_km else u in
  if is_some price_min || is_some price_max then
    let lo := str_or_empty price_min in
    let hi := str_or_empty price_max in
    if negb alt_price then u +:+ "p" +:+ lo +:+ "p" +:+ hi
    else if Py.nonempty lo || Py.nonempty hi then u +:+ "/preis:" +:+ lo +:+ ":" +:+ hi
    else u
  else u.

Definition looks_like_consent (html : string) : bool :=
  let t := Py.lower html in
  (Py.contains "einwilligung" t && Py.contains "cookies" t)
  || (Py.contains "cloudflare" t && Py.contains "attention required" t).

(** [fetch] returns [r.text]; the page is kept in parsed form, its text is
    [Soup.text] of it. *)
Definition fetch (url : string) : M (list Soup.node) :=
  r <- requests_get url ;;
  lift (raise_for_status (fst r)) ;;
  ret (snd r).

Definition parse_cards (doc : list Soup.node) : list (string * string) :=
  fold_left (fun out c =>
               match title_link TITLE_LINK c with
               | Some (a, href) => (out ++ [(Soup.get_text EmptyString a, absolute href)])%list
               | None => out
               end) (Soup.select CARDS doc) [].

(** [t[:n]]: the first [n] characters, a character being a byte that starts
    one together with the continuation bytes after it. *)
Fixpoint first_chars (n : nat) (s : string) : string :=
  match s with
  | EmptyString => EmptyString
  | String c s' =>
      if Py.between 128 191 c then String c (first_chars n s')
      else match n with
           | O => EmptyString
           | S n' => String c (first_chars n' s')
           end
  end.

Definition print_cards (cards : list (string * string)) : M unit :=
  for_each (fun _ th => print_args [" -"; first_chars 100 th.1; "→"; th.2]) tt (take 5 cards).

Record search : Type := MkSearch {
  query : string;
  location : string;
  price_min : option Z;
  price_max : option Z
}.

Definition read_row (idx : gmap string nat) (row : list string) : outcome (option search) :=
  active_val <~ field idx row "active" ;;
  if negb (Soup.mem (Py.lower (Py.strip active_val)) ["true"; "1"; "yes"; "ja"; "y"]) then Ok None else
  qry <~ field idx row "query" ;;
  loc <~ field idx row "location" ;;
  pmin_text <~ field idx row "price_min" ;;
  pmin <~ int_or_absent pmin_text ;;
  pmax_text <~ field idx row "price_max" ;;
  pmax <~ int_or_absent pmax_text ;;
  Ok (Some (MkSearch (Py.strip qry) (Py.strip loc) pmin pmax)).

Definition CONSENT_WARNING : string :=
  "⚠️ Consent/anti-bot page detected. Try local run or self-hosted runner.".

(** The second attempt, made when the first page has no cards. *)
Definition try_alt (max_radius : Z) (sd : search) (loc_id : option string) : M unit :=
  let alt := build_url (query sd) (location sd) max_radius (price_min sd) (price_max sd)
               loc_id true in
  print_args ["Trying ALT URL:"; alt] ;;
  fetched <- try (fetch alt) ;;
  match fetched with
  | Raise e => print_args ["ALT fetch error:"; exn_text e]
  | Ok html2 =>
      if negb (looks_like_consent (Soup.text html2)) then
        let cards2 := parse_cards html2 in
        print_args ["Parsed cards (ALT):"; Py.str (Z.of_nat (length cards2))] ;;
        print_cards cards2
      else ret tt
  end.

(** The body of [for row in searches[1:]] from the parsed row on. *)
Definition search_step (max_radius : Z) (city_map : gmap string string) (sd : search) : M unit :=
  let loc_id := city_map !! normalize_city (location sd) in
  let url := build_url (query sd) (location sd) max_radius (price_min sd) (price_max sd)
               loc_id false in
  print_args [NL +:+ "City:"; location sd; "| ID:"; Py.or_else (default EmptyString loc_id) "-";
              NL +:+ "URL:"; url] ;;
  fetched <- try (fetch url) ;;
  match fetched with
  | Raise e => print_args ["Fetch error:"; exn_text e]
  | Ok html =>
      if looks_like_consent (Soup.text html) then print CONSENT_WARNING
      else
        let cards := parse_cards html in
        print_args ["Parsed cards:"; Py.str (Z.of_nat (length cards))] ;;
        print_cards cards ;;
        if is_nil cards then try_alt max_radius sd loc_id else ret tt
  end.

Definition search_row (max_radius : Z) (width : nat) (idx : gmap string nat)
    (city_map : gmap string string) (row : list string) : M unit :=
  parsed <- lift (read_row idx (pad width row)) ;;
  match parsed with
  | None => ret tt
  | Some sd => search_step max_radius city_map sd
  end.

Definition main : M unit :=
  max_radius <- load_config ;;
  city_map <- load_location_ids ;;
  searches <- read_sheet_range SEARCHES_TAB "A:Z" ;;
  match searches with
  | first :: ((_ :: _) as rows) =>
      let header := map Py.lower first in
      let idx := index_of header in
      match first_missing idx ["active"; "query"; "location"; "price_min"; "price_max"] with
      | Some col => print_args ["Missing column:"; col]
      | None =>
          print "=== DEBUG RUN ===" ;;
          for_each (fun _ row => search_row max_radius (length header) idx city_map row) tt rows
      end
  | _ => print "No searches in sheet."
  end.

End Debug.

(** ** Reading a run off the world

    Every step of a script changes the world by one event: [apply] is that
    change, [replay] the change of a list of events, the latest first.  The
    definitions below read off two worlds what a run between them did. *)

Definition apply (e : event) (w : world) : world :=
  match e with
  | SheetAppend tab _ rows =>
      with_event e (with_sheets (fun m => <[tab := (tab_rows tab w ++ rows)%list]> m) w)
  | SheetClear tab _ => with_event e (with_sheets (fun m => <[tab := []]> m) w)
  | SheetUpdate tab _ rows =>
      with_event e (with_sheets (fun m => <[tab := over_rows rows (tab_rows tab w)]> m) w)
  | HttpGet _ => with_event e (with_request w)
  | Now => with_event e (with_tick w)
  | SheetGet _ _ | Sleep _ | Print _ => with_event e w
  end.

Definition replay (evs : list event) (w : world) : world := fold_right apply w evs.

(** The events of a run from [w] to [w'], the latest first. *)
Definition added (w w' : world) : list event :=
  take (length (trace w') - length (trace w)) (trace w').

Definition rows_of (e : event) : list (list cell) :=
  match e with
  | SheetAppend _ _ rows => rows
  | _ => []
  end.

(** The rows a run has appended, in the order of their writing. *)
Definition appended_rows (w w' : world) : list (list cell) :=
  flat_map rows_of (rev (added w w')).

Definition is_append (e : event) : bool :=
  match e with SheetAppend _ _ _ => true | _ => false end.

Definition is_write (e : event) : bool :=
  match e with
  | SheetAppend _ _ _ | SheetClear _ _ | SheetUpdate _ _ _ => true
  | _ => false
  end.

Definition is_request (e : event) : bool :=
  match e with HttpGet _ => true | _ => false end.

Definition is_now (e : event) : bool :=
  match e with Now => true | _ => false end.

(** The columns of a result row. *)
Definition column (i : nat) (r : list cell) : string :=
  match r !! i with
  | Some c => cell_text c
  | None => EmptyString
  end.

Definition row_id (r : list cell) : string := column 0 r.
Definition row_location (r : list cell) : string := column 5 r.
Definition row_posted_at (r : list cell) : string := column 7 r.
Definition row_fetched_at (r : list cell) : string := column 8 r.

(** The ids the Results tab holds below its first row, as
    [load_existing_ad_ids] reads them. *)
Definition stored_ids (w : world) : gset string :=
  list_to_set (map (item 0) (List.filter (fun r => negb (is_nil r))
    (values RESULTS_TAB "A2:A" w))).

(** The world once [main] has ensured the header of the Results tab, and the
    ids [main] then knows. *)
Definition after_headers (w : world) : world :=
  (ensure_headers RESULTS_TAB RESULT_HEADERS w).2.

Definition known_ids (w : world) : gset string := stored_ids (after_headers w).

(** The first row of the Results tab is the header [main] writes. *)
Definition header_in_place (w : world) : Prop :=
  head (values RESULTS_TAB "A1:Z1" w) = Some RESULT_HEADERS.

(** The filter loop over the items of several searches. *)
Definition consider_batches (bullet now_iso : string) (st : state)
    (batches : list (search * list Listing)) : state :=
  fold_left (fun st b => consider_all bullet now_iso b.1 st b.2) batches st.

(** [search_row] without the filtering: the search of a row and the items
    fetched for it, [None] for a row that is skipped. *)
Definition fetch_row (max_radius : Z) (width : nat) (idx : gmap string nat)
    (has_loc_id_col : bool) (city_to_id : gmap string string) (row : list string)
    : M (option (search * list Listing)) :=
  parsed <- lift (read_row idx has_loc_id_col city_to_id (pad width row)) ;;
  match parsed with
  | None => ret None
  | Some sd =>
      let url := build_search_url (query sd) (location sd) max_radius
                   (price_min sd) (price_max sd) (loc_id sd) in
      fetched <- try (fetch_listings url) ;;
      match fetched with
      | Raise e =>
          print ("Fetch failed for " +:+ query sd +:+ " @ " +:+ location sd +:+ ": " +:+ exn_text e) ;;
          sleep 2000 ;;
          ret None
      | Ok items => sleep 1200 ;; ret (Some (sd, items))
      end
  end.

Fixpoint fetch_rows (max_radius : Z) (width : nat) (idx : gmap string nat)
    (has_loc_id_col : bool) (city_to_id : gmap string string) (rows : list (list string))
    : M (list (search * list Listing)) :=
  match rows with
  | [] => ret []
  | row :: rows' =>
      b <- fetch_row max_radius width idx has_loc_id_col city_to_id row ;;
      bs <- fetch_rows max_radius width idx has_loc_id_col city_to_id rows' ;;
      ret (match b with Some b => b :: bs | None => bs end)
  end.

(** A listing passes the distance filter of a search. *)
Definition passes (sd : search) (it : Listing) : bool :=
  negb (String.eqb (kind sd) "vehicle"
        && (under_min (km_min sd) (km it) || over_max (km_max sd) (km it))).

(** [consider] has accepted the listing: it has appended a row. *)
Definition accepted (st st' : state) : Prop := length st'.2 = S (length st.2).

Definition with_price (p : option Z) (it : Listing) : Listing :=
  MkListing (ad_id it) (title it) p (km it) (meta it) (url it).

Definition with_price_bounds (lo hi : option Z) (sd : search) : search :=
  MkSearch (query sd) (location sd) lo hi (kind sd) (km_min sd) (km_max sd) (loc_id sd).

(** The parts of a search URL. *)
Definition url_stem (qry location_str : string) (lid : option string) : string :=
  BASE_HOST +:+ "/s-"
  +:+ Py.or_else (Py.replace " " "-" (Py.lower (Py.strip location_str))) "deutschland"
  +:+ "/" +:+ Py.quote_plus qry +:+ "/k0"
  +:+ (if truthy lid then "l" +:+ default EmptyString lid else EmptyString).

Definition radius_token (radius_km : Z) : string :=
  if Z.eqb radius_km 0 then EmptyString else "r" +:+ Py.str radius_km.

Definition price_token (lo hi : option Z) : string :=
  match lo, hi with
  | None, None => EmptyString
  | _, _ => "p" +:+ str_or_empty lo +:+ "p" +:+ str_or_empty hi
  end.

(** A computation whose every step is an event of the class [P]. *)
Definition effects {A : Type} (P : event -> bool) (m : M A) : Prop :=
  forall w, exists evs, (m w).2 = replay evs w /\ forallb P evs = true.

(** The invariant of the filter loop, relative to the ids known at its start. *)
Record loop_inv (now : string) (known : gset string) (st : state) : Prop := {
  inv_ids : st.1 = known ∪ list_to_set (map row_id st.2);
  inv_nodup : NoDup (map row_id st.2);
  inv_fresh : forall r, r ∈ st.2 -> row_id r ∉ known;
  inv_stamp : forall r, r ∈ st.2 -> row_fetched_at r = now
}.


(** Every listing of the batches that passes its search's filter has its id
    in [ids]. *)
Definition covers (ids : gset string) (batches : list (search * list Listing)) : Prop :=
  forall b it, b ∈ batches -> it ∈ b.2 -> passes b.1 it = true -> ad_id it ∈ ids.

(** Classes of events: the steps of the header check, of the readings before
    the loop, and of the loop over the searches. *)
Definition offline (e : event) : bool :=
  match e with
  | HttpGet _ | Sleep _ | Print _ => true
  | _ => false
  end.

Definition header_event (e : event) : bool :=
  match e with
  | SheetGet _ _ | SheetClear _ _ | SheetUpdate _ _ _ => true
  | _ => false
  end.

Definition reading (e : event) : bool :=
  match e with
  | SheetGet _ _ | Print _ => true
  | _ => false
  end.

(** The events of [flush]. *)
Definition flush_events (rows : list (list cell)) : list event :=
  if is_nil rows then [Print "No new results."]
  else [Print ("Added " +:+ Py.str (Z.of_nat (length rows)) +:+ " new rows.");
        SheetAppend RESULTS_TAB "A1" rows].

(** ** Runs on the same inputs *)

(** Two worlds that differ at most in the Results tab, the clock and the
    trace: a run finds the same configuration and searches in both and gets
    the same answers from the site. *)
Definition same_inputs (w1 w2 : world) : Prop :=
  net w1 = net w2 /\ requests w1 = requests w2
  /\ forall tab, tab <> RESULTS_TAB -> sheets w1 !! tab = sheets w2 !! tab.

(** What a run finds: the searches of the Searches tab with the items fetched
    for each, [None] where [main] returns before its loop. *)
Definition survey : M (option (list (search * list Listing))) :=
  cfg <- get_config ;;
  city_to_id <- load_location_ids ;;
  searches <- read_sheet_range SEARCHES_TAB "A:Z" ;;
  match searches with
  | first :: ((_ :: _) as rows) =>
      let header := map Py.lower first in
      let idx := index_of header in
      match first_missing idx REQUIRED with
      | Some r => raise (RuntimeError ("Missing column in Searches: " +:+ r))
      | None =>
          bs <- fetch_rows cfg.1 (length header) idx (is_some (idx !! "location_id"))
                  city_to_id rows ;;
          ret (Some bs)
      end
  | _ => ret None
  end.

(** A computation that sees of the world only the answers of the site. *)
Definition online {A : Type} (m : M A) : Prop :=
  forall w1 w2, net w1 = net w2 -> requests w1 = requests w2 ->
    (m w1).1 = (m w2).1 /\ net (m w1).2 = net (m w2).2
    /\ requests (m w1).2 = requests (m w2).2.

(** A computation that does not see the Results tab. *)
Definition blind {A : Type} (m : M A) : Prop :=
  forall w1 w2, same_inputs w1 w2 ->
    (m w1).1 = (m w2).1 /\ same_inputs (m w1).2 (m w2).2.

(** ** Sample data *)

Definition sample_listing : Listing :=
  MkListing "2345678901" "Golf" (Some 1250) None "Heute, 12:00 • Berlin"
    "https://www.kleinanzeigen.de/s-anzeige/golf/2345678901-216-3331".

Definition sample_vehicle (lo hi : option Z) : search :=
  MkSearch "golf" "Berlin" None None "vehicle" lo hi None.

(** A result page that carries a cookie banner besides one ad card. *)
Definition sample_page : list Soup.node :=
  [Soup.Tag "html" []
     [Soup.Tag "body" []
        [Soup.Tag "div" [("id", "consent")]
           [Soup.Text "Wir verwenden Cookies. Ihre Einwilligung können Sie jederzeit widerrufen."];
         Soup.Tag "article" [("class", "aditem")]
           [Soup.Tag "div" [("class", "aditem-main--top")]
              [Soup.Tag "div" [("class", "aditem-main--top--left")] [Soup.Text " 10115 Berlin "]];
            Soup.Tag "h2" [("class", "text-module-begin")]
              [Soup.Tag "a" [("class", "ellipsis"); ("href", "/s-anzeige/sofa/2345678901-88-3331")]
                 [Soup.Text "Sofa"]];
            Soup.Tag "p" [("class", "aditem-main--middle--price-shipping--price")]
              [Soup.Text " 1.250 € VB "];
            Soup.Tag "p" [("class", "aditem-main--middle--price")] [Soup.Text " 1.250 € VB "]]]]].

Definition sample_item : Listing :=
  MkListing "2345678901" "Sofa" (Some 1250) None "10115 Berlin"
    "https://www.kleinanzeigen.de/s-anzeige/sofa/2345678901-88-3331".

Definition sample_searches : list (list cell) :=
  [map CStr REQUIRED; map CStr ["true"; "sofa"; "Berlin"; ""; ""; ""; ""; ""]].

Definition sample_time : string := "2024-05-01T06:00:00+00:00".

(** A spreadsheet with one active search and an empty Results tab, and a site
    that answers every request with [sample_page]. *)
Definition sample_world : world :=
  World (<[SEARCHES_TAB := sample_searches]> ∅)
    (fun _ _ => Page 200 sample_page) 0 (fun _ => sample_time) 0 [].

Definition sample_row : list cell :=
  [CStr "2345678901"; CStr "sofa"; CStr "Sofa"; CInt 1250; CStr ""; CStr "10115 Berlin";
   CStr "https://www.kleinanzeigen.de/s-anzeige/sofa/2345678901-88-3331"; CStr "";
   CStr sample_time].

(** The same spreadsheet once the row of [sample_item] is in the Results tab. *)
Definition sample_world_again : world :=
  World (<[RESULTS_TAB := [map CStr RESULT_HEADERS; sample_row]]> (sheets sample_world))
    (net sample_world) 0 (clock sample_world) 0 [].

(** ** Further definitions *)

(** The ways a fetch fails: the request itself, the status of the answer, or
    the extraction of its page. *)
Inductive fetch_fails (w : world) (url : string) : exn -> Prop :=
| fails_request e : net w (requests w) url = Failed e -> fetch_fails w url e
| fails_status status doc :
    net w (requests w) url = Page status doc -> 400 <= status < 600 ->
    fetch_fails w url (HTTPError status)
| fails_extract status doc e :
    net w (requests w) url = Page status doc -> ~ (400 <= status < 600) ->
    items_of doc = Raise e -> fetch_fails w url e.

(** The searches of [sample_world] followed by a row whose price_min is no
    number. *)
Definition sample_world_bad_row : world :=
  World (<[SEARCHES_TAB := (sample_searches
                            ++ [map CStr ["true"; "bett"; "Berlin"; "abc"; ""; ""; ""; ""]])%list]> ∅)
    (fun _ _ => Page 200 sample_page) 0 (fun _ => sample_time) 0 [].

Definition sample_search : search := MkSearch "sofa" "Berlin" None None "generic" None None None.

(** [sample_world] with a site that does not answer. *)
Definition sample_world_offline : world :=
  World (sheets sample_world) (fun _ _ => Failed (RequestException "timed out")) 0
    (clock sample_world) 0 [].

Definition harmless (e : event) : bool := negb (is_write e) && negb (is_now e).

(** ** Patterns and the texts they match *)

(** The texts a pattern matches.  A character class matches the characters
    its function passes over. *)
Fixpoint lang (a : Re.regex) (u : string) : Prop :=
  match a with
  | Re.Chr f => exists rest, f (u +:+ rest) = Some rest
  | Re.Cat a1 a2 => exists u1 u2, u = u1 +:+ u2 /\ lang a1 u1 /\ lang a2 u2
  | Re.Alt a1 a2 => lang a1 u \/ lang a2 u
  | Re.Rep a1 lo hi =>
      exists us, u = fold_right String.append EmptyString us
                 /\ Forall (lang a1) us
                 /\ (lo <= length us)%nat
                 /\ (forall h, hi = Some h -> (length us <= h)%nat)
  | Re.Grp a1 => lang a1 u
  end.

(** A pattern without a group. *)
Fixpoint plain (a : Re.regex) : Prop :=
  match a with
  | Re.Chr _ => True
  | Re.Cat a1 a2 | Re.Alt a1 a2 => plain a1 /\ plain a2
  | Re.Rep a1 _ _ => plain a1
  | Re.Grp _ => False
  end.

(** A character class passes over a part of the text that is not empty. *)
Definition passes_over (f : string -> option string) : Prop :=
  forall s s', f s = Some s' -> exists u, s = u +:+ s' /\ u <> EmptyString.

Fixpoint classes_pass (a : Re.regex) : Prop :=
  match a with
  | Re.Chr f => passes_over f
  | Re.Cat a1 a2 | Re.Alt a1 a2 => classes_pass a1 /\ classes_pass a2
  | Re.Rep a1 _ _ | Re.Grp a1 => classes_pass a1
  end.

Fixpoint all_chars (p : ascii -> bool) (s : string) : bool :=
  match s with
  | EmptyString => true
  | String c s' => p c && all_chars p s'
  end.

Definition starts_with (p : ascii -> bool) (s : string) : bool :=
  match s with
  | String c _ => p c
  | EmptyString => false
  end.

Definition TAB : string := String (ascii_of_N 9) EmptyString.

(** ** Listings, configuration and the rhythm of a run *)

(** What holds of every listing read off a page. *)
Definition well_formed (it : Listing) : Prop :=
  url it <> "" /\ ad_id it = ad_id_from_url (url it) /\ ad_id it <> ""
  /\ (forall p, price_eur it = Some p -> 0 <= p)
  /\ (forall d, km it = Some d -> 0 <= d).

(** The pair the diagnostic script keeps of a listing. *)
Definition card_of (it : Listing) : string * string := (title it, url it).

(** The dictionary both scripts make of the rows of the Config tab. *)
Definition config (rows : list (list string)) : gmap string string :=
  fold_left (fun cfg r =>
               if is_nil r || negb (Py.nonempty (Py.strip (item 0 r))) then cfg
               else <[Py.strip (item 0 r) :=
                        if (1 <? length r)%nat then Py.strip (item 1 r) else EmptyString]> cfg)
            rows ∅.

(** A text of decimal digits holds no ASCII character but the digits 0 to 9:
    every byte is one of them or belongs to a character beyond ASCII (the
    decimal digits of other scripts, which [\d] and [\D] of Python count as
    digits too). *)
Definition no_ascii_but_digits (s : string) : bool :=
  all_chars (fun c => Py.is_digit c || (128 <=? Py.code c)%N) s.

(** A location id as the scripts put it into an address: decimal digits, at
    least one. *)
Definition location_id (s : string) : Prop :=
  s <> "" /\ no_ascii_but_digits s = true.

(** The rhythm of the requests, read off the events of a run in the order
    they happened: a request is in order when no request has gone before it
    or a sleep of at least 1.2 seconds has followed the last one.  [pace]
    answers whether the next request is in order, [None] once a request was
    not. *)
Fixpoint pace (ready : bool) (evs : list event) : option bool :=
  match evs with
  | [] => Some ready
  | HttpGet _ :: evs' => if ready then pace false evs' else None
  | Sleep ms :: evs' => pace (ready || (1200 <=? ms)) evs'
  | _ :: evs' => pace ready evs'
  end.

Definition paced (evs : list event) : bool := is_some (pace true evs).

Definition quiet (e : event) : bool :=
  match e with
  | HttpGet _ | Sleep _ => false
  | _ => true
  end.

(** The world a second run of [sample_world] starts from. *)
Definition sample_world_next : world :=
  World (sheets (main sample_world).2) (net sample_world) 0 (clock sample_world) 1 [].

(** ** Errors, rows and quoting *)

(** The exceptions a run of the watcher ends with. *)
Definition run_error (e : exn) : Prop :=
  (exists msg, e = ValueError msg) \/ (exists msg, e = RuntimeError msg).

(** A price or distance cell: a number that is not negative, or blank. *)
Definition number_or_blank (c : cell) : Prop :=
  match c with
  | CInt n => 0 <= n
  | CStr s => s = ""
  end.

(** A row as the header of the Results tab announces it: nine cells, the id
    read off the address, both not empty. *)
Definition row_shape (r : list cell) : Prop :=
  match r with
  | [CStr id; CStr _; CStr _; price; distance; CStr _; CStr address; CStr _; CStr _] =>
      id <> "" /\ address <> "" /\ id = ad_id_from_url address
      /\ number_or_blank price /\ number_or_blank distance
  | _ => False
  end.

(** The characters of a quoted text: those that stand for themselves, the
    plus sign of a space, and the percent sign of an escape. *)
Definition url_safe (c : ascii) : bool :=
  Py.unreserved c || Py.byte_is 43 c || Py.byte_is 37 c.

(** The row comes from a listing of the batches that passes the filter of
    its search. *)
Definition row_from (bullet now : string) (batches : list (search * list Listing))
    (r : list cell) : Prop :=
  exists b it, b ∈ batches /\ it ∈ b.2 /\ passes b.1 it = true
    /\ r = result_row bullet now (query b.1) it.

(** ** More sample data, and the rows to buffer *)

(** A spreadsheet whose Results tab holds the row of [sample_item] under a
    header of eight columns, without [fetched_at]. *)
Definition sample_world_old_header : world :=
  World (<[RESULTS_TAB := [map CStr ["ad_id"; "query"; "title"; "price_eur"; "km"; "location";
                                     "url"; "posted_at"];
                           sample_row]]> (sheets sample_world))
    (net sample_world) 0 (clock sample_world) 0 [].

(** A spreadsheet whose Results tab holds, under the header, a row of
    another listing. *)
Definition sample_world_other : world :=
  World (<[RESULTS_TAB := [map CStr RESULT_HEADERS;
                           [CStr "1111111111"; CStr "sofa"; CStr "Couch"; CInt 90; CStr "";
                            CStr "Berlin"; CStr "https://www.kleinanzeigen.de/s-anzeige/couch/1111111111-88-3331";
                            CStr ""; CStr sample_time]]]> (sheets sample_world))
    (net sample_world) 0 (clock sample_world) 0 [].

(** The rows a run is to buffer, in the words of the specification: the
    listings found are gone through in their order; a listing is accepted
    when it passes the filter of its search and its id is not known; the row
    of an accepted listing is buffered and its id is known from then on. *)
Fixpoint accepted_rows (bullet now : string) (known : gset string)
    (found : list (search * Listing)) : list (list cell) :=
  match found with
  | [] => []
  | (sd, it) :: rest =>
      if passes sd it && negb (bool_decide (ad_id it ∈ known))
      then result_row bullet now (query sd) it
             :: accepted_rows bullet now (known ∪ {[ad_id it]}) rest
      else accepted_rows bullet now known rest
  end.

(** The listings of all searches, each with its search, in the order the run
    meets them. *)
Definition found_listings (batches : list (search * list Listing)) : list (search * Listing) :=
  flat_map (fun b => map (pair b.1) b.2) batches.

(** * Properties *)

(** ** The model on examples *)

Example lower_ex : Py.lower "Zu Verschenken" = "zu verschenken".
Proof. reflexivity. Qed.

Example strip_ex : Py.strip "  a b  " = "a b".
Proof. reflexivity. Qed.

Example split_ex : Py.split "•" "Heute, 12:00 • Berlin" = ["Heute, 12:00 "; " Berlin"].
Proof. reflexivity. Qed.

Example replace_ex : Py.replace "." "" "1.250.000" = "1250000".
Proof. reflexivity. Qed.

Example str_ex : Py.str 0 = "0" /\ Py.str (-15) = "-15" /\ Py.str 1250 = "1250".
Proof. repeat split; reflexivity. Qed.

Example int_ex :
  Py.int " 1_250 " = Ok 1250 /\ Py.int "-7" = Ok (-7)
  /\ (exists m, Py.int "1 250" = Raise (ValueError m))
  /\ (exists m, Py.int "" = Raise (ValueError m))
  /\ Py.int (NBSP +:+ "12" +:+ NBSP) = Ok 12
  /\ Py.strip (String (ascii_of_N 28) "12") = "12"
  /\ (exists m, Py.int (String (ascii_of_N 28) "12") = Raise (ValueError m)).
Proof. repeat split; try reflexivity; eexists; reflexivity. Qed.

Example quote_ex : Py.quote_plus "a b/c~d_e.f-g+ä€" = "a+b%2Fc~d_e.f-g%2B%C3%A4%E2%82%AC".
Proof. reflexivity. Qed.

Example price_ex :
  parse_price_eur (Some "Zu verschenken") = Ok (Some 0)
  /\ parse_price_eur (Some "1.250 €") = Ok (Some 1250)
  /\ parse_price_eur (Some "1.250,50 € VB") = Ok (Some 1250)
  /\ parse_price_eur (Some "12345 €") = Ok (Some 123)
  /\ parse_price_eur (Some "VB") = Ok None
  /\ parse_price_eur (Some "1	250") = Ok None
  /\ parse_price_eur (Some "") = Ok None
  /\ parse_price_eur None = Ok None.
Proof. repeat split; vm_compute; reflexivity. Qed.

Example km_ex :
  extract_km "gefahren 123.456 km" = Ok (Some 123456)
  /\ extract_km "EZ 2015 85.000 KM Diesel" = Ok (Some 85000)
  /\ extract_km "1234567km" = Ok (Some 234567)
  /\ extract_km ("85.000 " +:+ Re.KELVIN +:+ "m") = Ok (Some 85000)
  /\ extract_km "kein Treffer" = Ok None.
Proof. repeat split; vm_compute; reflexivity. Qed.

(** [get_text] leaves out the text of a script and a comment. *)
Example get_text_ex :
  Soup.get_text " "
    (Soup.Element [] "div" []
       [Soup.Text " Golf ";
        Soup.Tag "script" [] [Soup.Text "var km = '150.000 km';"];
        Soup.Special "<!-- 99.000 km -->";
        Soup.Tag "span" [] [Soup.Text "VB"]])
  = "Golf VB"
  /\ Soup.get_text ""
       (Soup.Element [] "script" [] [Soup.Text "var km = '150.000 km';"])
     = "var km = '150.000 km';".
Proof. split; vm_compute; reflexivity. Qed.

Example ad_id_ex :
  ad_id_from_url "https://www.kleinanzeigen.de/s-anzeige/sofa/2345678901-88-3331" = "2345678901"
  /\ ad_id_from_url "/s-anzeige/sofa/12345-88" = "/s-anzeige/sofa/12345-88".
Proof. repeat split; vm_compute; reflexivity. Qed.

(** The two scripts on the same metadata: the literal bullet splits it, the
    characters [kleinanzeigen-watcher.py] has in its place do not occur in it,
    so the whole text ends up as the location. *)
Example split_meta_ex :
  split_meta BULLET "Heute, 12:00 • Berlin" = ("Heute, 12:00", "Berlin")
  /\ split_meta BULLET_MISREAD "Heute, 12:00 • Berlin" = ("", "Heute, 12:00 • Berlin")
  /\ split_meta BULLET "a • b • c" = ("", "")
  /\ split_meta BULLET "" = ("", "").
Proof. repeat split; vm_compute; reflexivity. Qed.

(** ** The filter loop *)

Lemma consider_cases bullet now sd st it :
  consider bullet now sd st it =
    if passes sd it && negb (bool_decide (ad_id it ∈ st.1))
    then (st.1 ∪ {[ad_id it]}, (st.2 ++ [result_row bullet now (query sd) it])%list)
    else st.
Proof.
  unfold consider, passes.
  destruct (String.eqb (kind sd) "vehicle"); simpl;
    [destruct (under_min (km_min sd) (km it)); simpl; [reflexivity|];
     destruct (over_max (km_max sd) (km it)); simpl; [reflexivity|] |];
    destruct (bool_decide (ad_id it ∈ st.1)); reflexivity.
Qed.

Lemma row_id_result_row bullet now q it : row_id (result_row bullet now q it) = ad_id it.
Proof. unfold result_row. destruct (split_meta bullet (meta it)). reflexivity. Qed.

Lemma row_fetched_at_result_row bullet now q it :
  row_fetched_at (result_row bullet now q it) = now.
Proof. unfold result_row. destruct (split_meta bullet (meta it)). reflexivity. Qed.

Lemma loop_inv_start now known : loop_inv now known (known, []).
Proof.
  split; simpl.
  - set_solver.
  - constructor.
  - intros r Hr. inversion Hr.
  - intros r Hr. inversion Hr.
Qed.

Lemma loop_inv_consider bullet now known sd st it :
  loop_inv now known st -> loop_inv now known (consider bullet now sd st it).
Proof.
  intros [Hids Hnd Hfr Hst]. rewrite consider_cases.
  destruct (passes sd it && negb (bool_decide (ad_id it ∈ st.1))) eqn:E; [|by split].
  apply andb_true_iff in E as [_ E]. apply negb_true_iff in E. apply bool_decide_eq_false in E.
  assert (Hnot : (ad_id it ∉ known) /\ (ad_id it ∉ map row_id st.2)).
  { rewrite Hids in E. split; intros H; apply E; [set_solver|].
    apply elem_of_union_r, elem_of_list_to_set, H. }
  destruct Hnot as [Hk Hr].
  split; simpl.
  - rewrite map_app, list_to_set_app_L, Hids. simpl. rewrite row_id_result_row. set_solver.
  - rewrite map_app. simpl. rewrite row_id_result_row.
    apply NoDup_app. split; [done|]. split; [|apply NoDup_singleton].
    intros x Hx Hx'. apply list_elem_of_singleton in Hx'. by subst.
  - intros r Hin. apply elem_of_app in Hin as [Hin|Hin]; [by apply Hfr|].
    apply list_elem_of_singleton in Hin. subst. by rewrite row_id_result_row.
  - intros r Hin. apply elem_of_app in Hin as [Hin|Hin]; [by apply Hst|].
    apply list_elem_of_singleton in Hin. subst. apply row_fetched_at_result_row.
Qed.

Lemma loop_inv_consider_all bullet now known sd items st :
  loop_inv now known st -> loop_inv now known (consider_all bullet now sd st items).
Proof.
  unfold consider_all. revert st.
  induction items as [|it items IH]; intros st H; simpl; [done|].
  apply IH. by apply loop_inv_consider.
Qed.

Lemma loop_inv_batches bullet now known batches st :
  loop_inv now known st -> loop_inv now known (consider_batches bullet now st batches).
Proof.
  unfold consider_batches. revert st.
  induction batches as [|b bs IH]; intros st H; simpl; [done|].
  apply IH. by apply loop_inv_consider_all.
Qed.

(** The known ids only grow. *)
Lemma consider_grows bullet now sd st it : st.1 ⊆ (consider bullet now sd st it).1.
Proof.
  rewrite consider_cases.
  destruct (passes sd it && negb (bool_decide (ad_id it ∈ st.1))); simpl; set_solver.
Qed.

Lemma consider_all_grows bullet now sd items st :
  st.1 ⊆ (consider_all bullet now sd st items).1.
Proof.
  unfold consider_all. revert st.
  induction items as [|it items IH]; intros st; simpl; [done|].
  etrans; [apply (consider_grows bullet now sd st it)|apply IH].
Qed.

Lemma consider_batches_grows bullet now batches st :
  st.1 ⊆ (consider_batches bullet now st batches).1.
Proof.
  unfold consider_batches. revert st.
  induction batches as [|b bs IH]; intros st; simpl; [done|].
  etrans; [apply (consider_all_grows bullet now b.1 b.2 st)|apply IH].
Qed.

(** A listing that passes the distance filter is known once considered. *)
Lemma consider_knows bullet now sd st it :
  passes sd it = true -> ad_id it ∈ (consider bullet now sd st it).1.
Proof.
  intros Hp. rewrite consider_cases, Hp. simpl.
  destruct (bool_decide (ad_id it ∈ st.1)) eqn:E; simpl.
  - by apply bool_decide_eq_true in E.
  - set_solver.
Qed.

Lemma consider_all_knows bullet now sd items st it :
  it ∈ items -> passes sd it = true -> ad_id it ∈ (consider_all bullet now sd st items).1.
Proof.
  unfold consider_all. revert st.
  induction items as [|x items IH]; intros st Hin Hp; [inversion Hin|].
  simpl. apply elem_of_cons in Hin as [->|Hin].
  - apply (consider_all_grows bullet now sd items). by apply consider_knows.
  - by apply IH.
Qed.

Lemma consider_batches_covers bullet now batches st :
  covers (consider_batches bullet now st batches).1 batches.
Proof.
  unfold consider_batches. revert st.
  induction batches as [|b bs IH]; intros st b' it Hb Hit Hp; [inversion Hb|].
  simpl. apply elem_of_cons in Hb as [->|Hb].
  - apply (consider_batches_grows bullet now bs). by apply consider_all_knows.
  - by apply (IH _ b' it).
Qed.

Lemma consider_covered bullet now sd st it :
  (passes sd it = true -> ad_id it ∈ st.1) -> consider bullet now sd st it = st.
Proof.
  intros H. rewrite consider_cases.
  destruct (passes sd it) eqn:Hp; simpl; [|done].
  rewrite bool_decide_eq_true_2; [done|by apply H].
Qed.

Lemma consider_all_covered bullet now sd items st :
  (forall it, it ∈ items -> passes sd it = true -> ad_id it ∈ st.1) ->
  consider_all bullet now sd st items = st.
Proof.
  unfold consider_all.
  induction items as [|x items IH]; intros H; simpl; [done|].
  rewrite consider_covered; [|intros; apply H; [left|done]].
  apply IH. intros it Hin. apply H. by right.
Qed.

Lemma consider_batches_covered bullet now batches st :
  covers st.1 batches -> consider_batches bullet now st batches = st.
Proof.
  unfold consider_batches.
  induction batches as [|b bs IH]; intros H; simpl; [done|].
  rewrite consider_all_covered; [|intros it Hin; apply (H b it); [left|done]].
  apply IH. intros b' it Hb. apply H. by right.
Qed.

(** A second pass over the same batches, knowing the ids the first has
    emitted, emits nothing. *)
Lemma second_pass_empty bullet now now' batches :
  let st1 := consider_batches bullet now (∅, []) batches in
  consider_batches bullet now' (list_to_set (map row_id st1.2), []) batches
  = (list_to_set (map row_id st1.2), []).
Proof.
  intros st1. apply consider_batches_covered. simpl.
  pose proof (loop_inv_batches bullet now ∅ batches (∅, []) (loop_inv_start now ∅)) as [Hids _ _ _].
  fold st1 in Hids. simpl in Hids.
  replace (list_to_set (map row_id st1.2)) with st1.1 by (rewrite Hids; set_solver).
  apply consider_batches_covers.
Qed.

(** ** Runs as events *)

Lemma replay_app evs1 evs2 w : replay (evs1 ++ evs2) w = replay evs1 (replay evs2 w).
Proof. unfold replay. apply fold_right_app. Qed.

Lemma trace_apply e w : trace (apply e w) = e :: trace w.
Proof. by destruct e. Qed.

Lemma trace_replay evs w : trace (replay evs w) = (evs ++ trace w)%list.
Proof.
  induction evs as [|e evs IH]; simpl; [done|]. by rewrite trace_apply, IH.
Qed.

Lemma added_replay evs w : added w (replay evs w) = evs.
Proof.
  unfold added. rewrite trace_replay, length_app.
  replace (length evs + length (trace w) - length (trace w))%nat with (length evs) by lia.
  by rewrite take_app_length.
Qed.

Lemma net_replay evs w : net (replay evs w) = net w.
Proof. induction evs as [|e evs IH]; simpl; [done|]. by destruct e. Qed.

Lemma clock_replay evs w : clock (replay evs w) = clock w.
Proof. induction evs as [|e evs IH]; simpl; [done|]. by destruct e. Qed.

Lemma sheets_replay evs w :
  forallb (fun e => negb (is_write e)) evs = true -> sheets (replay evs w) = sheets w.
Proof.
  induction evs as [|e evs IH]; simpl; [done|].
  intros H. apply andb_true_iff in H as [He H]. rewrite <- (IH H).
  by destruct e.
Qed.

Lemma ticks_replay evs w :
  forallb (fun e => negb (is_now e)) evs = true -> ticks (replay evs w) = ticks w.
Proof.
  induction evs as [|e evs IH]; simpl; [done|].
  intros H. apply andb_true_iff in H as [He H]. rewrite <- (IH H).
  by destruct e.
Qed.

Lemma requests_replay evs w :
  forallb (fun e => negb (is_request e)) evs = true -> requests (replay evs w) = requests w.
Proof.
  induction evs as [|e evs IH]; simpl; [done|].
  intros H. apply andb_true_iff in H as [He H]. rewrite <- (IH H).
  by destruct e.
Qed.

Lemma forallb_weaken {A} (P Q : A -> bool) l :
  (forall x, P x = true -> Q x = true) -> forallb P l = true -> forallb Q l = true.
Proof.
  intros H. rewrite !forallb_forall. intros HP x Hx. by apply H, HP.
Qed.

(** *** Effects *)

Lemma effects_weaken {A} (P Q : event -> bool) (m : M A) :
  (forall e, P e = true -> Q e = true) -> effects P m -> effects Q m.
Proof.
  intros H Hm w. destruct (Hm w) as (evs & E & HP).
  exists evs. split; [done|]. by apply (forallb_weaken P).
Qed.

Lemma effects_ret {A} P (a : A) : effects P (ret a).
Proof. intros w. exists (@nil event). split; reflexivity. Qed.

Lemma effects_lift {A} P (o : outcome A) : effects P (lift o).
Proof. intros w. exists (@nil event). split; reflexivity. Qed.

Lemma effects_print P line : P (Print line) = true -> effects P (print line).
Proof.
  intros H w. exists [Print line]. split; [reflexivity|]. simpl. by rewrite H.
Qed.

Lemma effects_sleep P ms : P (Sleep ms) = true -> effects P (sleep ms).
Proof.
  intros H w. exists [Sleep ms]. split; [reflexivity|]. simpl. by rewrite H.
Qed.

Lemma effects_bind {A B} P (m : M A) (f : A -> M B) :
  effects P m -> (forall a, effects P (f a)) -> effects P (bind m f).
Proof.
  intros Hm Hf w. unfold bind.
  destruct (Hm w) as (evs & E & HP). destruct (m w) as [[a|e] w1]; simpl in E; subst.
  - destruct (Hf a (replay evs w)) as (evs' & E' & HP').
    exists (evs' ++ evs)%list. rewrite replay_app, forallb_app, HP, HP'. done.
  - exists evs. by split.
Qed.

Lemma effects_try {A} P (m : M A) : effects P m -> effects P (try m).
Proof.
  intros Hm w. unfold try. destruct (Hm w) as (evs & E & HP).
  destruct (m w) as [r w1]. exists evs. by split.
Qed.

Lemma effects_for_each {A S} P (body : S -> A -> M S) l :
  (forall st x, effects P (body st x)) -> forall st, effects P (for_each body st l).
Proof.
  intros Hb. induction l as [|x l IH]; intros st; simpl.
  - apply effects_ret.
  - apply effects_bind; [apply Hb|apply IH].
Qed.

(** *** The loop of [main] *)

Lemma effects_requests_get url : effects offline (requests_get url).
Proof.
  intros w. exists [HttpGet url]. split; [|reflexivity].
  unfold requests_get. by destruct (net w (requests w) url).
Qed.

Lemma effects_fetch_listings url : effects offline (fetch_listings url).
Proof.
  unfold fetch_listings.
  apply effects_bind; [apply effects_requests_get|]. intros r.
  apply effects_bind; [apply effects_lift|]. intros _. apply effects_lift.
Qed.

Lemma effects_fetch_row R W idx h city row : effects offline (fetch_row R W idx h city row).
Proof.
  unfold fetch_row. apply effects_bind; [apply effects_lift|]. intros [sd|]; [|apply effects_ret].
  apply effects_bind; [apply effects_try, effects_fetch_listings|]. intros [items|e].
  - apply effects_bind; [by apply effects_sleep|]. intros _. apply effects_ret.
  - apply effects_bind; [by apply effects_print|]. intros _.
    apply effects_bind; [by apply effects_sleep|]. intros _. apply effects_ret.
Qed.

Lemma effects_fetch_rows R W idx h city rows : effects offline (fetch_rows R W idx h city rows).
Proof.
  induction rows as [|row rows IH]; simpl; [apply effects_ret|].
  apply effects_bind; [apply effects_fetch_row|]. intros b.
  apply effects_bind; [apply IH|]. intros bs. apply effects_ret.
Qed.

(** [search_row] is [fetch_row] followed by the filter loop. *)
Lemma search_row_fetch_row bullet now R W idx h city st row w :
  search_row bullet now R W idx h city st row w =
    match fetch_row R W idx h city row w with
    | (Ok (Some b), w') => (Ok (consider_all bullet now b.1 st b.2), w')
    | (Ok None, w') => (Ok st, w')
    | (Raise e, w') => (Raise e, w')
    end.
Proof.
  unfold search_row, fetch_row, bind, lift, try, ret.
  destruct (read_row idx h city (pad W row)) as [[sd|]|e]; try reflexivity.
  destruct (fetch_listings _ w) as [[items|e] w1]; reflexivity.
Qed.

Lemma for_each_search_row bullet now R W idx h city rows st w :
  for_each (search_row bullet now R W idx h city) st rows w =
    match fetch_rows R W idx h city rows w with
    | (Ok bs, w') => (Ok (consider_batches bullet now st bs), w')
    | (Raise e, w') => (Raise e, w')
    end.
Proof.
  revert st w. induction rows as [|row rows IH]; intros st w; simpl; [reflexivity|].
  unfold bind, ret. rewrite search_row_fetch_row.
  destruct (fetch_row R W idx h city row w) as [[[b|]|e] w1]; try reflexivity;
    rewrite IH; destruct (fetch_rows R W idx h city rows w1) as [[bs|e] w2]; reflexivity.
Qed.

(** *** [main] up to its flush *)

Lemma bind_ok {A B} (m : M A) (f : A -> M B) w a w' :
  m w = (Ok a, w') -> bind m f w = f a w'.
Proof. unfold bind. by intros ->. Qed.

Lemma bind_raise {A B} (m : M A) (f : A -> M B) w e w' :
  m w = (Raise e, w') -> bind m f w = (Raise e, w').
Proof. unfold bind. by intros ->. Qed.

Lemma read_sheet_range_run tab rng w :
  read_sheet_range tab rng w = (Ok (values tab rng w), replay [SheetGet tab rng] w).
Proof. reflexivity. Qed.

Lemma values_sheets tab rng w w' : sheets w' = sheets w -> values tab rng w' = values tab rng w.
Proof. intros H. unfold values, tab_rows. by rewrite H. Qed.

Lemma ensure_headers_run tab hs w :
  exists hdr, ensure_headers tab hs w = (Ok tt, replay hdr w) /\ forallb header_event hdr = true.
Proof.
  unfold ensure_headers. rewrite (bind_ok _ _ _ _ _ (read_sheet_range_run _ _ _)).
  destruct (values tab "A1:Z1" w) as [|first rest].
  - exists [SheetUpdate tab "A1" [map CStr hs]; SheetClear tab "A:Z"; SheetGet tab "A1:Z1"].
    split; reflexivity.
  - destruct (list_eqb first hs).
    + exists [SheetGet tab "A1:Z1"]. split; reflexivity.
    + exists [SheetUpdate tab "A1" [map CStr hs]; SheetClear tab "A:Z"; SheetGet tab "A1:Z1"].
      split; reflexivity.
Qed.

Lemma after_headers_replay w :
  exists hdr, after_headers w = replay hdr w /\ forallb header_event hdr = true.
Proof.
  unfold after_headers.
  destruct (ensure_headers_run RESULTS_TAB RESULT_HEADERS w) as (hdr & E & H).
  exists hdr. by rewrite E.
Qed.

Lemma ensure_headers_after w :
  ensure_headers RESULTS_TAB RESULT_HEADERS w = (Ok tt, after_headers w).
Proof.
  unfold after_headers.
  destruct (ensure_headers_run RESULTS_TAB RESULT_HEADERS w) as (hdr & E & H).
  by rewrite E.
Qed.

Lemma get_config_run w :
  exists r, get_config w = (r, replay [SheetGet CONFIG_TAB "A:B"] w).
Proof.
  unfold get_config. rewrite (bind_ok _ _ _ _ _ (read_sheet_range_run _ _ _)).
  unfold bind, lift, ret. destruct (Py.int _); eexists; reflexivity.
Qed.

Lemma load_location_ids_run w :
  exists r, load_location_ids w = (Ok r, replay [SheetGet LOCATIONS_TAB "A:B"] w).
Proof.
  unfold load_location_ids. rewrite (bind_ok _ _ _ _ _ (read_sheet_range_run _ _ _)).
  destruct (values _ _ _); eexists; reflexivity.
Qed.

Lemma load_existing_ad_ids_run w :
  load_existing_ad_ids w = (Ok (stored_ids w), replay [SheetGet RESULTS_TAB "A2:A"] w).
Proof. reflexivity. Qed.

Lemma now_utc_iso_run w : now_utc_iso w = (Ok (clock w (ticks w)), replay [Now] w).
Proof. reflexivity. Qed.

Lemma stored_ids_sheets w w' : sheets w' = sheets w -> stored_ids w' = stored_ids w.
Proof. intros H. unfold stored_ids. by rewrite (values_sheets _ _ _ _ H). Qed.

Lemma replay_replay evs1 evs2 w : replay evs1 (replay evs2 w) = replay (evs1 ++ evs2) w.
Proof. by rewrite replay_app. Qed.

Lemma loop_rows bullet now R W idx h city rows st w :
  bind (for_each (search_row bullet now R W idx h city) st rows) (fun st' => ret (Some st'.2)) w =
    match fetch_rows R W idx h city rows w with
    | (Ok bs, w') => (Ok (Some (consider_batches bullet now st bs).2), w')
    | (Raise e, w') => (Raise e, w')
    end.
Proof.
  unfold bind, ret. rewrite for_each_search_row.
  destruct (fetch_rows R W idx h city rows w) as [[bs|e] w']; reflexivity.
Qed.

Lemma main_rows_run w :
  exists early late,
    (main_rows w).2 = replay (late ++ early) (after_headers w)
    /\ forallb reading early = true
    /\ (late = [] \/ exists loop, late = (loop ++ [Now])%list /\ forallb offline loop = true)
    /\ forall rows, (main_rows w).1 = Ok (Some rows) ->
         exists bs, rows = (consider_batches BULLET (clock w (ticks w)) (known_ids w, []) bs).2.
Proof.
  destruct (after_headers_replay w) as (hdr & Eh & Hh).
  unfold main_rows. rewrite (bind_ok _ _ _ _ _ (ensure_headers_after w)).
  set (w0 := after_headers w) in *.
  destruct (get_config_run w0) as ([cfg|e] & Ec).
  2:{ rewrite (bind_raise _ _ _ _ _ Ec).
      exists [SheetGet CONFIG_TAB "A:B"], []. repeat split; [by left|]. intros rows H. discriminate. }
  rewrite (bind_ok _ _ _ _ _ Ec).
  destruct (load_location_ids_run (replay [SheetGet CONFIG_TAB "A:B"] w0)) as (city & El).
  rewrite (bind_ok _ _ _ _ _ El).
  rewrite (bind_ok _ _ _ _ _ (read_sheet_range_run _ _ _)).
  rewrite !replay_replay. simpl app.
  set (pre := [SheetGet SEARCHES_TAB "A:Z"; SheetGet LOCATIONS_TAB "A:B"; SheetGet CONFIG_TAB "A:B"]).
  destruct (values SEARCHES_TAB "A:Z" _) as [|first [|second rows]].
  - exists (Print "No searches found." :: pre), []. repeat split; [by left|].
    intros rows H. discriminate.
  - exists (Print "No searches found." :: pre), []. repeat split; [by left|].
    intros rows H. discriminate.
  - destruct (first_missing _ REQUIRED) as [r|].
    { exists pre, []. repeat split; [by left|]. intros rows' H. discriminate. }
    rewrite (bind_ok _ _ _ _ _ (load_existing_ad_ids_run _)).
    rewrite (bind_ok _ _ _ _ _ (now_utc_iso_run _)).
    rewrite !replay_replay. simpl app.
    set (pre' := SheetGet RESULTS_TAB "A2:A" :: pre).
    assert (Hnow : clock (replay pre' w0) (ticks (replay pre' w0)) = clock w (ticks w)).
    { rewrite clock_replay, ticks_replay by reflexivity. subst w0. rewrite Eh, clock_replay.
      rewrite ticks_replay; [done|]. eapply forallb_weaken; [|exact Hh]. by intros []. }
    assert (Hknown : stored_ids (replay pre w0) = known_ids w).
    { unfold known_ids. fold w0. by apply stored_ids_sheets, sheets_replay. }
    rewrite Hnow, Hknown. rewrite loop_rows.
    match goal with |- context [fetch_rows ?R ?W ?idx ?h ?c ?rs ?ww] =>
      destruct (effects_fetch_rows R W idx h c rs ww) as (loop & Elp & Hl);
      destruct (fetch_rows R W idx h c rs ww) as [[bs|e] w3] end; cbn [snd] in Elp; subst w3.
    + exists pre', (loop ++ [Now])%list.
      split; [|split; [reflexivity|split; [right; by exists loop|]]].
      * cbn [fst snd]. by rewrite replay_replay, <- app_assoc.
      * cbn [fst snd]. intros rows' H. injection H as <-. by exists bs.
    + exists pre', (loop ++ [Now])%list.
      split; [|split; [reflexivity|split; [right; by exists loop|]]].
      * cbn [fst snd]. by rewrite replay_replay, <- app_assoc.
      * cbn [fst snd]. intros rows' H. discriminate.
Qed.

Lemma flush_run rows w : flush rows w = (Ok tt, replay (flush_events rows) w).
Proof.
  unfold flush, flush_events, write_rows_append. destruct rows as [|r rows]; reflexivity.
Qed.

(** The whole of a run, as events: the header step, the readings, the clock
    and the searches, and the flush. *)
Lemma main_run w :
  exists hdr early late tail,
    after_headers w = replay hdr w
    /\ (main_rows w).2 = replay (late ++ early ++ hdr) w
    /\ (main w).2 = replay (tail ++ late ++ early ++ hdr) w
    /\ forallb header_event hdr = true
    /\ forallb reading early = true
    /\ (late = [] \/ exists loop, late = (loop ++ [Now])%list /\ forallb offline loop = true)
    /\ match (main_rows w).1 with
       | Ok (Some rows) =>
           tail = flush_events rows
           /\ exists bs, rows = (consider_batches BULLET (clock w (ticks w)) (known_ids w, []) bs).2
       | _ => tail = []
       end.
Proof.
  destruct (after_headers_replay w) as (hdr & Eh & Hh).
  destruct (main_rows_run w) as (early & late & E & He & Hl & Hrows).
  exists hdr, early, late.
  assert (E' : (main_rows w).2 = replay (late ++ early ++ hdr) w).
  { rewrite E, Eh, replay_replay. by rewrite <- app_assoc. }
  unfold main, bind. destruct (main_rows w) as [[[rows|]|e] w1]; cbn [fst snd] in *.
  - exists (flush_events rows). rewrite flush_run. cbn [snd]. rewrite E' at 2.
    rewrite replay_replay. repeat split; try done. by apply Hrows.
  - exists []. repeat split; done.
  - exists []. repeat split; done.
Qed.

(** ** The claims *)

Lemma consider_rejected bullet now sd st it :
  passes sd it = false -> consider bullet now sd st it = st.
Proof. intros H. by rewrite consider_cases, H. Qed.

Lemma consider_passed bullet now sd st it :
  passes sd it = true ->
  consider bullet now sd st it =
    if bool_decide (ad_id it ∈ st.1) then st
    else (st.1 ∪ {[ad_id it]}, (st.2 ++ [result_row bullet now (query sd) it])%list).
Proof.
  intros H. rewrite consider_cases, H. by destruct (bool_decide (ad_id it ∈ st.1)).
Qed.

(** C2: under a search of kind "vehicle", a listing is rejected when the
    minimum distance is set and its distance is absent or below it, and when
    the maximum distance is set and its distance is absent or above it; with
    neither bound set a listing without a distance passes the distance filter,
    so that only its id decides. *)
Theorem vehicle_distance_filter (bullet now : string) (sd : search) (st : state) (it : Listing) :
  kind sd = "vehicle" ->
  (forall lo, km_min sd = Some lo ->
     km it = None \/ (exists k, km it = Some k /\ k < lo) ->
     consider bullet now sd st it = st)
  /\ (forall hi, km_max sd = Some hi ->
        km it = None \/ (exists k, km it = Some k /\ hi < k) ->
        consider bullet now sd st it = st)
  /\ (km_min sd = None -> km_max sd = None -> km it = None ->
      passes sd it = true
      /\ consider bullet now sd st it =
           if bool_decide (ad_id it ∈ st.1) then st
           else (st.1 ∪ {[ad_id it]}, (st.2 ++ [result_row bullet now (query sd) it])%list)).
Proof.
  intros Hk. split; [|split].
  - intros lo Hlo Hkm. apply consider_rejected. unfold passes. rewrite Hk, Hlo. simpl.
    destruct Hkm as [->|(k & -> & Hlt)]; simpl; [done|].
    apply Z.ltb_lt in Hlt. by rewrite Hlt.
  - intros hi Hhi Hkm. apply consider_rejected. unfold passes. rewrite Hk, Hhi.
    assert (Ho : over_max (Some hi) (km it) = true).
    { destruct Hkm as [->|(k & -> & Hlt)]; simpl; [done|]. by apply Z.ltb_lt. }
    by rewrite Ho, orb_true_r.
  - intros Hlo Hhi Hkm.
    assert (Hp : passes sd it = true) by (unfold passes; by rewrite Hk, Hlo, Hhi, Hkm).
    split; [done|]. by apply consider_passed.
Qed.

Lemma vehicle_distance_filter_witness :
  consider BULLET "t" (sample_vehicle (Some 10) None) (∅, []) sample_listing = (∅, [])
  /\ consider BULLET "t" (sample_vehicle None (Some 10)) (∅, []) sample_listing = (∅, [])
  /\ passes (sample_vehicle None None) sample_listing = true.
Proof.
  split; [|split].
  - apply (proj1 (vehicle_distance_filter BULLET "t" (sample_vehicle (Some 10) None)
                    (∅, []) sample_listing eq_refl) 10 eq_refl). by left.
  - apply (proj1 (proj2 (vehicle_distance_filter BULLET "t" (sample_vehicle None (Some 10))
                    (∅, []) sample_listing eq_refl)) 10 eq_refl). by left.
  - apply (proj2 (proj2 (vehicle_distance_filter BULLET "t" (sample_vehicle None None)
                    (∅, []) sample_listing eq_refl)) eq_refl eq_refl eq_refl).
Defined.

Lemma column_result_row bullet now q it :
  row_posted_at (result_row bullet now q it) = (split_meta bullet (meta it)).1
  /\ row_location (result_row bullet now q it) = (split_meta bullet (meta it)).2.
Proof. unfold result_row. by destruct (split_meta bullet (meta it)). Qed.

Lemma nonempty_true s : Py.nonempty s = true <-> s <> "".
Proof. destruct s; simpl; split; intros H; congruence. Qed.

(** C7: the row of an accepted listing takes its posting date and location
    from the metadata split on the bullet, each part stripped: two parts are
    the posting date and the location, one part is the location alone, and a
    split into any other number of parts, or an empty metadata string, leaves
    both empty. *)
Theorem metadata_split (bullet now : string) (sd : search) (st : state) (it : Listing) :
  passes sd it = true -> ad_id it ∉ st.1 ->
  exists row,
    (consider bullet now sd st it).2 = (st.2 ++ [row])%list
    /\ let parts := map Py.strip (Py.split bullet (meta it)) in
       (forall a b, meta it <> "" -> parts = [a; b] ->
          row_posted_at row = a /\ row_location row = b)
       /\ (forall a, meta it <> "" -> parts = [a] ->
             row_posted_at row = "" /\ row_location row = a)
       /\ (meta it = "" \/ (length parts <> 1 /\ length parts <> 2)%nat ->
           row_posted_at row = "" /\ row_location row = "").
Proof.
  intros Hp Hid. exists (result_row bullet now (query sd) it). split.
  - rewrite consider_passed by done. by rewrite bool_decide_eq_false_2.
  - destruct (column_result_row bullet now (query sd) it) as [-> ->].
    unfold split_meta. cbv zeta. split; [|split].
    + intros a b Hm Hparts. apply nonempty_true in Hm. by rewrite Hm, Hparts.
    + intros a Hm Hparts. apply nonempty_true in Hm. by rewrite Hm, Hparts.
    + intros [Hm|[H1 H2]]; [by rewrite Hm|].
      destruct (Py.nonempty (meta it)); [|done].
      destruct (map Py.strip (Py.split bullet (meta it))) as [|a [|b [|c l]]]; simpl in *; done.
Qed.

Lemma metadata_split_witness :
  exists row,
    (consider BULLET "t" (sample_vehicle None None) (∅, []) sample_listing).2 = [row]
    /\ row_posted_at row = "Heute, 12:00" /\ row_location row = "Berlin".
Proof.
  destruct (metadata_split BULLET "t" (sample_vehicle None None) (∅, []) sample_listing
              eq_refl (not_elem_of_empty _)) as (row & Hrow & Htwo & _).
  exists row. split; [exact Hrow|].
  apply (Htwo "Heute, 12:00" "Berlin"); [discriminate|reflexivity].
Defined.

(** C10: the price of a listing and the price bounds of a search do not enter
    the decision of the filter loop: with another price, and with other price
    bounds, a listing is accepted exactly when it was, and the ids known
    afterwards are the same. *)
Theorem price_never_filters (bullet now : string) (sd : search) (st : state) (it : Listing)
    (p lo hi : option Z) :
  let st1 := consider bullet now sd st it in
  let st2 := consider bullet now (with_price_bounds lo hi sd) st (with_price p it) in
  (st2 = st <-> st1 = st)
  /\ (accepted st st2 <-> accepted st st1)
  /\ st2.1 = st1.1
  /\ consider bullet now (with_price_bounds lo hi sd) st it = st1.
Proof.
  intros st1 st2. subst st1 st2. rewrite !consider_cases.
  change (passes (with_price_bounds lo hi sd) (with_price p it)) with (passes sd it).
  change (passes (with_price_bounds lo hi sd) it) with (passes sd it).
  change (ad_id (with_price p it)) with (ad_id it).
  change (query (with_price_bounds lo hi sd)) with (query sd).
  destruct (passes sd it && negb (bool_decide (ad_id it ∈ st.1))); unfold accepted; simpl.
  - repeat split; try done.
    + intros H. exfalso. apply (f_equal (fun s => length s.2)) in H. simpl in H.
      rewrite length_app in H. simpl in H. lia.
    + intros H. exfalso. apply (f_equal (fun s => length s.2)) in H. simpl in H.
      rewrite length_app in H. simpl in H. lia.
    + intros _. rewrite length_app. simpl. lia.
    + intros _. rewrite length_app. simpl. lia.
  - repeat split; try done; intros; lia.
Qed.

Lemma append_cons x (a b : string) : String x a +:+ b = String x (a +:+ b).
Proof. reflexivity. Qed.

Lemma append_nil_l (a : string) : "" +:+ a = a.
Proof. reflexivity. Qed.

Lemma append_assoc (a b c : string) : (a +:+ b) +:+ c = a +:+ (b +:+ c).
Proof.
  induction a as [|x a IH]; [reflexivity|]. by rewrite !append_cons, IH.
Qed.

Lemma append_empty (a : string) : a +:+ "" = a.
Proof.
  induction a as [|x a IH]; [reflexivity|]. by rewrite append_cons, IH.
Qed.

Lemma build_search_url_parts q loc r lo hi lid :
  build_search_url q loc r lo hi lid
  = url_stem q loc lid +:+ radius_token r +:+ price_token lo hi.
Proof.
  unfold build_search_url, url_stem, radius_token, price_token.
  destruct (truthy lid), (Z.eqb r 0), lo, hi; cbn [negb is_some orb str_or_empty];
    rewrite ?append_assoc, ?append_nil_l, ?append_empty; reflexivity.
Qed.

(** C3: a search URL is its stem (host, slug, query, category and location
    id) followed by the radius token and the price token.  With radius 0 and
    no price bound nothing follows the stem; a radius [r > 0] gives the token
    [r] followed by the integer; price_min = 10 without price_max gives the
    token "p10p", the lower bound "10" and an empty upper bound; without a
    price bound there is no price token. *)
Theorem search_url_tokens (q loc : string) (lid : option string) :
  build_search_url q loc 0 None None lid = url_stem q loc lid
  /\ (forall r lo hi, 0 < r ->
        build_search_url q loc r lo hi lid
        = url_stem q loc lid +:+ "r" +:+ Py.str r +:+ price_token lo hi)
  /\ (forall r, build_search_url q loc r (Some 10) None lid
                = url_stem q loc lid +:+ radius_token r +:+ "p" +:+ "10" +:+ "p" +:+ "")
  /\ (forall r, build_search_url q loc r None None lid
                = url_stem q loc lid +:+ radius_token r).
Proof.
  split; [|split; [|split]].
  - rewrite build_search_url_parts. unfold radius_token, price_token.
    cbn [Z.eqb]. by rewrite !append_empty.
  - intros r lo hi Hr. rewrite build_search_url_parts. unfold radius_token.
    destruct (Z.eqb_spec r 0) as [->|_]; [lia|]. by rewrite append_assoc.
  - intros r. by rewrite build_search_url_parts.
  - intros r. rewrite build_search_url_parts. unfold price_token. by rewrite append_empty.
Qed.

Lemma search_url_tokens_witness :
  build_search_url "sofa bett" "Berlin" 25 (Some 10) None (Some "3331")
  = "https://www.kleinanzeigen.de/s-berlin/sofa+bett/k0l3331r25p10p".
Proof.
  rewrite (proj1 (proj2 (search_url_tokens "sofa bett" "Berlin" (Some "3331")))
             25 (Some 10) None eq_refl).
  reflexivity.
Defined.

Lemma int_outcome s : (exists n, Py.int s = Ok n) \/ (exists msg, Py.int s = Raise (ValueError msg)).
Proof.
  unfold Py.int. destruct (Py.int_literal _); [|right; eexists; reflexivity].
  destruct (_ <? _)%N; [right|left]; eexists; reflexivity.
Qed.

Lemma int_or_none_ok num : exists price, int_or_none num = Ok price.
Proof.
  unfold int_or_none. destruct (int_outcome num) as [[n ->]|[msg ->]]; eexists; reflexivity.
Qed.

(** C4: the price parser gives 0 for "Zu verschenken", 1250 for "1.250 €",
    no price for the empty string and for [None], and raises on no input:
    whatever the text, it returns a price or [None]. *)
Theorem parse_price_eur_never_raises :
  parse_price_eur (Some "Zu verschenken") = Ok (Some 0)
  /\ parse_price_eur (Some "1.250 €") = Ok (Some 1250)
  /\ parse_price_eur (Some "") = Ok None
  /\ parse_price_eur None = Ok None
  /\ forall text, exists price, parse_price_eur text = Ok price.
Proof.
  split; [vm_compute; reflexivity|]. split; [vm_compute; reflexivity|].
  split; [reflexivity|]. split; [reflexivity|].
  intros [text|]; [|by exists None]. unfold parse_price_eur.
  destruct (negb (Py.nonempty text)); [by exists None|].
  destruct (Py.contains "verschenken" (Py.lower text)); [by exists (Some 0)|].
  destruct (Re.search_group1 PRICE_REGEX _) as [g|]; [|by exists None].
  apply int_or_none_ok.
Qed.

(** *** What a run appends *)

Lemma rows_of_no_append evs :
  forallb (fun e => negb (is_append e)) evs = true -> flat_map rows_of evs = [].
Proof.
  induction evs as [|e evs IH]; simpl; [done|].
  intros H. apply andb_true_iff in H as [He H]. rewrite (IH H). by destruct e.
Qed.

Lemma forallb_rev {A} (P : A -> bool) l : forallb P (rev l) = forallb P l.
Proof.
  induction l as [|x l IH]; simpl; [done|].
  rewrite forallb_app, IH. simpl. rewrite andb_true_r. apply andb_comm.
Qed.

Lemma rows_of_flush rows : flat_map rows_of (rev (flush_events rows)) = rows.
Proof.
  unfold flush_events. destruct rows as [|r rows]; simpl; [done|]. by rewrite app_nil_r.
Qed.

Lemma header_event_no_append e : header_event e = true -> negb (is_append e) = true.
Proof. by destruct e. Qed.

Lemma reading_no_append e : reading e = true -> negb (is_append e) = true.
Proof. by destruct e. Qed.

Lemma offline_no_append e : offline e = true -> negb (is_append e) = true.
Proof. by destruct e. Qed.

Lemma late_class (P : event -> bool) late :
  P Now = true -> (forall e, offline e = true -> P e = true) ->
  (late = [] \/ exists loop, late = (loop ++ [Now])%list /\ forallb offline loop = true) ->
  forallb P late = true.
Proof.
  intros HN HP [->|(loop & -> & Hl)]; [done|].
  rewrite forallb_app. simpl. rewrite HN, andb_true_r. by apply (forallb_weaken offline).
Qed.

(** The rows a run appends are the rows its loop has gathered. *)
Lemma appended_rows_main w :
  appended_rows w (main w).2 =
    match (main_rows w).1 with
    | Ok (Some rows) => rows
    | _ => []
    end.
Proof.
  destruct (main_run w) as (hdr & early & late & tail & _ & _ & E & Hh & He & Hl & Ht).
  unfold appended_rows. rewrite E, added_replay, !rev_app_distr, !flat_map_app.
  rewrite (rows_of_no_append (rev hdr)), (rows_of_no_append (rev early)),
    (rows_of_no_append (rev late)); simpl.
  - destruct (main_rows w).1 as [[rows|]|e].
    + destruct Ht as [-> _]. apply rows_of_flush.
    + by subst tail.
    + by subst tail.
  - rewrite forallb_rev. apply late_class; [done|apply offline_no_append|done].
  - rewrite forallb_rev. apply (forallb_weaken reading); [apply reading_no_append|done].
  - rewrite forallb_rev. apply (forallb_weaken header_event); [apply header_event_no_append|done].
Qed.

Lemma main_rows_inv w rows :
  (main_rows w).1 = Ok (Some rows) ->
  exists bs, loop_inv (clock w (ticks w)) (known_ids w)
               (consider_batches BULLET (clock w (ticks w)) (known_ids w, []) bs)
             /\ rows = (consider_batches BULLET (clock w (ticks w)) (known_ids w, []) bs).2.
Proof.
  intros H. destruct (main_rows_run w) as (_ & _ & _ & _ & _ & Hrows).
  destruct (Hrows rows H) as (bs & ->). exists bs. split; [|done].
  apply loop_inv_batches, loop_inv_start.
Qed.

Lemma header_in_place_after w : header_in_place w -> sheets (after_headers w) = sheets w.
Proof.
  unfold header_in_place, after_headers, ensure_headers. intros H.
  rewrite (bind_ok _ _ _ _ _ (read_sheet_range_run _ _ _)).
  destruct (values RESULTS_TAB "A1:Z1" w) as [|first rest]; [discriminate|].
  simpl in H. injection H as ->. unfold list_eqb. by rewrite bool_decide_eq_true_2.
Qed.

Lemma values_header_row w :
  tab_rows RESULTS_TAB w = [map CStr RESULT_HEADERS] ->
  values RESULTS_TAB "A1:Z1" w = [RESULT_HEADERS].
Proof. intros H. unfold values. rewrite H. reflexivity. Qed.

Lemma header_in_place_dec w : {header_in_place w} + {~ header_in_place w}.
Proof. unfold header_in_place. apply (decide _). Qed.

Lemma ensure_headers_cleared w :
  ~ header_in_place w ->
  after_headers w
  = replay [SheetUpdate RESULTS_TAB "A1" [map CStr RESULT_HEADERS];
            SheetClear RESULTS_TAB "A:Z"; SheetGet RESULTS_TAB "A1:Z1"] w.
Proof.
  unfold header_in_place, after_headers, ensure_headers. intros H.
  rewrite (bind_ok _ _ _ _ _ (read_sheet_range_run _ _ _)).
  destruct (values RESULTS_TAB "A1:Z1" w) as [|first rest]; [reflexivity|].
  unfold list_eqb. rewrite bool_decide_eq_false_2; [reflexivity|].
  intros ->. by apply H.
Qed.

Lemma ensure_headers_kept w :
  header_in_place w -> after_headers w = replay [SheetGet RESULTS_TAB "A1:Z1"] w.
Proof.
  unfold header_in_place, after_headers, ensure_headers. intros H.
  rewrite (bind_ok _ _ _ _ _ (read_sheet_range_run _ _ _)).
  destruct (values RESULTS_TAB "A1:Z1" w) as [|first rest]; [discriminate|].
  simpl in H. injection H as ->. unfold list_eqb. by rewrite bool_decide_eq_true_2.
Qed.

Lemma header_in_place_sheets w w' :
  sheets w' = sheets w -> header_in_place w -> header_in_place w'.
Proof. unfold header_in_place. intros H. by rewrite (values_sheets _ _ _ _ H). Qed.

Lemma cleared_tab w :
  ~ header_in_place w -> tab_rows RESULTS_TAB (after_headers w) = [map CStr RESULT_HEADERS].
Proof.
  intros H. rewrite (ensure_headers_cleared w H).
  unfold tab_rows. simpl. rewrite lookup_insert_eq. simpl.
  unfold tab_rows. simpl. by rewrite lookup_insert_eq.
Qed.

Lemma cleared_ids w : ~ header_in_place w -> known_ids w = ∅.
Proof.
  intros H. unfold known_ids, stored_ids, values. by rewrite (cleared_tab w H).
Qed.

(** C1, the claim as it stands: the Results tab holds the row of
    [sample_item] under another header; the run clears the tab, knows no id
    and appends the row of that id again. *)
Lemma stored_id_appended_again :
  stored_ids sample_world_old_header = {[ "2345678901" ]}
  /\ known_ids sample_world_old_header = ∅
  /\ map row_id (appended_rows sample_world_old_header (main sample_world_old_header).2)
     = ["2345678901"].
Proof. repeat split; vm_compute; reflexivity. Qed.

(** C1, amended: the rows a run appends have pairwise distinct ids, and none
    of them has an id the run knew at its start, the ids [main] reads off the
    Results tab once the header is ensured.  Where the header is in place
    when the run starts, these are the ids the tab holds then, so no row has
    an id the tab held.  Where it is not, the header step clears the tab and
    the run knows no id. *)
Theorem appended_ids_distinct_and_new (w : world) :
  let rows := appended_rows w (main w).2 in
  NoDup (map row_id rows)
  /\ (forall r, r ∈ rows -> row_id r ∉ known_ids w)
  /\ (header_in_place w -> forall r, r ∈ rows -> row_id r ∉ stored_ids w)
  /\ (~ header_in_place w -> known_ids w = ∅).
Proof.
  cbv zeta. rewrite appended_rows_main.
  assert (Hnew : forall r,
            r ∈ match (main_rows w).1 with Ok (Some rows) => rows | _ => [] end ->
            row_id r ∉ known_ids w).
  { intros r. destruct (main_rows w).1 as [[rows|]|e] eqn:E.
    - destruct (main_rows_inv w rows E) as (bs & [_ _ Hfr _] & ->). apply Hfr.
    - intros H. inversion H.
    - intros H. inversion H. }
  split; [|split; [|split]].
  - destruct (main_rows w).1 as [[rows|]|e] eqn:E; try constructor.
    destruct (main_rows_inv w rows E) as (bs & [_ Hnd _ _] & ->). done.
  - exact Hnew.
  - intros H r Hr. rewrite <- (stored_ids_sheets w (after_headers w) (header_in_place_after w H)).
    by apply Hnew.
  - apply cleared_ids.
Qed.

Lemma appended_ids_distinct_and_new_witness :
  header_in_place sample_world_other
  /\ stored_ids sample_world_other = {[ "1111111111" ]}
  /\ appended_rows sample_world_other (main sample_world_other).2 = [sample_row]
  /\ row_id sample_row ∉ stored_ids sample_world_other.
Proof.
  assert (Hh : header_in_place sample_world_other) by (vm_compute; reflexivity).
  assert (Hr : appended_rows sample_world_other (main sample_world_other).2 = [sample_row])
    by (vm_compute; reflexivity).
  split; [exact Hh|]. split; [vm_compute; reflexivity|]. split; [exact Hr|].
  destruct (appended_ids_distinct_and_new sample_world_other) as (_ & _ & H & _).
  apply (H Hh). rewrite Hr. left.
Defined.

Lemma no_write_class (P : event -> bool) evs :
  (forall e, P e = true -> negb (is_write e) = true) ->
  forallb P evs = true -> forallb (fun e => negb (is_write e)) evs = true.
Proof. intros H. by apply forallb_weaken. Qed.

Lemma reading_no_write e : reading e = true -> negb (is_write e) = true.
Proof. by destruct e. Qed.

Lemma offline_no_write e : offline e = true -> negb (is_write e) = true.
Proof. by destruct e. Qed.

Lemma tab_rows_sheets tab w w' : sheets w' = sheets w -> tab_rows tab w' = tab_rows tab w.
Proof. intros H. unfold tab_rows. by rewrite H. Qed.

Lemma tab_rows_flush rows w :
  tab_rows RESULTS_TAB (replay (flush_events rows) w) = (tab_rows RESULTS_TAB w ++ rows)%list.
Proof.
  unfold flush_events. destruct rows as [|r rows]; simpl.
  - by rewrite app_nil_r.
  - unfold tab_rows at 1. simpl. by rewrite lookup_insert_eq.
Qed.

Lemma filter_none {A} (P : A -> bool) l :
  forallb (fun x => negb (P x)) l = true -> List.filter P l = [].
Proof.
  induction l as [|x l IH]; simpl; [done|].
  intros H. apply andb_true_iff in H as [Hx Hl]. destruct (P x); [done|]. by apply IH.
Qed.

Lemma ticks_late late w :
  (late = [] \/ exists loop, late = (loop ++ [Now])%list /\ forallb offline loop = true) ->
  (ticks (replay late w) <= S (ticks w))%nat.
Proof.
  intros [->|(loop & -> & Hl)]; simpl; [lia|].
  rewrite replay_app, ticks_replay; [simpl; lia|].
  apply (forallb_weaken offline); [by intros []|done].
Qed.

(** C9: every row a run appends carries the time of one reading of the
    clock, the first of the run; the run reads the clock at most once, and it
    reads it before its first request: the events of the run split into a
    part without requests and a later part without readings of the clock. *)
Theorem one_timestamp_per_run (w : world) :
  let w' := (main w).2 in
  (forall r, r ∈ appended_rows w w' -> row_fetched_at r = clock w (ticks w))
  /\ (ticks w' <= S (ticks w))%nat
  /\ exists before during,
       rev (added w w') = (before ++ during)%list
       /\ forallb (fun e => negb (is_request e)) before = true
       /\ forallb (fun e => negb (is_now e)) during = true.
Proof.
  cbv zeta. split; [|split].
  - intros r. rewrite appended_rows_main.
    destruct (main_rows w).1 as [[rows|]|e] eqn:E.
    + destruct (main_rows_inv w rows E) as (bs & [_ _ _ Hst] & ->). apply Hst.
    + intros H. inversion H.
    + intros H. inversion H.
  - destruct (main_run w) as (hdr & early & late & tail & _ & _ & E & Hh & He & Hl & Ht).
    rewrite E, !replay_app.
    rewrite ticks_replay.
    2:{ destruct (main_rows w).1 as [[rows|]|e]; [destruct Ht as [-> _]|subst tail..]; try done.
        unfold flush_events. by destruct (is_nil rows). }
    etrans; [by apply ticks_late|].
    rewrite ticks_replay; [|by apply (forallb_weaken reading); [intros []|]].
    rewrite ticks_replay; [done|by apply (forallb_weaken header_event); [intros []|]].
  - destruct (main_run w) as (hdr & early & late & tail & _ & _ & E & Hh & He & Hl & Ht).
    rewrite E, added_replay, !rev_app_distr.
    assert (Htail : forallb (fun e => negb (is_now e)) (rev tail) = true).
    { rewrite forallb_rev.
      destruct (main_rows w).1 as [[rows|]|e]; [destruct Ht as [-> _]|subst tail..]; try done.
      unfold flush_events. by destruct (is_nil rows). }
    assert (Hpre : forallb (fun e => negb (is_request e)) (rev hdr ++ rev early) = true).
    { rewrite forallb_app, !forallb_rev. apply andb_true_iff. split.
      - by apply (forallb_weaken header_event); [intros []|].
      - by apply (forallb_weaken reading); [intros []|]. }
    destruct Hl as [->|(loop & -> & Hl)].
    + exists (rev hdr ++ rev early)%list, (rev tail). simpl. rewrite app_nil_r. done.
    + exists (rev hdr ++ rev early ++ [Now])%list, (rev loop ++ rev tail)%list.
      rewrite rev_app_distr. simpl. split; [by rewrite <- !app_assoc|]. split.
      * rewrite app_assoc, forallb_app, Hpre. done.
      * rewrite forallb_app, Htail, forallb_rev, andb_true_r.
        apply (forallb_weaken offline); [by intros []|done].
Qed.

Lemma same_inputs_refl w : same_inputs w w.
Proof. by repeat split. Qed.

Lemma same_inputs_sym w1 w2 : same_inputs w1 w2 -> same_inputs w2 w1.
Proof. intros (H1 & H2 & H3). repeat split; try done. intros tab Ht. symmetry. by apply H3. Qed.

Lemma same_inputs_trans w1 w2 w3 :
  same_inputs w1 w2 -> same_inputs w2 w3 -> same_inputs w1 w3.
Proof.
  intros (H1 & H2 & H3) (G1 & G2 & G3). repeat split; try congruence.
  intros tab Ht. rewrite H3 by done. by apply G3.
Qed.

Lemma same_inputs_replay evs w :
  forallb (fun e => negb (is_write e) && negb (is_request e)) evs = true ->
  same_inputs w (replay evs w).
Proof.
  intros H. repeat split.
  - by rewrite net_replay.
  - rewrite requests_replay; [done|]. apply (forallb_weaken _ _ _ (fun e He => proj2 (andb_prop _ _ He)) H).
  - intros tab _. rewrite sheets_replay; [done|].
    apply (forallb_weaken _ _ _ (fun e He => proj1 (andb_prop _ _ He)) H).
Qed.

Lemma same_inputs_after_headers w : same_inputs w (after_headers w).
Proof.
  unfold after_headers, ensure_headers.
  rewrite (bind_ok _ _ _ _ _ (read_sheet_range_run _ _ _)).
  assert (Hclear : same_inputs w
    ((sheets_clear RESULTS_TAB;; sheets_update RESULTS_TAB [map CStr RESULT_HEADERS])
       (replay [SheetGet RESULTS_TAB "A1:Z1"] w)).2).
  { repeat split. intros tab Ht. simpl. by rewrite !lookup_insert_ne. }
  destruct (values RESULTS_TAB "A1:Z1" w) as [|first rest]; [done|].
  destruct (list_eqb first RESULT_HEADERS); [|done].
  by apply same_inputs_replay.
Qed.

Lemma values_same_inputs w1 w2 tab rng :
  same_inputs w1 w2 -> tab <> RESULTS_TAB -> values tab rng w1 = values tab rng w2.
Proof.
  intros (_ & _ & H) Ht. unfold values, tab_rows. by rewrite (H tab Ht).
Qed.

Lemma requests_get_inputs url w1 w2 :
  net w1 = net w2 -> requests w1 = requests w2 ->
  (requests_get url w1).1 = (requests_get url w2).1
  /\ net (requests_get url w1).2 = net (requests_get url w2).2
  /\ requests (requests_get url w1).2 = requests (requests_get url w2).2.
Proof.
  intros Hn Hr. unfold requests_get. rewrite Hn, Hr.
  destruct (net w2 (requests w2) url); simpl; by rewrite ?Hn, ?Hr.
Qed.

Lemma online_ret {A} (a : A) : online (ret a).
Proof. by intros w1 w2 Hn Hr. Qed.

Lemma online_lift {A} (o : outcome A) : online (lift o).
Proof. by intros w1 w2 Hn Hr. Qed.

Lemma online_emit e : online (emit e).
Proof. by intros w1 w2 Hn Hr. Qed.

Lemma online_bind {A B} (m : M A) (f : A -> M B) :
  online m -> (forall a, online (f a)) -> online (bind m f).
Proof.
  intros Hm Hf w1 w2 Hn Hr. unfold bind.
  destruct (Hm w1 w2 Hn Hr) as (E & Hn' & Hr').
  destruct (m w1) as [r1 v1], (m w2) as [r2 v2]. simpl in *. subst r2.
  destruct r1 as [a|e]; [by apply Hf|done].
Qed.

Lemma online_try {A} (m : M A) : online m -> online (try m).
Proof.
  intros Hm w1 w2 Hn Hr. unfold try.
  destruct (Hm w1 w2 Hn Hr) as (E & Hn' & Hr').
  destruct (m w1) as [r1 v1], (m w2) as [r2 v2]. simpl in *. by subst.
Qed.

Lemma online_requests_get url : online (requests_get url).
Proof. intros w1 w2. apply requests_get_inputs. Qed.

Lemma online_fetch_row R W idx h city row : online (fetch_row R W idx h city row).
Proof.
  unfold fetch_row. apply online_bind; [apply online_lift|]. intros [sd|]; [|apply online_ret].
  apply online_bind.
  { apply online_try. unfold fetch_listings.
    apply online_bind; [apply online_requests_get|]. intros r.
    apply online_bind; [apply online_lift|]. intros _. apply online_lift. }
  intros [items|e].
  - apply online_bind; [apply online_emit|]. intros _. apply online_ret.
  - apply online_bind; [apply online_emit|]. intros _.
    apply online_bind; [apply online_emit|]. intros _. apply online_ret.
Qed.

Lemma online_fetch_rows R W idx h city rows : online (fetch_rows R W idx h city rows).
Proof.
  induction rows as [|row rows IH]; simpl; [apply online_ret|].
  apply online_bind; [apply online_fetch_row|]. intros b.
  apply online_bind; [apply IH|]. intros bs. apply online_ret.
Qed.

Lemma blind_ret {A} (a : A) : blind (ret a).
Proof. by intros w1 w2 H. Qed.

Lemma blind_lift {A} (o : outcome A) : blind (lift o).
Proof. by intros w1 w2 H. Qed.

Lemma blind_bind {A B} (m : M A) (f : A -> M B) :
  blind m -> (forall a, blind (f a)) -> blind (bind m f).
Proof.
  intros Hm Hf w1 w2 H. unfold bind.
  destruct (Hm w1 w2 H) as (E & H').
  destruct (m w1) as [r1 v1], (m w2) as [r2 v2]. simpl in *. subst r2.
  destruct r1 as [a|e]; [by apply Hf|done].
Qed.

Lemma blind_read tab rng : tab <> RESULTS_TAB -> blind (read_sheet_range tab rng).
Proof.
  intros Ht w1 w2 H. split; simpl.
  - f_equal. by apply values_same_inputs.
  - destruct H as (H1 & H2 & H3). by repeat split.
Qed.

Lemma blind_fetch_rows R W idx h city rows : blind (fetch_rows R W idx h city rows).
Proof.
  intros w1 w2 (Hn & Hr & Hs).
  destruct (online_fetch_rows R W idx h city rows w1 w2 Hn Hr) as (E & Hn' & Hr').
  split; [done|]. repeat split; try done.
  intros tab Ht.
  destruct (effects_fetch_rows R W idx h city rows w1) as (evs1 & -> & H1).
  destruct (effects_fetch_rows R W idx h city rows w2) as (evs2 & -> & H2).
  rewrite !sheets_replay; [by apply Hs| |].
  - apply (forallb_weaken offline); [by intros []|done].
  - apply (forallb_weaken offline); [by intros []|done].
Qed.

Lemma blind_get_config : blind get_config.
Proof.
  unfold get_config. apply blind_bind; [by apply blind_read|]. intros rows.
  apply blind_bind; [apply blind_lift|]. intros r. apply blind_ret.
Qed.

Lemma blind_load_location_ids : blind load_location_ids.
Proof.
  unfold load_location_ids. apply blind_bind; [by apply blind_read|].
  intros [|first rows]; apply blind_ret.
Qed.

Lemma blind_survey : blind survey.
Proof.
  unfold survey.
  apply blind_bind; [apply blind_get_config|]. intros cfg.
  apply blind_bind; [apply blind_load_location_ids|]. intros city.
  apply blind_bind; [by apply blind_read|]. intros [|first [|second rows]]; try apply blind_ret.
  destruct (first_missing _ REQUIRED); [apply blind_lift|].
  apply blind_bind; [apply blind_fetch_rows|]. intros bs. apply blind_ret.
Qed.

(** The rows of a run are the rows the filter loop makes of what the run
    finds, starting from the known ids. *)
Lemma main_rows_survey w :
  (main_rows w).1 =
    match (survey w).1 with
    | Ok (Some bs) =>
        Ok (Some (consider_batches BULLET (clock w (ticks w)) (known_ids w, []) bs).2)
    | Ok None => Ok None
    | Raise e => Raise e
    end.
Proof.
  rewrite (proj1 (blind_survey w (after_headers w) (same_inputs_after_headers w))).
  destruct (after_headers_replay w) as (hdr & Eh & Hh).
  unfold main_rows, survey. rewrite (bind_ok _ _ _ _ _ (ensure_headers_after w)).
  set (w0 := after_headers w) in *.
  destruct (get_config_run w0) as ([cfg|e] & Ec).
  2:{ by rewrite !(bind_raise _ _ _ _ _ Ec). }
  rewrite !(bind_ok _ _ _ _ _ Ec).
  destruct (load_location_ids_run (replay [SheetGet CONFIG_TAB "A:B"] w0)) as (city & El).
  rewrite !(bind_ok _ _ _ _ _ El).
  rewrite !(bind_ok _ _ _ _ _ (read_sheet_range_run _ _ _)).
  rewrite !replay_replay. simpl app.
  set (pre := [SheetGet SEARCHES_TAB "A:Z"; SheetGet LOCATIONS_TAB "A:B"; SheetGet CONFIG_TAB "A:B"]).
  destruct (values SEARCHES_TAB "A:Z" _) as [|first [|second rows]]; [done..|].
  destruct (first_missing _ REQUIRED) as [r|]; [done|].
  rewrite (bind_ok _ _ _ _ _ (load_existing_ad_ids_run _)).
  rewrite (bind_ok _ _ _ _ _ (now_utc_iso_run _)).
  rewrite !replay_replay. simpl app.
  set (pre' := SheetGet RESULTS_TAB "A2:A" :: pre).
  assert (Hnow : clock (replay pre' w0) (ticks (replay pre' w0)) = clock w (ticks w)).
  { rewrite clock_replay, ticks_replay by reflexivity. subst w0. rewrite Eh, clock_replay.
    rewrite ticks_replay; [done|]. eapply forallb_weaken; [|exact Hh]. by intros []. }
  assert (Hknown : stored_ids (replay pre w0) = known_ids w).
  { unfold known_ids. fold w0. by apply stored_ids_sheets, sheets_replay. }
  rewrite Hnow, Hknown, loop_rows.
  match goal with |- context [fetch_rows ?R ?W ?idx ?h ?c ?rs (replay (Now :: pre') w0)] =>
    destruct (online_fetch_rows R W idx h c rs (replay (Now :: pre') w0) (replay pre w0))
      as (E & _ & _) end.
  { by rewrite !net_replay. }
  { rewrite !requests_replay; done. }
  unfold bind, ret.
  destruct (fetch_rows _ _ _ _ _ _ (replay (Now :: pre') w0)) as [r1 v1].
  destruct (fetch_rows _ _ _ _ _ _ (replay pre w0)) as [r2 v2].
  simpl in E. subst r2. by destruct r1.
Qed.

(** *** The buffer *)

Lemma consider_all_accepted bullet now sd items rest st :
  (st.2 ++ accepted_rows bullet now st.1 (map (pair sd) items ++ rest))%list
  = ((consider_all bullet now sd st items).2
     ++ accepted_rows bullet now (consider_all bullet now sd st items).1 rest)%list.
Proof.
  unfold consider_all. revert st. induction items as [|it items IH]; intros st; [done|].
  cbn [map app fold_left accepted_rows]. rewrite <- IH, consider_cases.
  destruct (passes sd it && negb (bool_decide (ad_id it ∈ st.1))); [|done].
  cbn [fst snd]. by rewrite <- app_assoc.
Qed.

Lemma consider_batches_accepted bullet now bs rest st :
  (st.2 ++ accepted_rows bullet now st.1 (found_listings bs ++ rest))%list
  = ((consider_batches bullet now st bs).2
     ++ accepted_rows bullet now (consider_batches bullet now st bs).1 rest)%list.
Proof.
  unfold consider_batches, found_listings. revert st.
  induction bs as [|b bs IH]; intros st; [done|].
  cbn [flat_map fold_left]. rewrite <- IH, <- app_assoc. apply consider_all_accepted.
Qed.

Lemma consider_batches_rows bullet now known bs :
  (consider_batches bullet now (known, []) bs).2
  = accepted_rows bullet now known (found_listings bs).
Proof.
  pose proof (consider_batches_accepted bullet now bs [] (known, [])) as H.
  cbn [fst snd accepted_rows] in H. rewrite !app_nil_r in H. by rewrite <- H.
Qed.

Lemma buffer_accepted w :
  match (main_rows w).1 with Ok (Some rows) => Some rows | _ => None end
  = match (survey w).1 with
    | Ok (Some found) =>
        Some (accepted_rows BULLET (clock w (ticks w)) (known_ids w) (found_listings found))
    | _ => None
    end.
Proof.
  rewrite main_rows_survey. destruct (survey w).1 as [[bs|]|e]; [|done..].
  by rewrite consider_batches_rows.
Qed.

(** C8: the rows a run buffers are the rows of the listings it accepts, of
    all its searches and in their order: [to_append] is [accepted_rows] of
    what the run finds.  While the searches are processed nothing is
    appended and the Results tab stays as the header step left it; once the
    loop has ended, the run ends with the events of [flush]: one append call
    with all those rows and a message, or, when there is no row, the message
    alone, the tab unchanged.  A run that ends before the flush appends
    nothing. *)
Theorem rows_flushed_once_at_end (w : world) :
  let w1 := (main_rows w).2 in
  let w' := (main w).2 in
  let to_append := match (main_rows w).1 with Ok (Some rows) => Some rows | _ => None end in
  forallb (fun e => negb (is_append e)) (added w w1) = true
  /\ tab_rows RESULTS_TAB w1 = tab_rows RESULTS_TAB (after_headers w)
  /\ added w w' = (from_option flush_events [] to_append ++ added w w1)%list
  /\ List.filter is_append (added w w') =
       match to_append with
       | Some (r :: rows) => [SheetAppend RESULTS_TAB "A1" (r :: rows)]
       | _ => []
       end
  /\ tab_rows RESULTS_TAB w' = (tab_rows RESULTS_TAB (after_headers w) ++ default [] to_append)%list
  /\ to_append =
       match (survey w).1 with
       | Ok (Some found) =>
           Some (accepted_rows BULLET (clock w (ticks w)) (known_ids w) (found_listings found))
       | _ => None
       end.
Proof.
  cbv zeta.
  destruct (main_run w) as (hdr & early & late & tail & Eh & E1 & E & Hh & He & Hl & Ht).
  assert (Hquiet : forallb (fun e => negb (is_write e)) (late ++ early) = true).
  { rewrite forallb_app. apply andb_true_iff. split.
    - apply late_class; [done|apply offline_no_write|done].
    - by apply (forallb_weaken reading); [apply reading_no_write|]. }
  assert (Hnoapp : forallb (fun e => negb (is_append e)) (late ++ early ++ hdr) = true).
  { rewrite !forallb_app. repeat (apply andb_true_iff; split).
    - apply late_class; [done|apply offline_no_append|done].
    - by apply (forallb_weaken reading); [apply reading_no_append|].
    - by apply (forallb_weaken header_event); [apply header_event_no_append|]. }
  assert (Htab : tab_rows RESULTS_TAB (main_rows w).2 = tab_rows RESULTS_TAB (after_headers w)).
  { apply tab_rows_sheets. rewrite E1, Eh, app_assoc, replay_app. by apply sheets_replay. }
  assert (Etail : tail = from_option flush_events []
            match (main_rows w).1 with Ok (Some rows) => Some rows | _ => None end).
  { destruct (main_rows w).1 as [[rows|]|e]; simpl; [by destruct Ht|done|done]. }
  assert (E' : (main w).2 = replay tail (main_rows w).2) by (by rewrite E, E1, replay_replay).
  rewrite E1 at 1. rewrite added_replay. split; [done|]. split; [done|].
  rewrite E, !added_replay, E1, added_replay. split; [by rewrite Etail|].
  split.
  - rewrite List.filter_app.
    replace (List.filter is_append (late ++ early ++ hdr)) with (@nil event).
    2:{ symmetry. by apply filter_none. }
    rewrite app_nil_r, Etail.
    destruct (main_rows w).1 as [[[|r rows]|]|e]; reflexivity.
  - split; [|apply buffer_accepted].
    rewrite <- E, E', Etail, <- Htab.
    destruct (main_rows w).1 as [[rows|]|e]; simpl.
    + apply tab_rows_flush.
    + by rewrite app_nil_r.
    + by rewrite app_nil_r.
Qed.

(** C5: two runs that find the same searches and get the same answers from
    the site, the first knowing no id at its start, the second knowing
    exactly the ids of the rows the first has appended: the second run
    appends no row. *)
Theorem second_run_appends_nothing (w1 w2 : world) :
  same_inputs w1 w2 ->
  known_ids w1 = ∅ ->
  known_ids w2 = list_to_set (map row_id (appended_rows w1 (main w1).2)) ->
  appended_rows w2 (main w2).2 = [].
Proof.
  intros Hsame Hk1 Hk2.
  rewrite appended_rows_main, main_rows_survey in Hk2.
  rewrite appended_rows_main, main_rows_survey.
  rewrite <- (proj1 (blind_survey w1 w2 Hsame)).
  destruct (survey w1).1 as [[bs|]|e]; [|done..].
  rewrite Hk1 in Hk2. rewrite Hk2.
  pose proof (second_pass_empty BULLET (clock w1 (ticks w1)) (clock w2 (ticks w2)) bs) as H.
  cbv zeta in H. by rewrite H.
Qed.

Example sample_run :
  items_of sample_page = Ok [sample_item]
  /\ appended_rows sample_world (main sample_world).2 = [sample_row].
Proof. split; vm_compute; reflexivity. Qed.

Lemma second_run_appends_nothing_witness :
  appended_rows sample_world (main sample_world).2 = [sample_row]
  /\ appended_rows sample_world_again (main sample_world_again).2 = [].
Proof.
  split; [vm_compute; reflexivity|].
  apply (second_run_appends_nothing sample_world sample_world_again).
  - split; [reflexivity|]. split; [reflexivity|].
    intros tab Ht. unfold sample_world_again. cbn [sheets].
    symmetry. apply lookup_insert_ne. intros E. apply Ht. by symmetry.
  - vm_compute. reflexivity.
  - vm_compute. reflexivity.
Defined.

(** C6, the claim as it stands: [sample_page] satisfies the consent
    predicate, and the watcher extracts its listing and appends its row. *)
Lemma consent_page_listing_appended :
  Debug.looks_like_consent (Soup.text sample_page) = true
  /\ items_of sample_page = Ok [sample_item]
  /\ appended_rows sample_world (main sample_world).2 = [sample_row].
Proof. repeat split; vm_compute; reflexivity. Qed.

Lemma requests_get_page url w status doc :
  net w (requests w) url = Page status doc ->
  requests_get url w = (Ok (status, doc), replay [HttpGet url] w).
Proof. intros H. unfold requests_get. by rewrite H. Qed.

Lemma debug_fetch_page url v status doc :
  net v (requests v) url = Page status doc -> raise_for_status status = Ok tt ->
  Debug.fetch url v = (Ok doc, replay [HttpGet url] v).
Proof.
  intros Hn Hs. unfold Debug.fetch.
  rewrite (bind_ok _ _ _ _ _ (requests_get_page url v status doc Hn)).
  unfold bind, lift, ret. cbn [fst snd]. by rewrite Hs.
Qed.

(** C6, amended: only the diagnostic run applies the consent predicate.
    Where the first page fetched for a search satisfies it, the run prints
    its warning and goes on to the next search: it parses no card of the page
    and makes no second request.  Where the page of the second request
    satisfies it, the run parses no card of it and prints nothing more.  The
    watcher does not apply the predicate: [fetch_listings] returns the items
    of whatever page the site has answered with. *)
Theorem consent_page_skipped_by_debug_run (max_radius : Z) (city_map : gmap string string)
    (sd : Debug.search) (w : world) (status : Z) (doc : list Soup.node) :
  let loc_id := city_map !! normalize_city (Debug.location sd) in
  let url := Debug.build_url (Debug.query sd) (Debug.location sd) max_radius
               (Debug.price_min sd) (Debug.price_max sd) loc_id false in
  let alt := Debug.build_url (Debug.query sd) (Debug.location sd) max_radius
               (Debug.price_min sd) (Debug.price_max sd) loc_id true in
  raise_for_status status = Ok tt ->
  Debug.looks_like_consent (Soup.text doc) = true ->
  (net w (requests w) url = Page status doc ->
     (exists line,
        Debug.search_step max_radius city_map sd w
        = (Ok tt, replay [Print Debug.CONSENT_WARNING; HttpGet url; Print line] w))
     /\ fetch_listings url w = (items_of doc, replay [HttpGet url] w))
  /\ (net w (requests w) alt = Page status doc ->
      Debug.try_alt max_radius sd loc_id w
      = (Ok tt, replay [HttpGet alt; Print ("Trying ALT URL: " +:+ alt)] w)).
Proof.
  intros loc_id url alt Hstatus Hconsent. split.
  - intros Hnet. split.
    + eexists. unfold Debug.search_step, Debug.print_args. fold loc_id. fold url.
      unfold bind at 1. unfold print at 1, emit at 1.
      unfold bind, try. rewrite (debug_fetch_page url _ status doc) by done.
      rewrite Hconsent. reflexivity.
    + unfold fetch_listings.
      rewrite (bind_ok _ _ _ _ _ (requests_get_page url _ status doc Hnet)).
      unfold bind, lift. cbn [fst snd]. by rewrite Hstatus.
  - intros Hnet. unfold Debug.try_alt, Debug.print_args. fold alt.
    unfold bind at 1. unfold print at 1, emit at 1.
    unfold bind, try. rewrite (debug_fetch_page alt _ status doc) by done.
    rewrite Hconsent. reflexivity.
Qed.

Lemma consent_page_skipped_by_debug_run_witness :
  (exists line,
     Debug.search_step 25 ∅ (Debug.MkSearch "sofa" "Berlin" None None) sample_world
     = (Ok tt, replay [Print Debug.CONSENT_WARNING;
                       HttpGet "https://www.kleinanzeigen.de/s-berlin/sofa/k0r25";
                       Print line] sample_world))
  /\ Debug.try_alt 25 (Debug.MkSearch "sofa" "Berlin" None None) None sample_world
     = (Ok tt, replay [HttpGet "https://www.kleinanzeigen.de/s-berlin/sofa/k0r25";
                       Print "Trying ALT URL: https://www.kleinanzeigen.de/s-berlin/sofa/k0r25"]
                 sample_world).
Proof.
  assert (Hconsent : Debug.looks_like_consent (Soup.text sample_page) = true)
    by (vm_compute; reflexivity).
  destruct (consent_page_skipped_by_debug_run 25 ∅ (Debug.MkSearch "sofa" "Berlin" None None)
              sample_world 200 sample_page eq_refl Hconsent) as [H1 H2].
  split.
  - destruct (H1 eq_refl) as [H _]. exact H.
  - exact (H2 eq_refl).
Defined.

(** ** Further properties *)

(** X1: a listing whose id is known is rejected whatever the search and its
    distance bounds are: the known ids and the rows to append stay as they
    were. *)
Theorem known_id_rejected (bullet now : string) (sd : search) (st : state) (it : Listing) :
  ad_id it ∈ st.1 -> consider bullet now sd st it = st.
Proof.
  intros Hin. rewrite consider_cases.
  rewrite (bool_decide_eq_true_2 _ Hin). simpl. by rewrite andb_false_r.
Qed.

Lemma known_id_rejected_witness :
  consider BULLET sample_time (sample_vehicle None None) ({[ad_id sample_item]}, []) sample_item
  = ({[ad_id sample_item]}, []).
Proof.
  apply (known_id_rejected BULLET sample_time (sample_vehicle None None)
           ({[ad_id sample_item]}, []) sample_item).
  apply elem_of_singleton. reflexivity.
Defined.

(** *** The header step *)

(** X2: once [ensure_headers] has run, the first row of the Results tab is
    the header.  A tab that had it is left as it was, after one read; any
    other tab is cleared and holds the header row alone afterwards, so every
    row it held is gone.  A second call only reads. *)
Theorem ensure_headers_result (w : world) :
  let w' := after_headers w in
  header_in_place w'
  /\ (header_in_place w ->
      sheets w' = sheets w /\ added w w' = [SheetGet RESULTS_TAB "A1:Z1"])
  /\ (~ header_in_place w ->
      tab_rows RESULTS_TAB w' = [map CStr RESULT_HEADERS]
      /\ rev (added w w') = [SheetGet RESULTS_TAB "A1:Z1"; SheetClear RESULTS_TAB "A:Z";
                            SheetUpdate RESULTS_TAB "A1" [map CStr RESULT_HEADERS]])
  /\ after_headers w' = replay [SheetGet RESULTS_TAB "A1:Z1"] w'.
Proof.
  cbv zeta.
  assert (Hkept : header_in_place w ->
            sheets (after_headers w) = sheets w
            /\ added w (after_headers w) = [SheetGet RESULTS_TAB "A1:Z1"]).
  { intros H. rewrite (ensure_headers_kept w H), added_replay. by split. }
  assert (Hcleared : ~ header_in_place w ->
            tab_rows RESULTS_TAB (after_headers w) = [map CStr RESULT_HEADERS]
            /\ rev (added w (after_headers w))
               = [SheetGet RESULTS_TAB "A1:Z1"; SheetClear RESULTS_TAB "A:Z";
                  SheetUpdate RESULTS_TAB "A1" [map CStr RESULT_HEADERS]]).
  { intros H. rewrite (ensure_headers_cleared w H), added_replay. split; [|reflexivity].
    unfold tab_rows. simpl. rewrite lookup_insert_eq. simpl.
    unfold tab_rows. simpl. by rewrite lookup_insert_eq. }
  assert (Hplace : header_in_place (after_headers w)).
  { destruct (header_in_place_dec w) as [H|H].
    - apply (header_in_place_sheets w); [by apply Hkept|done].
    - unfold header_in_place. by rewrite (values_header_row _ (proj1 (Hcleared H))). }
  split; [done|]. split; [done|]. split; [done|]. by apply ensure_headers_kept.
Qed.

(** *** Runs that end with an exception *)

Lemma main_outcome w :
  (main w).1 = match (main_rows w).1 with
               | Ok _ => Ok tt
               | Raise e => Raise e
               end.
Proof.
  unfold main, bind. destruct (main_rows w) as [[[rows|]|e] w1]; cbn [fst]; try reflexivity.
  by rewrite flush_run.
Qed.

Lemma tab_rows_main w :
  tab_rows RESULTS_TAB (main w).2
  = (tab_rows RESULTS_TAB (after_headers w)
     ++ match (main_rows w).1 with Ok (Some rows) => rows | _ => [] end)%list.
Proof.
  destruct (main_run w) as (hdr & early & late & tail & Eh & E1 & E & Hh & He & Hl & Ht).
  assert (Hquiet : forallb (fun e => negb (is_write e)) (late ++ early) = true).
  { rewrite forallb_app. apply andb_true_iff. split.
    - apply late_class; [done|apply offline_no_write|done].
    - by apply (forallb_weaken reading); [apply reading_no_write|]. }
  assert (Htab : tab_rows RESULTS_TAB (replay (late ++ early ++ hdr) w)
                 = tab_rows RESULTS_TAB (after_headers w)).
  { apply tab_rows_sheets. rewrite Eh, app_assoc, replay_app. by apply sheets_replay. }
  rewrite E, replay_app, <- Htab.
  destruct (main_rows w).1 as [[rows|]|e].
  - destruct Ht as [-> _]. apply tab_rows_flush.
  - subst tail. simpl. by rewrite app_nil_r.
  - subst tail. simpl. by rewrite app_nil_r.
Qed.

(** X3: a run that ends with an exception appends nothing, whatever its
    earlier searches had accepted: the Results tab is as the header step left
    it. *)
Theorem failed_run_appends_nothing (w : world) (e : exn) :
  (main w).1 = Raise e ->
  appended_rows w (main w).2 = []
  /\ tab_rows RESULTS_TAB (main w).2 = tab_rows RESULTS_TAB (after_headers w).
Proof.
  intros H. rewrite main_outcome in H.
  rewrite appended_rows_main, tab_rows_main.
  destruct (main_rows w).1 as [r|e']; [discriminate|]. simpl. by rewrite app_nil_r.
Qed.

Lemma failed_run_appends_nothing_witness :
  (exists msg, (main sample_world_bad_row).1 = Raise (ValueError msg))
  /\ List.filter is_request (added sample_world_bad_row (main sample_world_bad_row).2)
     = [HttpGet "https://www.kleinanzeigen.de/s-berlin/sofa/k0r25"]
  /\ appended_rows sample_world_bad_row (main sample_world_bad_row).2 = [].
Proof.
  assert (H : (main sample_world_bad_row).1
              = Raise (ValueError "invalid literal for int() with base 10: abc"))
    by (vm_compute; reflexivity).
  split; [eexists; exact H|]. split; [vm_compute; reflexivity|].
  exact (proj1 (failed_run_appends_nothing sample_world_bad_row _ H)).
Defined.

(** *** One search *)

Lemma fetch_listings_fails w url e :
  fetch_fails w url e -> fetch_listings url w = (Raise e, replay [HttpGet url] w).
Proof.
  unfold fetch_listings, bind, requests_get, lift, raise_for_status.
  intros [e' H|status doc H Hs|status doc e' H Hs He]; rewrite H; cbn [fst snd].
  - reflexivity.
  - destruct (Z.leb_spec 400 status); [|lia]. destruct (Z.ltb_spec status 600); [|lia].
    reflexivity.
  - destruct (Z.leb_spec 400 status), (Z.ltb_spec status 600); try lia; cbn [andb];
      by rewrite He.
Qed.

(** X4: when the fetch of a search fails, by a failed request, an HTTP error
    status or an exception while the page is read, the loop keeps the known
    ids and the rows as they were, prints the failure, pauses two seconds and
    goes on. *)
Theorem failed_fetch_keeps_state (bullet now : string) (max_radius : Z) (width : nat)
    (idx : gmap string nat) (has_loc_id_col : bool) (city_to_id : gmap string string)
    (st : state) (row : list string) (sd : search) (w : world) (e : exn) :
  let url := build_search_url (query sd) (location sd) max_radius
               (price_min sd) (price_max sd) (loc_id sd) in
  read_row idx has_loc_id_col city_to_id (pad width row) = Ok (Some sd) ->
  fetch_fails w url e ->
  search_row bullet now max_radius width idx has_loc_id_col city_to_id st row w
  = (Ok st,
     replay [Sleep 2000;
             Print ("Fetch failed for " +:+ query sd +:+ " @ " +:+ location sd +:+ ": "
                    +:+ exn_text e);
             HttpGet url] w).
Proof.
  intros url Hrow Hfail. unfold search_row, bind, lift, try. rewrite Hrow. fold url.
  by rewrite (fetch_listings_fails w url e Hfail).
Qed.

(** X5: a row whose [active] cell is none of true, 1, yes, y and ja, read
    without regard to case and surrounding white space, is passed over: no
    request, no pause, no change of the known ids and rows, and none of its
    other cells is read. *)
Theorem inactive_row_skipped (bullet now : string) (max_radius : Z) (width : nat)
    (idx : gmap string nat) (has_loc_id_col : bool) (city_to_id : gmap string string)
    (st : state) (row : list string) (w : world) (v : string) :
  field idx (pad width row) "active" = Ok v ->
  Soup.mem (Py.lower (Py.strip v)) ACTIVE_WORDS = false ->
  search_row bullet now max_radius width idx has_loc_id_col city_to_id st row w = (Ok st, w).
Proof.
  intros Hv Hw. unfold search_row, bind, lift, read_row, and_then. by rewrite Hv, Hw.
Qed.

Lemma failed_fetch_keeps_state_witness :
  search_row BULLET sample_time 25 8 (index_of REQUIRED) false ∅ ({["1"]}, [])
    ["true"; "sofa"; "Berlin"] sample_world_offline
  = (Ok ({["1"]}, []),
     replay [Sleep 2000; Print "Fetch failed for sofa @ Berlin: timed out";
             HttpGet "https://www.kleinanzeigen.de/s-berlin/sofa/k0r25"] sample_world_offline).
Proof.
  apply (failed_fetch_keeps_state BULLET sample_time 25 8 (index_of REQUIRED) false ∅
           ({["1"]}, []) ["true"; "sofa"; "Berlin"] sample_search sample_world_offline
           (RequestException "timed out")).
  - vm_compute. reflexivity.
  - apply fails_request. reflexivity.
Defined.

Lemma inactive_row_skipped_witness :
  search_row BULLET sample_time 25 8 (index_of REQUIRED) false ∅ ({["1"]}, [])
    [" Nein "; "sofa"; "Berlin"; "abc"] sample_world
  = (Ok ({["1"]}, []), sample_world).
Proof.
  apply (inactive_row_skipped BULLET sample_time 25 8 (index_of REQUIRED) false ∅
           ({["1"]}, []) [" Nein "; "sofa"; "Berlin"; "abc"] sample_world " Nein ").
  - vm_compute. reflexivity.
  - vm_compute. reflexivity.
Defined.

(** *** The URL of the diagnostic run *)

Lemma str_nonempty n : Py.nonempty (Py.str n) = true.
Proof.
  unfold Py.str. destruct n as [|p|p]; [reflexivity| |reflexivity].
  simpl. pose proof (DecimalPos.Unsigned.to_uint_nonnil p) as H.
  destruct (Pos.to_uint p); [done|reflexivity..].
Qed.

Lemma build_url_same q l r lo hi lid :
  Debug.build_url q l r lo hi lid false = build_search_url q l r lo hi lid.
Proof. reflexivity. Qed.

(** X6: the diagnostic run builds the URL the watcher builds.  Its second
    form, tried when a page shows no card, is that same URL when the search
    has no price bound, so the second request repeats the first; with a price
    bound it ends in the segment [/preis:lo:hi] in place of the price
    token. *)
Theorem debug_url_forms (q l : string) (r : Z) (lo hi : option Z) (lid : option string) :
  Debug.build_url q l r lo hi lid false = build_search_url q l r lo hi lid
  /\ Debug.build_url q l r None None lid true = build_search_url q l r None None lid
  /\ (is_some lo || is_some hi = true ->
      Debug.build_url q l r lo hi lid true
      = url_stem q l lid +:+ radius_token r
        +:+ "/preis:" +:+ str_or_empty lo +:+ ":" +:+ str_or_empty hi).
Proof.
  split; [reflexivity|]. split; [reflexivity|].
  intros Hb. unfold Debug.build_url. rewrite Hb.
  assert (Hne : Py.nonempty (str_or_empty lo) || Py.nonempty (str_or_empty hi) = true).
  { destruct lo as [n|]; simpl; [by rewrite str_nonempty|].
    destruct hi as [n|]; simpl; [by rewrite str_nonempty|done]. }
  rewrite Hne. unfold url_stem, radius_token.
  destruct (truthy lid), (Z.eqb r 0); cbn [negb];
    rewrite ?append_assoc, ?append_nil_l, ?append_empty; reflexivity.
Qed.

Lemma debug_url_forms_witness :
  Debug.build_url "sofa" "Berlin" 25 (Some 10) None None true
  = "https://www.kleinanzeigen.de/s-berlin/sofa/k0r25/preis:10:".
Proof.
  rewrite (proj2 (proj2 (debug_url_forms "sofa" "Berlin" 25 (Some 10) None None)) eq_refl).
  reflexivity.
Defined.

(** *** What the diagnostic run leaves alone *)

Lemma effects_read tab rng P :
  P (SheetGet tab rng) = true -> effects P (read_sheet_range tab rng).
Proof.
  intros H w. exists [SheetGet tab rng]. split; [reflexivity|]. simpl. by rewrite H.
Qed.

Lemma effects_requests_get_any P url :
  P (HttpGet url) = true -> effects P (requests_get url).
Proof.
  intros H w. exists [HttpGet url]. split; [|simpl; by rewrite H].
  unfold requests_get. by destruct (net w (requests w) url).
Qed.

Lemma effects_debug_fetch url : effects harmless (Debug.fetch url).
Proof.
  unfold Debug.fetch. apply effects_bind; [by apply effects_requests_get_any|]. intros r.
  apply effects_bind; [apply effects_lift|]. intros _. apply effects_ret.
Qed.

Lemma effects_print_cards cards : effects harmless (Debug.print_cards cards).
Proof.
  unfold Debug.print_cards. apply effects_for_each. intros _ th.
  by apply effects_print.
Qed.

Lemma effects_debug_search_step R city sd : effects harmless (Debug.search_step R city sd).
Proof.
  unfold Debug.search_step, Debug.try_alt, Debug.print_args.
  apply effects_bind; [by apply effects_print|]. intros _.
  apply effects_bind; [apply effects_try, effects_debug_fetch|]. intros [html|e].
  2:{ by apply effects_print. }
  destruct (Debug.looks_like_consent _); [by apply effects_print|].
  apply effects_bind; [by apply effects_print|]. intros _.
  apply effects_bind; [apply effects_print_cards|]. intros _.
  destruct (is_nil _); [|apply effects_ret].
  apply effects_bind; [by apply effects_print|]. intros _.
  apply effects_bind; [apply effects_try, effects_debug_fetch|]. intros [html2|e].
  2:{ by apply effects_print. }
  destruct (negb _); [|apply effects_ret].
  apply effects_bind; [by apply effects_print|]. intros _. apply effects_print_cards.
Qed.

Lemma effects_debug_main : effects harmless Debug.main.
Proof.
  unfold Debug.main, Debug.load_config, load_location_ids, Debug.print_args.
  apply effects_bind.
  { apply effects_bind; [by apply effects_read|]. intros rows. apply effects_lift. }
  intros R. apply effects_bind.
  { apply effects_bind; [by apply effects_read|]. intros [|first rows]; apply effects_ret. }
  intros city. apply effects_bind; [by apply effects_read|].
  intros [|first [|second rows]]; try (by apply effects_print).
  destruct (first_missing _ _); [by apply effects_print|].
  apply effects_bind; [by apply effects_print|]. intros _.
  apply effects_for_each. intros _ row. unfold Debug.search_row.
  apply effects_bind; [apply effects_lift|]. intros [sd|]; [|apply effects_ret].
  apply effects_debug_search_step.
Qed.

(** X7: the diagnostic run never writes to the spreadsheet and never reads
    the clock: whatever it finds, every tab is afterwards as it was, and its
    events are reads of the sheet, requests and printed lines. *)
Theorem debug_run_writes_nothing (w : world) :
  sheets (Debug.main w).2 = sheets w
  /\ ticks (Debug.main w).2 = ticks w
  /\ forallb harmless (added w (Debug.main w).2) = true.
Proof.
  destruct (effects_debug_main w) as (evs & E & H). rewrite E, added_replay.
  split; [|split; [|done]].
  - apply sheets_replay. apply (forallb_weaken _ _ _ (fun e He => proj1 (andb_prop _ _ He)) H).
  - apply ticks_replay. apply (forallb_weaken _ _ _ (fun e He => proj2 (andb_prop _ _ He)) H).
Qed.

(** *** The matcher finds only texts of the pattern *)

Lemma length_append (a b : string) :
  String.length (a +:+ b) = (String.length a + String.length b)%nat.
Proof. induction a as [|x a IH]; [reflexivity|]. rewrite append_cons. simpl. by rewrite IH. Qed.

Section Sound.
Variable R : Type.

Lemma run_plain a :
  plain a -> classes_pass a ->
  forall s cap (k : option string -> string -> option R) r,
    Re.run R a s cap k = Some r ->
    exists u s', s = u +:+ s' /\ lang a u /\ k cap s' = Some r.
Proof.
  induction a as [f|a1 IH1 a2 IH2|a1 IH1 a2 IH2|a1 IH1 lo hi|a1 IH1]; simpl.
  - intros _ Hf s cap k r H. destruct (f s) as [s'|] eqn:E; [|discriminate].
    destruct (Hf s s' E) as (u & -> & _). exists u, s'. split; [done|]. split; [|done].
    by exists s'.
  - intros [P1 P2] [W1 W2] s cap k r H.
    destruct (IH1 P1 W1 _ _ _ _ H) as (u1 & s1 & -> & L1 & H1).
    destruct (IH2 P2 W2 _ _ _ _ H1) as (u2 & s2 & -> & L2 & H2).
    exists (u1 +:+ u2), s2. split; [by rewrite append_assoc|]. split; [|done].
    by exists u1, u2.
  - intros [P1 P2] [W1 W2] s cap k r H.
    destruct (Re.run R a1 s cap k) as [r1|] eqn:E1.
    + injection H as ->. destruct (IH1 P1 W1 _ _ _ _ E1) as (u & s' & -> & L & Hk).
      exists u, s'. by repeat split; [left|].
    + destruct (IH2 P2 W2 _ _ _ _ H) as (u & s' & -> & L & Hk).
      exists u, s'. by repeat split; [right|].
  - intros P1 W1 s cap k r.
    match goal with |- ?f (String.length s) 0%nat s cap = _ -> _ => set (loop := f) end.
    assert (Hloop : forall fuel cnt s cap, loop fuel cnt s cap = Some r ->
              exists us s', s = fold_right String.append EmptyString us +:+ s'
                /\ Forall (lang a1) us
                /\ (lo <= cnt + length us)%nat
                /\ (forall h, hi = Some h -> (cnt <= h)%nat -> (cnt + length us <= h)%nat)
                /\ k cap s' = Some r).
    { clear s cap. induction fuel as [|fuel IHf]; intros cnt s cap H.
      - simpl in H. destruct (lo <=? cnt)%nat eqn:El; [|discriminate].
        apply Nat.leb_le in El. exists [], s. simpl. repeat split; try done; try lia.
      - simpl in H.
        assert (Hstop : (if (lo <=? cnt)%nat then k cap s else None) = Some r ->
                  exists us s', s = fold_right String.append EmptyString us +:+ s'
                    /\ Forall (lang a1) us
                    /\ (lo <= cnt + length us)%nat
                    /\ (forall h, hi = Some h -> (cnt <= h)%nat -> (cnt + length us <= h)%nat)
                    /\ k cap s' = Some r).
        { intros H'. destruct (lo <=? cnt)%nat eqn:El; [|discriminate].
          apply Nat.leb_le in El. exists [], s. simpl. repeat split; try done; try lia. }
        destruct (Re.may_repeat hi cnt) eqn:Em; [|by apply Hstop].
        match type of H with
        | match ?x with Some _ => _ | None => _ end = _ => destruct x as [r1|] eqn:E1
        end; [|by apply Hstop].
        injection H as ->.
        destruct (IH1 P1 W1 _ _ _ _ E1) as (u & s1 & -> & L & Hk).
        destruct (String.length s1 <? String.length (u +:+ s1))%nat; [|discriminate].
        destruct (IHf _ _ _ Hk) as (us & s' & -> & Hall & Hlo & Hhi & Hk').
        exists (u :: us), s'. simpl. split; [by rewrite append_assoc|].
        split; [by constructor|]. split; [lia|]. split; [|done].
        intros h Hh Hc. unfold Re.may_repeat in Em. rewrite Hh in Em.
        apply Nat.ltb_lt in Em. specialize (Hhi h Hh). lia. }
    intros H. destruct (Hloop _ _ _ _ H) as (us & s' & -> & Hall & Hlo & Hhi & Hk).
    exists (fold_right String.append EmptyString us), s'. split; [done|]. split; [|done].
    exists us. repeat split; try done; try lia. intros h Hh. specialize (Hhi h Hh). lia.
  - intros [].
Qed.

End Sound.

Lemma consumed_append u s' : Re.consumed (u +:+ s') s' = u.
Proof.
  induction u as [|c u IH].
  - simpl. destruct s' as [|x s']; simpl; [done|]. by rewrite Nat.leb_refl.
  - rewrite append_cons. unfold Re.consumed; fold Re.consumed.
    replace (String.length (String c (u +:+ s')) <=? String.length s')%nat with false.
    + by rewrite IH.
    + symmetry. apply Nat.leb_gt. simpl. rewrite length_append. lia.
Qed.

Section Group.
Variable R : Type.

(** A group around a pattern without groups captures a text of the pattern. *)
Lemma run_group g :
  plain g -> classes_pass g ->
  forall s cap (k : option string -> string -> option R) r,
    Re.run R (Re.Grp g) s cap k = Some r ->
    exists u s', s = u +:+ s' /\ lang g u /\ k (Some u) s' = Some r.
Proof.
  intros P W s cap k r H. simpl in H.
  destruct (run_plain R g P W _ _ _ _ H) as (u & s' & -> & L & Hk).
  rewrite consumed_append in Hk. by exists u, s'.
Qed.
End Group.

Lemma run_cat R a b s cap k :
  Re.run R (Re.Cat a b) s cap k = Re.run R a s cap (fun cap' s' => Re.run R b s' cap' k).
Proof. reflexivity. Qed.

Lemma search_suffix a s c :
  Re.search a s = Some c ->
  exists pre s0, s = pre +:+ s0
    /\ Re.run (option string) a s0 None (fun cap _ => Some cap) = Some c.
Proof.
  induction s as [|x s IH]; simpl.
  - destruct (Re.run _ a "" None _) as [c'|] eqn:E; [|discriminate].
    intros [= ->]. by exists "", "".
  - destruct (Re.run _ a (String x s) None _) as [c'|] eqn:E.
    + intros [= ->]. by exists "", (String x s).
    + intros H. destruct (IH H) as (pre & s0 & -> & Hr). by exists (String x pre), s0.
Qed.

(** The text group 1 holds after a search for [before (g) after]. *)
Lemma search_group1_between before g after s u :
  plain before -> classes_pass before -> plain g -> classes_pass g ->
  plain after -> classes_pass after ->
  Re.search_group1 (Re.Cat before (Re.Cat (Re.Grp g) after)) s = Some u ->
  lang g u /\ exists pre b a post,
    s = pre +:+ b +:+ u +:+ a +:+ post /\ lang before b /\ lang after a.
Proof.
  intros Pb Wb Pg Wg Pa Wa. unfold Re.search_group1.
  destruct (Re.search _ s) as [[c|]|] eqn:E; try discriminate. intros [= ->].
  destruct (search_suffix _ _ _ E) as (pre & s0 & -> & Hr). rewrite run_cat in Hr.
  destruct (run_plain _ before Pb Wb _ _ _ _ Hr) as (b & s1 & -> & Lb & H1).
  rewrite run_cat in H1.
  destruct (run_group _ g Pg Wg _ _ _ _ H1) as (u' & s2 & -> & Lg & H2).
  destruct (run_plain _ after Pa Wa _ _ _ _ H2) as (a & post & -> & La & H3).
  injection H3 as ->. split; [done|]. by exists pre, b, a, post.
Qed.

(** The same for a pattern that starts with its group. *)
Lemma search_group1_first g after s u :
  plain g -> classes_pass g -> plain after -> classes_pass after ->
  Re.search_group1 (Re.Cat (Re.Grp g) after) s = Some u -> lang g u.
Proof.
  intros Pg Wg Pa Wa. unfold Re.search_group1.
  destruct (Re.search _ s) as [[c|]|] eqn:E; try discriminate. intros [= ->].
  destruct (search_suffix _ _ _ E) as (pre & s0 & -> & Hr). rewrite run_cat in Hr.
  destruct (run_group _ g Pg Wg _ _ _ _ Hr) as (u' & s2 & -> & Lg & H2).
  destruct (run_plain _ after Pa Wa _ _ _ _ H2) as (a & post & -> & La & H3).
  by injection H3 as ->.
Qed.

(** *** The classes of the scripts' patterns *)

Lemma append_same_length (a b : string) : a +:+ b = b -> a = EmptyString.
Proof.
  intros H. apply (f_equal String.length) in H. rewrite length_append in H.
  destruct a; [done|]. simpl in H. lia.
Qed.

Lemma passes_over_one p : passes_over (Re.one p).
Proof.
  intros s s' H. unfold Re.one in H. destruct s as [|c s]; [discriminate|].
  destruct (p c); [|discriminate]. injection H as ->. by exists (String c "").
Qed.

Lemma passes_over_ws : passes_over Py.ws_prefix.
Proof.
  intros s s' H. unfold Py.ws_prefix in H.
  destruct s as [|a s1]; [discriminate|].
  destruct (Py.ws1 a); [injection H as ->; by exists (String a "")|].
  destruct s1 as [|b s2]; [discriminate|].
  destruct (Py.ws2 a b); [injection H as ->; by exists (String a (String b ""))|].
  destruct s2 as [|c s3]; [discriminate|].
  destruct (Py.ws3 a b c); [|discriminate].
  injection H as ->. by exists (String a (String b (String c ""))).
Qed.

Lemma lang_one p u : lang (Re.Chr (Re.one p)) u -> exists c, u = String c "" /\ p c = true.
Proof.
  intros [rest H]. unfold Re.one in H. destruct u as [|c u].
  - rewrite append_nil_l in H. destruct rest as [|x rest]; [discriminate|].
    destruct (p x); [|discriminate]. injection H as H.
    apply (f_equal String.length) in H. simpl in H. lia.
  - rewrite append_cons in H. destruct (p c) eqn:E; [|discriminate].
    injection H as H. apply append_same_length in H. subst. by exists c.
Qed.

Lemma all_chars_append p a b : all_chars p (a +:+ b) = all_chars p a && all_chars p b.
Proof.
  induction a as [|c a IH]; [reflexivity|]. rewrite append_cons. simpl.
  by rewrite IH, andb_assoc.
Qed.

(** A run of a class: every character is of the class, and the length is
    within the bounds. *)
Lemma lang_rep_one p lo hi u :
  lang (Re.Rep (Re.Chr (Re.one p)) lo hi) u ->
  all_chars p u = true /\ (lo <= String.length u)%nat
  /\ (forall h, hi = Some h -> (String.length u <= h)%nat).
Proof.
  intros (us & -> & Hall & Hlo & Hhi).
  assert (H : all_chars p (fold_right String.append "" us) = true
              /\ String.length (fold_right String.append "" us) = length us).
  { clear Hlo Hhi. induction Hall as [|x us Hx Hus [IH1 IH2]]; [done|].
    destruct (lang_one p x Hx) as (c & -> & Hc). simpl.
    rewrite append_nil_l. by rewrite Hc, IH1, IH2. }
  destruct H as [H1 H2]. rewrite H2. by repeat split.
Qed.

Lemma starts_with_append p a b : starts_with p a = true -> starts_with p (a +:+ b) = true.
Proof. by destruct a. Qed.

Lemma starts_with_rep p lo hi u :
  (1 <= lo)%nat -> lang (Re.Rep (Re.Chr (Re.one p)) lo hi) u -> starts_with p u = true.
Proof.
  intros Hlo H. destruct (lang_rep_one p lo hi u H) as (Hall & Hlen & _).
  destruct u as [|c u]; [simpl in Hlen; lia|]. simpl in *.
  by apply andb_true_iff in Hall as [-> _].
Qed.

Lemma ad_id_group url g :
  Re.search_group1 AD_ID_REGEX url = Some g ->
  all_chars Py.is_digit g = true /\ (6 <= String.length g)%nat
  /\ exists pre post, url = pre +:+ "/" +:+ g +:+ "-" +:+ post.
Proof.
  intros H. unfold AD_ID_REGEX in H.
  apply search_group1_between in H as (Lg & pre & b & a & post & -> & Lb & La);
    try (simpl; auto using passes_over_one).
  destruct (lang_rep_one _ _ _ _ Lg) as (Hall & Hlen & _).
  destruct (lang_one _ _ Lb) as (cb & -> & Hb). destruct (lang_one _ _ La) as (ca & -> & Ha).
  apply Ascii.eqb_eq in Hb, Ha. subst.
  split; [done|]. split; [done|]. by exists pre, post.
Qed.

Lemma all_chars_weaken (p q : ascii -> bool) s :
  (forall c, p c = true -> q c = true) -> all_chars p s = true -> all_chars q s = true.
Proof.
  intros Hpq. induction s as [|c s IH]; [done|]. simpl.
  intros [Hc Hs]%andb_prop. by rewrite (Hpq c Hc), IH.
Qed.

Lemma digits_no_ascii s : all_chars Py.is_digit s = true -> no_ascii_but_digits s = true.
Proof. apply all_chars_weaken. by intros c ->. Qed.


(** *** Numbers read off a text *)

Lemma digit_code c : Py.is_digit c = true -> (48 <= Py.code c <= 57)%N.
Proof.
  unfold Py.is_digit, Py.between. intros H. apply andb_true_iff in H as [H1 H2].
  apply N.leb_le in H1, H2. lia.
Qed.

Lemma digit_not_ws c :
  Py.is_digit c = true ->
  Py.ws1 c = false /\ (forall b, Py.ws2 c b = false) /\ (forall b d, Py.ws3 c b d = false).
Proof.
  intros H. apply digit_code in H.
  assert (Hb : forall n, (57 < n)%N -> Py.byte_is n c = false).
  { intros n Hn. unfold Py.byte_is. apply N.eqb_neq. lia. }
  assert (H1 : Py.ws1 c = false).
  { unfold Py.ws1, Py.between. apply orb_false_iff. split; apply andb_false_iff.
    - right. apply N.leb_gt. lia.
    - right. apply N.leb_gt. lia. }
  split; [exact H1|]. split.
  - intros b. unfold Py.ws2. by rewrite (Hb 194%N).
  - intros b d. unfold Py.ws3. by rewrite (Hb 225%N), (Hb 226%N), (Hb 227%N).
Qed.

Lemma digit_not_ws_last c :
  Py.is_digit c = true ->
  (forall a, Py.ws2 c a = false) /\ (forall a b, Py.ws3 c b a = false).
Proof. intros H. destruct (digit_not_ws c H) as (_ & H2 & H3). by split. Qed.

Lemma lstrip_digit c s :
  Py.is_digit c = true -> Py.lstrip (String c s) = String c s.
Proof.
  intros H. destruct (digit_not_ws c H) as (H1 & H2 & H3).
  unfold Py.lstrip. simpl. rewrite H1. destruct s as [|b s]; [done|]. rewrite H2.
  destruct s as [|d s]; [done|]. by rewrite H3.
Qed.

Lemma rev_onto_app s acc : Py.rev_onto s acc = Py.rev_onto s "" +:+ acc.
Proof.
  revert acc. induction s as [|c s IH]; intros acc; [reflexivity|]. simpl.
  rewrite (IH (String c acc)), (IH (String c "")). by rewrite append_assoc.
Qed.

Lemma rev_cons c s : Py.rev (String c s) = Py.rev s +:+ String c "".
Proof. unfold Py.rev. simpl. apply rev_onto_app. Qed.

Lemma rev_append a b : Py.rev (a +:+ b) = Py.rev b +:+ Py.rev a.
Proof.
  induction a as [|c a IH].
  - rewrite append_nil_l. by rewrite append_empty.
  - rewrite append_cons, !rev_cons, IH. by rewrite append_assoc.
Qed.

Section KeepsLast.
Variable w1 : ascii -> bool.
Variable w2 : ascii -> ascii -> bool.
Variable w3 : ascii -> ascii -> ascii -> bool.
Variable c : ascii.
Hypothesis H1 : w1 c = false.
Hypothesis H2 : forall a, w2 a c = false.
Hypothesis H3 : forall a b, w3 a b c = false.

(** A character that is no part of white space stops [drop_ws]. *)
Lemma drop_ws_keeps_last n :
  forall x, (String.length x <= n)%nat ->
    exists y, Py.drop_ws w1 w2 w3 (x +:+ String c "") = y +:+ String c "".
Proof.
  induction n as [n IH] using lt_wf_ind. intros x Hn.
  destruct x as [|a x].
  { exists "". rewrite append_nil_l. simpl. by rewrite H1. }
  rewrite append_cons. simpl. simpl in Hn.
  destruct (w1 a).
  { apply (IH (String.length x)); lia. }
  destruct x as [|b x].
  { exists (String a ""). rewrite append_nil_l. by rewrite H2. }
  rewrite append_cons. simpl in Hn.
  destruct (w2 a b).
  { apply (IH (String.length x)); lia. }
  destruct x as [|d x].
  { exists (String a (String b "")). rewrite append_nil_l. by rewrite H3. }
  rewrite append_cons. simpl in Hn.
  destruct (w3 a b d).
  { apply (IH (String.length x)); lia. }
  by exists (String a (String b (String d x))).
Qed.
End KeepsLast.

Lemma strip_digit c s :
  Py.is_digit c = true -> starts_with Py.is_digit (Py.strip (String c s)) = true.
Proof.
  intros H. unfold Py.strip. rewrite lstrip_digit by done. unfold Py.rstrip.
  rewrite rev_cons.
  destruct (digit_not_ws c H) as (H1 & _). destruct (digit_not_ws_last c H) as (H2 & H3).
  destruct (drop_ws_keeps_last Py.ws1 (fun a b => Py.ws2 b a) (fun a b d => Py.ws3 d b a)
              c H1 H2 H3 _ (Py.rev s) (le_n _)) as (y & ->).
  rewrite rev_append. change (Py.rev (String c "")) with (String c "").
  rewrite append_cons. simpl. exact H.
Qed.

Lemma int_ws1_digit c : Py.is_digit c = true -> Py.int_ws1 c = false.
Proof.
  intros H. apply digit_code in H. unfold Py.int_ws1, Py.between, Py.byte_is.
  apply orb_false_iff. split.
  - apply andb_false_iff. right. apply N.leb_gt. lia.
  - apply N.eqb_neq. lia.
Qed.

Lemma int_lstrip_digit c s :
  Py.is_digit c = true -> Py.int_lstrip (String c s) = String c s.
Proof.
  intros H. destruct (digit_not_ws c H) as (_ & H2 & H3).
  unfold Py.int_lstrip. simpl. rewrite (int_ws1_digit c H).
  destruct s as [|b s]; [done|]. rewrite H2.
  destruct s as [|d s]; [done|]. by rewrite H3.
Qed.

Lemma int_strip_digit c s :
  Py.is_digit c = true -> starts_with Py.is_digit (Py.int_strip (String c s)) = true.
Proof.
  intros H. unfold Py.int_strip. rewrite int_lstrip_digit by done. unfold Py.int_rstrip.
  rewrite rev_cons.
  destruct (digit_not_ws_last c H) as (H2 & H3).
  destruct (drop_ws_keeps_last Py.int_ws1 (fun a b => Py.ws2 b a) (fun a b d => Py.ws3 d b a)
              c (int_ws1_digit c H) H2 H3 _ (Py.rev s) (le_n _)) as (y & ->).
  rewrite rev_append. change (Py.rev (String c "")) with (String c "").
  rewrite append_cons. simpl. exact H.
Qed.

Lemma int_digits_nonneg s : forall acc b n,
  0 <= acc -> Py.int_digits acc b s = Some n -> 0 <= n.
Proof.
  induction s as [|c s IH]; intros acc b n Hacc; simpl.
  - destruct b; [|discriminate]. intros [= <-]. done.
  - destruct (Py.is_digit c) eqn:Ed.
    + apply IH. apply digit_code in Ed. unfold Py.digit_value. lia.
    + destruct (Py.byte_is 95 c && b); [|discriminate]. by apply IH.
Qed.

(** [int] of a text that starts with a digit is not negative. *)
Lemma int_digit_first s n :
  starts_with Py.is_digit s = true -> Py.int s = Ok n -> 0 <= n.
Proof.
  intros Hs. destruct s as [|c s]; [discriminate|]. simpl in Hs.
  pose proof (int_strip_digit c s Hs) as Hstrip. unfold Py.int.
  destruct (Py.int_strip (String c s)) as [|d t]; [discriminate|]. simpl in Hstrip.
  unfold Py.int_literal.
  assert (Hd := digit_code d Hstrip).
  replace (Py.byte_is 45 d) with false
    by (symmetry; unfold Py.byte_is; apply N.eqb_neq; lia).
  replace (Py.byte_is 43 d) with false
    by (symmetry; unfold Py.byte_is; apply N.eqb_neq; lia).
  destruct (Py.int_digits 0 false (String d t)) as [m|] eqn:E; [|discriminate].
  destruct (_ <? _)%N; [discriminate|].
  intros [= <-]. by apply (int_digits_nonneg _ _ _ _ (Z.le_refl 0) E).
Qed.

Lemma replace_keeps_first o new c s :
  Ascii.eqb o c = false ->
  exists t, Py.replace (String o "") new (String c s) = String c t.
Proof. intros H. unfold Py.replace. simpl. rewrite H. simpl. by eexists. Qed.

Lemma cleaned_starts_with_digit g :
  starts_with Py.is_digit g = true ->
  starts_with Py.is_digit (Py.replace " " "" (Py.replace "." "" g)) = true.
Proof.
  destruct g as [|c g]; [discriminate|]. intros H. simpl in H.
  assert (Hc := digit_code c H).
  assert (E1 : Ascii.eqb "." c = false).
  { apply Ascii.eqb_neq. intros <-. unfold Py.code in Hc. simpl in Hc. lia. }
  assert (E2 : Ascii.eqb " " c = false).
  { apply Ascii.eqb_neq. intros <-. unfold Py.code in Hc. simpl in Hc. lia. }
  destruct (replace_keeps_first "." "" c g E1) as (t & ->).
  destruct (replace_keeps_first " " "" c t E2) as (t' & ->). exact H.
Qed.

Lemma price_group g raw :
  Re.search_group1 PRICE_REGEX raw = Some g -> starts_with Py.is_digit g = true.
Proof.
  intros H. unfold PRICE_REGEX in H.
  apply search_group1_first in H;
    try (simpl; repeat split; auto using passes_over_one, passes_over_ws).
  destruct H as [(u1 & u2 & -> & L1 & _)|L].
  - apply starts_with_append. by apply (starts_with_rep _ 1 (Some 3%nat)).
  - by apply (starts_with_rep _ 1 None).
Qed.

Lemma after_prefix_append p s s' : Re.after_prefix p s = Some s' -> s = p +:+ s'.
Proof.
  revert s. induction p as [|a p IH]; intros s; simpl.
  - intros [= ->]. by rewrite append_nil_l.
  - destruct s as [|b s]; [done|]. destruct (Ascii.eqb_spec a b) as [->|]; [|done].
    intros H. by rewrite append_cons, <- (IH _ H).
Qed.

Lemma passes_over_nocase c : classes_pass (Re.lit_nocase c).
Proof.
  unfold Re.lit_nocase. cbn [classes_pass]. intros s s' H.
  destruct (Re.one _ s) as [s0|] eqn:E.
  - injection H as ->. by apply (passes_over_one _ _ _ E).
  - destruct (Ascii.eqb c "k"); [|done].
    apply after_prefix_append in H. exists Re.KELVIN. by split.
Qed.

Lemma km_group g text :
  Re.search_group1 KM_REGEX text = Some g -> starts_with Py.is_digit g = true.
Proof.
  intros H. unfold KM_REGEX in H.
  apply search_group1_first in H;
    try (cbn [plain classes_pass Re.plus Re.star Re.times Re.digit Re.space Re.lit];
         repeat split; auto using passes_over_one, passes_over_ws, passes_over_nocase).
  destruct H as [(u1 & u2 & -> & L1 & _)|L].
  - apply starts_with_append. by apply (starts_with_rep _ 1 (Some 3%nat)).
  - by apply (starts_with_rep _ 1 (Some 6%nat)).
Qed.

(** X9: a price the parser returns is never negative. *)
Theorem parse_price_eur_nonneg (text : option string) (n : Z) :
  parse_price_eur text = Ok (Some n) -> 0 <= n.
Proof.
  unfold parse_price_eur. destruct text as [text|]; [|discriminate].
  destruct (negb (Py.nonempty text)); [discriminate|].
  destruct (Py.contains "verschenken" (Py.lower text)); [intros [= <-]; done|].
  destruct (Re.search_group1 PRICE_REGEX _) as [g|] eqn:E; [|discriminate].
  unfold int_or_none.
  destruct (Py.int _) as [m|e] eqn:Ei; [|destruct e; discriminate].
  intros [= <-]. apply (int_digit_first _ _ (cleaned_starts_with_digit g (price_group _ _ E)) Ei).
Qed.

Lemma parse_price_eur_nonneg_witness :
  parse_price_eur (Some "1.250 € VB") = Ok (Some 1250) /\ 0 <= 1250.
Proof.
  split; [vm_compute; reflexivity|].
  apply (parse_price_eur_nonneg (Some "1.250 € VB") 1250). vm_compute. reflexivity.
Defined.

(** X10: a distance [extract_km] returns is never negative; where it raises,
    it raises the [ValueError] of [int], which it does not catch, and there
    are texts on which it does: a number grouped by a tab. *)
Theorem extract_km_outcomes :
  (forall text n, extract_km text = Ok (Some n) -> 0 <= n)
  /\ (forall text e, extract_km text = Raise e -> exists msg, e = ValueError msg)
  /\ exists msg, extract_km ("12" +:+ TAB +:+ "345 km") = Raise (ValueError msg).
Proof.
  split; [|split].
  - intros text n. unfold extract_km.
    destruct (negb (Py.nonempty text)); [discriminate|].
    destruct (Re.search_group1 KM_REGEX _) as [g|] eqn:E; [|discriminate].
    destruct (Py.int _) as [m|e] eqn:Ei; [|discriminate].
    intros [= <-]. apply (int_digit_first _ _ (cleaned_starts_with_digit g (km_group _ _ E)) Ei).
  - intros text e. unfold extract_km.
    destruct (negb (Py.nonempty text)); [discriminate|].
    destruct (Re.search_group1 KM_REGEX _) as [g|]; [|discriminate].
    destruct (int_outcome (Py.replace " " "" (Py.replace "." "" g))) as [[n ->]|[msg ->]];
      [discriminate|].
    intros [= <-]. by exists msg.
  - eexists. vm_compute. reflexivity.
Qed.

Lemma extract_km_outcomes_witness :
  extract_km "gefahren 123.456 km" = Ok (Some 123456) /\ 0 <= 123456.
Proof.
  split; [vm_compute; reflexivity|].
  apply (proj1 extract_km_outcomes "gefahren 123.456 km" 123456). vm_compute. reflexivity.
Defined.

(** *** The listings of a page *)

Lemma ad_id_nonempty url : url <> "" -> ad_id_from_url url <> "".
Proof.
  unfold ad_id_from_url. destruct (Re.search_group1 AD_ID_REGEX url) as [g|] eqn:E; [|done].
  destruct (ad_id_group url g E) as (_ & Hlen & _). intros _ ->. simpl in Hlen. lia.
Qed.

Lemma absolute_nonempty href : href <> "" -> absolute href <> "".
Proof.
  intros H. unfold absolute. destruct (Py.startswith "/" href); [|done].
  unfold BASE_HOST. by rewrite append_cons.
Qed.

Lemma card_price text :
  match parse_price_eur (Some text) with
  | Ok (Some p) => 0 <= p
  | Ok None => True
  | Raise _ => False
  end.
Proof.
  unfold parse_price_eur.
  destruct (negb (Py.nonempty text)); [done|].
  destruct (Py.contains "verschenken" (Py.lower text)); [done|].
  destruct (Re.search_group1 PRICE_REGEX _) as [g|] eqn:E; [|done].
  unfold int_or_none.
  destruct (int_outcome (Py.replace " " "" (Py.replace "." "" g))) as [[n Ei]|[msg ->]]; [|done].
  rewrite Ei. apply (int_digit_first _ _ (cleaned_starts_with_digit g (price_group _ _ E)) Ei).
Qed.

Lemma card_km text :
  match extract_km text with
  | Ok (Some d) => 0 <= d
  | Ok None => True
  | Raise e => exists msg, e = ValueError msg
  end.
Proof.
  unfold extract_km.
  destruct (negb (Py.nonempty text)); [done|].
  destruct (Re.search_group1 KM_REGEX _) as [g|] eqn:E; [|done].
  destruct (int_outcome (Py.replace " " "" (Py.replace "." "" g))) as [[n Ei]|[msg ->]].
  - rewrite Ei. apply (int_digit_first _ _ (cleaned_starts_with_digit g (km_group _ _ E)) Ei).
  - by exists msg.
Qed.

Lemma title_link_href sel c a href : title_link sel c = Some (a, href) -> href <> "".
Proof.
  unfold title_link. destruct (Soup.select_one sel c) as [a'|]; [|done].
  destruct (Soup.get "href" _) as [h|]; [|done].
  destruct (Py.nonempty h) eqn:E; [|done]. intros [= _ <-]. by apply nonempty_true.
Qed.

(** One card: the card is skipped exactly when it has no title link with an
    [href]; otherwise its listing has the title and the address of that link. *)
Lemma card_item_cases c :
  match card_item c with
  | Ok (Some it) =>
      exists a href, title_link TITLE_LINK c = Some (a, href)
        /\ card_of it = (Soup.get_text EmptyString a, absolute href) /\ well_formed it
  | Ok None => title_link TITLE_LINK c = None
  | Raise e => exists msg, e = ValueError msg
  end.
Proof.
  unfold card_item. destruct (title_link TITLE_LINK c) as [[a href]|] eqn:E; [|done].
  match goal with |- context [parse_price_eur (Some ?t)] => pose proof (card_price t) as Hp end.
  destruct (parse_price_eur _) as [p|e]; [|done].
  pose proof (card_km (Soup.get_text " " c)) as Hk.
  destruct (extract_km _) as [k|e]; [|done].
  exists a, href. split; [done|]. split; [done|].
  pose proof (absolute_nonempty href (title_link_href _ _ _ _ E)) as Hu.
  unfold well_formed. cbn [url ad_id price_eur km].
  repeat split; try done.
  - by apply ad_id_nonempty.
  - intros p' ->. exact Hp.
  - intros d ->. exact Hk.
Qed.

Lemma items_loop cards (acc : list Listing) (out : list (string * string)) :
  match for_each_pure (fun items c =>
                         match card_item c with
                         | Ok (Some it) => Ok (items ++ [it])%list
                         | Ok None => Ok items
                         | Raise e => Raise e
                         end) acc cards with
  | Ok items =>
      exists new, items = (acc ++ new)%list /\ Forall well_formed new
        /\ (length new <= length cards)%nat
        /\ fold_left (fun out c =>
                        match title_link TITLE_LINK c with
                        | Some (a, href) =>
                            (out ++ [(Soup.get_text EmptyString a, absolute href)])%list
                        | None => out
                        end) cards out = (out ++ map card_of new)%list
  | Raise e => exists msg, e = ValueError msg
  end.
Proof.
  revert acc out. induction cards as [|c cards IH]; intros acc out.
  - simpl. exists []. by rewrite !app_nil_r.
  - cbn [for_each_pure fold_left]. pose proof (card_item_cases c) as Hc.
    destruct (card_item c) as [[it|]|e]; [| |done].
    + destruct Hc as (a & href & -> & Hcard & Hwf).
      specialize (IH (acc ++ [it])%list (out ++ [(Soup.get_text EmptyString a, absolute href)])%list).
      destruct (for_each_pure _ _ cards) as [items|e]; [|done].
      destruct IH as (new & -> & Hall & Hlen & Hfold).
      exists (it :: new). rewrite <- !app_assoc. split; [done|].
      split; [by constructor|]. split; [simpl; lia|].
      rewrite Hfold, <- app_assoc. simpl. by rewrite Hcard.
    + rewrite Hc. specialize (IH acc out).
      destruct (for_each_pure _ _ cards) as [items|e]; [|done].
      destruct IH as (new & -> & Hall & Hlen & Hfold).
      exists new. split; [done|]. split; [done|]. split; [simpl; lia|done].
Qed.

(** X11: the listings read off a page.  The extraction ends with the list
    of the listings or with a [ValueError] (of a distance that is no
    number); every listing has an address and an id that are not empty, the
    id being the one read off the address, and a price and a distance that
    are not negative; there is at most one listing for each card. *)
Theorem items_of_well_formed (doc : list Soup.node) :
  match items_of doc with
  | Ok items =>
      Forall well_formed items /\ (length items <= length (Soup.select CARDS doc))%nat
  | Raise e => exists msg, e = ValueError msg
  end.
Proof.
  unfold items_of. pose proof (items_loop (Soup.select CARDS doc) [] []) as H.
  destruct (for_each_pure _ _ _) as [items|e]; [|done].
  destruct H as (new & -> & Hall & Hlen & _). done.
Qed.

(** X12: on a page the watcher can extract, the diagnostic script parses
    the same cards: its pairs are the titles and addresses of the watcher's
    listings, in the same order. *)
Theorem parse_cards_items (doc : list Soup.node) (items : list Listing) :
  items_of doc = Ok items -> Debug.parse_cards doc = map card_of items.
Proof.
  unfold items_of, Debug.parse_cards.
  pose proof (items_loop (Soup.select CARDS doc) [] []) as H.
  destruct (for_each_pure _ _ _) as [items'|e]; [|done].
  destruct H as (new & -> & _ & _ & Hfold). intros [= <-]. exact Hfold.
Qed.

Lemma parse_cards_items_witness :
  Debug.parse_cards sample_page = map card_of [sample_item].
Proof. apply (parse_cards_items sample_page [sample_item]). vm_compute. reflexivity. Defined.

(** *** The configuration *)

Lemma fold_left_ext {A B} (f g : A -> B -> A) l a :
  (forall a b, f a b = g a b) -> fold_left f l a = fold_left g l a.
Proof. intros H. revert a. induction l as [|b l IH]; intros a; simpl; [done|]. by rewrite H, IH. Qed.

Lemma get_config_config w :
  (get_config w).1 =
    (let cfg := config (values CONFIG_TAB "A:B" w) in
     r <~ Py.int (default "25" (cfg !! "max_radius_km")) ;;
     Ok (r, default "daily" (cfg !! "fetch_frequency"))).
Proof.
  unfold get_config. rewrite (bind_ok _ _ _ _ _ (read_sheet_range_run _ _ _)).
  unfold bind, lift, ret, config. cbv zeta. by destruct (Py.int _).
Qed.

Lemma load_config_config w :
  (Debug.load_config w).1 =
    Py.int (Py.or_else (default "25" (config (values CONFIG_TAB "A:B" w) !! "max_radius_km")) "25").
Proof.
  unfold Debug.load_config. rewrite (bind_ok _ _ _ _ _ (read_sheet_range_run _ _ _)).
  unfold lift, config. cbn [fst]. do 3 f_equal. f_equal.
  apply fold_left_ext. intros cfg r. by destruct (is_nil r), (Py.nonempty _).
Qed.

(** X13: the radius of the two scripts.  Whenever the watcher reads a
    radius off the Config tab, the diagnostic script reads the same one;
    without the key both use 25.  They differ on a key whose value is empty:
    the watcher ends with a [ValueError], the diagnostic script uses 25.
    Where the watcher fails otherwise, the diagnostic script fails alike. *)
Theorem config_radius (w : world) :
  let value := config (values CONFIG_TAB "A:B" w) !! "max_radius_km" in
  match (get_config w).1 with
  | Ok (r, _) => (Debug.load_config w).1 = Ok r /\ (value = None -> r = 25)
  | Raise e =>
      (exists msg, e = ValueError msg) /\ value <> None
      /\ if Py.nonempty (default "25" value) then (Debug.load_config w).1 = Raise e
         else (Debug.load_config w).1 = Ok 25
  end.
Proof.
  cbv zeta. rewrite get_config_config, load_config_config. cbv zeta.
  destruct (config _ !! "max_radius_km") as [v|] eqn:E; cbn [from_option id].
  - unfold Py.or_else. destruct (Py.nonempty v) eqn:Hv.
    + destruct (int_outcome v) as [[n ->]|[msg ->]]; cbn [and_then]; [done|].
      split; [by exists msg|done].
    + destruct v; [|done]. split; [by eexists|]. split; [done|]. vm_compute. reflexivity.
  - split; vm_compute; [reflexivity|]. intros _. reflexivity.
Qed.

(** *** Location ids *)

Lemma digits_only_digits s : all_chars Py.is_digit (Py.digits_only s) = true.
Proof.
  induction s as [|c s IH]; [done|]. simpl.
  destruct (Py.is_digit c) eqn:E; [|done]. simpl. by rewrite E.
Qed.

Lemma digits_only_safe s : no_ascii_but_digits (Py.digits_only s) = true.
Proof. apply digits_no_ascii, digits_only_digits. Qed.

Lemma location_rows rows (m : gmap string string) :
  map_Forall (fun city id => city <> "" /\ location_id id) m ->
  map_Forall (fun city id => city <> "" /\ location_id id)
    (fold_left (fun loc_map r =>
                  if (length r <? 2)%nat then loc_map else
                  let city := normalize_city (item 0 r) in
                  let loc_id := Py.digits_only (item 1 r) in
                  if Py.nonempty city && Py.nonempty loc_id
                  then <[city := loc_id]> loc_map else loc_map) rows m).
Proof.
  revert m. induction rows as [|r rows IH]; intros m Hm; [done|].
  simpl. apply IH. destruct (length r <? 2)%nat; [done|].
  destruct (Py.nonempty (normalize_city _)) eqn:Ec; [|done].
  destruct (Py.nonempty (Py.digits_only _)) eqn:Ed; [|done].
  simpl. apply map_Forall_insert_2; [|done].
  split; [by apply nonempty_true|]. split; [by apply nonempty_true|apply digits_only_safe].
Qed.

(** X14: the table of location ids.  Reading it never fails, and every
    entry has a city name that is not empty and an id of decimal digits, at
    least one, so an id that holds no ASCII character other than a digit:
    rows with fewer than two cells, without a name or without a digit in
    the id are left out. *)
Theorem location_ids_loaded (w : world) :
  exists m, (load_location_ids w).1 = Ok m
    /\ map_Forall (fun city id => city <> "" /\ location_id id) m.
Proof.
  unfold load_location_ids. rewrite (bind_ok _ _ _ _ _ (read_sheet_range_run _ _ _)).
  destruct (values _ _ _) as [|first rows] eqn:E.
  - exists ∅. split; [done|]. apply map_Forall_empty.
  - eexists. split; [reflexivity|]. apply location_rows, map_Forall_empty.
Qed.

Lemma and_then_ok {A B} (o : outcome A) (f : A -> outcome B) b :
  and_then o f = Ok b -> exists a, o = Ok a /\ f a = Ok b.
Proof. destruct o as [a|e]; [|done]. intros H. by exists a. Qed.

(** X15: the location id of a search.  With a table of location ids as
    [load_location_ids] makes it, the id a row's search carries is absent or
    decimal digits, at least one, so a text that is not empty and holds no
    ASCII character other than a digit, whether it comes from the row's own
    [location_id] cell or from the table. *)
Theorem search_location_id (idx : gmap string nat) (has_loc_id_col : bool)
    (city_to_id : gmap string string) (row : list string) (sd : search) :
  map_Forall (fun city id => city <> "" /\ location_id id) city_to_id ->
  read_row idx has_loc_id_col city_to_id row = Ok (Some sd) ->
  match loc_id sd with
  | Some id => location_id id
  | None => True
  end.
Proof.
  intros Hm. unfold read_row. intros H.
  apply and_then_ok in H as (active & _ & H).
  destruct (negb _); [done|].
  apply and_then_ok in H as (qry & _ & H).
  apply and_then_ok in H as (loc & _ & H).
  apply and_then_ok in H as (pmin_text & _ & H).
  apply and_then_ok in H as (pmin & _ & H).
  apply and_then_ok in H as (pmax_text & _ & H).
  apply and_then_ok in H as (pmax & _ & H).
  apply and_then_ok in H as (kind_text & _ & H).
  apply and_then_ok in H as (kms & _ & H).
  apply and_then_ok in H as (given & Hg & H).
  injection H as <-. cbn [loc_id].
  destruct (truthy given) eqn:Et.
  - destruct given as [g|]; [|done]. simpl in Et.
    destruct has_loc_id_col; [|done].
    apply and_then_ok in Hg as (raw & _ & Hg).
    destruct (Py.nonempty (Py.strip raw)); [|done].
    injection Hg as <-. split; [by apply nonempty_true|apply digits_only_safe].
  - destruct (city_to_id !! _) as [id|] eqn:E; [|done].
    exact (proj2 (Hm _ _ E)).
Qed.

Lemma search_location_id_witness :
  match loc_id (MkSearch "sofa" "Berlin" None None "generic" None None (Some "3331")) with
  | Some id => location_id id
  | None => True
  end.
Proof.
  apply (search_location_id (index_of (REQUIRED ++ ["location_id"])) true
           (<["berlin" := "3331"]> ∅)
           ["true"; "sofa"; "Berlin"; ""; ""; ""; ""; ""; ""]).
  - apply map_Forall_insert_2; [|apply map_Forall_empty].
    split; [done|]. split; [done|reflexivity].
  - vm_compute. reflexivity.
Defined.

(** *** The rhythm of the requests *)

Lemma pace_app b l1 l2 :
  pace b (l1 ++ l2) = match pace b l1 with Some b' => pace b' l2 | None => None end.
Proof.
  revert b. induction l1 as [|e l1 IH]; intros b; [done|].
  destruct e; simpl; try apply IH. destruct b; [apply IH|done].
Qed.

Lemma pace_quiet b l : forallb quiet l = true -> pace b l = Some b.
Proof.
  induction l as [|e l IH]; [done|]. simpl. intros [He Hl]%andb_prop.
  destruct e; try done; by apply IH.
Qed.

(** The events of one row of the loop, the latest first. *)
Lemma fetch_row_events R W idx h city row w :
  exists evs, (fetch_row R W idx h city row w).2 = replay evs w
    /\ (evs = []
        \/ (exists url, evs = [Sleep 1200; HttpGet url])
        \/ (exists url line, evs = [Sleep 2000; Print line; HttpGet url])).
Proof.
  unfold fetch_row, bind, lift.
  destruct (read_row _ _ _ _) as [[sd|]|e]; [|by exists []; split; [|left]..].
  unfold try, fetch_listings, bind, requests_get, lift.
  set (url := build_search_url _ _ _ _ _ _).
  destruct (net w (requests w) url) as [status doc|e]; cbn [fst snd].
  - destruct (raise_for_status status) as [[]|e].
    + destruct (items_of doc) as [items|e].
      * exists [Sleep 1200; HttpGet url]. split; [reflexivity|]. right. left. by eexists.
      * exists [Sleep 2000; Print ("Fetch failed for " +:+ query sd +:+ " @ " +:+ location sd
                                    +:+ ": " +:+ exn_text e); HttpGet url].
        split; [reflexivity|]. right. right. by eexists _, _.
    + exists [Sleep 2000; Print ("Fetch failed for " +:+ query sd +:+ " @ " +:+ location sd
                                  +:+ ": " +:+ exn_text e); HttpGet url].
      split; [reflexivity|]. right. right. by eexists _, _.
  - exists [Sleep 2000; Print ("Fetch failed for " +:+ query sd +:+ " @ " +:+ location sd
                                +:+ ": " +:+ exn_text e); HttpGet url].
    split; [reflexivity|]. right. right. by eexists _, _.
Qed.

Lemma fetch_rows_events R W idx h city rows w :
  exists evs, (fetch_rows R W idx h city rows w).2 = replay evs w
    /\ pace true (rev evs) = Some true
    /\ (length (List.filter is_request evs) <= length rows)%nat.
Proof.
  revert w. induction rows as [|row rows IH]; intros w.
  - exists []. done.
  - cbn [fetch_rows]. unfold bind at 1.
    destruct (fetch_row_events R W idx h city row w) as (e1 & E1 & H1).
    destruct (fetch_row R W idx h city row w) as [[b|e] w1]; cbn [snd] in E1; subst w1.
    + unfold bind, ret. destruct (IH (replay e1 w)) as (e2 & E2 & P2 & N2).
      destruct (fetch_rows R W idx h city rows (replay e1 w)) as [[bs|e] w2];
        cbn [snd] in E2 |- *; subst w2.
      all: exists (e2 ++ e1)%list; rewrite replay_app; split; [done|].
      all: rewrite rev_app_distr, pace_app, List.filter_app, length_app.
      all: destruct H1 as [->|[(url & ->)|(url & line & ->)]]; cbn; rewrite ?P2.
      all: split; [done|lia].
    + exists e1. split; [done|].
      destruct H1 as [->|[(url & ->)|(url & line & ->)]]; simpl; split; (done || lia).
Qed.

Lemma main_rows_pace w :
  exists evs, (main_rows w).2 = replay evs (after_headers w)
    /\ pace true (rev evs) = Some true
    /\ (length (List.filter is_request evs) <= length (values SEARCHES_TAB "A:Z" w) - 1)%nat.
Proof.
  assert (Hs : forall evs, forallb (fun e => negb (is_write e) && negb (is_request e)) evs = true ->
            values SEARCHES_TAB "A:Z" (replay evs (after_headers w)) = values SEARCHES_TAB "A:Z" w).
  { intros evs Hevs. symmetry. apply values_same_inputs; [|done].
    eapply same_inputs_trans; [apply same_inputs_after_headers|by apply same_inputs_replay]. }
  unfold main_rows. rewrite (bind_ok _ _ _ _ _ (ensure_headers_after w)).
  set (w0 := after_headers w) in *.
  destruct (get_config_run w0) as ([cfg|e] & Ec).
  2:{ rewrite (bind_raise _ _ _ _ _ Ec). exists [SheetGet CONFIG_TAB "A:B"].
      split; [done|]. split; [done|]. simpl. lia. }
  rewrite (bind_ok _ _ _ _ _ Ec).
  destruct (load_location_ids_run (replay [SheetGet CONFIG_TAB "A:B"] w0)) as (city & El).
  rewrite (bind_ok _ _ _ _ _ El).
  rewrite (bind_ok _ _ _ _ _ (read_sheet_range_run _ _ _)).
  rewrite !replay_replay. simpl app.
  set (pre := [SheetGet SEARCHES_TAB "A:Z"; SheetGet LOCATIONS_TAB "A:B"; SheetGet CONFIG_TAB "A:B"]).
  rewrite (Hs ([SheetGet LOCATIONS_TAB "A:B"] ++ [SheetGet CONFIG_TAB "A:B"])%list eq_refl).
  destruct (values SEARCHES_TAB "A:Z" w) as [|first [|second rows]].
  - exists (Print "No searches found." :: pre). split; [done|]. split; [done|]. simpl. lia.
  - exists (Print "No searches found." :: pre). split; [done|]. split; [done|]. simpl. lia.
  - destruct (first_missing _ REQUIRED) as [r|].
    { exists pre. split; [done|]. split; [done|]. simpl. lia. }
    rewrite (bind_ok _ _ _ _ _ (load_existing_ad_ids_run _)).
    rewrite (bind_ok _ _ _ _ _ (now_utc_iso_run _)).
    rewrite !replay_replay. simpl app. rewrite loop_rows.
    match goal with |- context [fetch_rows ?R ?W ?idx ?h ?c ?rs ?ww] =>
      destruct (fetch_rows_events R W idx h c rs ww) as (loop & Elp & Hp & Hn);
      destruct (fetch_rows R W idx h c rs ww) as [[bs|e] w3] end; cbn [snd] in Elp; subst w3.
    all: cbn [snd]; rewrite replay_replay; eexists; split; [reflexivity|].
    all: rewrite rev_app_distr, pace_app, List.filter_app, length_app.
    all: simpl; rewrite Hp; split; [done|simpl in Hn; lia].
Qed.

(** X16: the requests of a run.  The watcher sends at most one request for
    each row of the Searches tab below the header, and after each request it
    sleeps for at least 1.2 seconds before the next one, whether the fetch
    has failed or not. *)
Theorem requests_paced (w : world) :
  paced (rev (added w (main w).2)) = true
  /\ (length (List.filter is_request (added w (main w).2))
      <= length (values SEARCHES_TAB "A:Z" w) - 1)%nat.
Proof.
  destruct (after_headers_replay w) as (hdr & Eh & Hh).
  destruct (main_rows_pace w) as (evs & E & Hp & Hn).
  assert (Hq : forallb quiet hdr = true).
  { eapply forallb_weaken; [|exact Hh]. by intros []. }
  assert (Hr : List.filter is_request hdr = []).
  { apply filter_none. eapply forallb_weaken; [|exact Hh]. by intros []. }
  assert (exists tail, (main w).2 = replay (tail ++ evs ++ hdr) w
            /\ forallb quiet tail = true /\ List.filter is_request tail = []) as (tail & Et & Hqt & Hrt).
  { unfold main, bind. destruct (main_rows w) as [[[rows|]|e] w1]; cbn [fst snd] in *.
    - exists (flush_events rows). rewrite flush_run. cbn [snd]. rewrite E, Eh, !replay_replay.
      rewrite <- app_assoc. split; [done|]. unfold flush_events. by destruct (is_nil rows).
    - exists []. rewrite E, Eh, replay_replay. done.
    - exists []. rewrite E, Eh, replay_replay. done. }
  rewrite Et, added_replay. split.
  - unfold paced. rewrite !rev_app_distr, !pace_app.
    rewrite (pace_quiet _ (rev hdr)) by (by rewrite forallb_rev).
    rewrite Hp. rewrite (pace_quiet _ (rev tail)) by (by rewrite forallb_rev). done.
  - rewrite !List.filter_app, !length_app, Hr, Hrt. simpl. lia.
Qed.

(** *** What a run leaves for the next one *)

Lemma fetch_listings_well_formed url w items :
  (fetch_listings url w).1 = Ok items -> Forall well_formed items.
Proof.
  unfold fetch_listings, bind, requests_get, lift.
  destruct (net w (requests w) url) as [status doc|e]; [|done]. cbn [fst snd].
  destruct (raise_for_status status) as [[]|e]; [|done]. cbn [fst].
  unfold items_of. pose proof (items_loop (Soup.select CARDS doc) [] []) as H.
  destruct (for_each_pure _ _ _) as [items'|e]; [|done].
  destruct H as (new & -> & Hall & _). by intros [= <-].
Qed.

Lemma fetch_row_well_formed R W idx h city row w sd items :
  (fetch_row R W idx h city row w).1 = Ok (Some (sd, items)) -> Forall well_formed items.
Proof.
  unfold fetch_row, bind, lift.
  destruct (read_row _ _ _ _) as [[sd'|]|e]; [|done..].
  unfold try. set (url := build_search_url _ _ _ _ _ _).
  pose proof (fetch_listings_well_formed url w) as H.
  destruct (fetch_listings url w) as [[items'|e] w1]; cbn [fst] in *; [|done].
  unfold sleep, emit, ret. cbn [fst]. intros [= <- <-]. by apply H.
Qed.

Lemma fetch_rows_well_formed R W idx h city rows w bs :
  (fetch_rows R W idx h city rows w).1 = Ok bs -> Forall (fun b => Forall well_formed b.2) bs.
Proof.
  revert w bs. induction rows as [|row rows IH]; intros w bs.
  - intros [= <-]. constructor.
  - cbn [fetch_rows]. unfold bind at 1.
    pose proof (fetch_row_well_formed R W idx h city row w) as H1.
    destruct (fetch_row R W idx h city row w) as [[b|e] w1]; [|done].
    unfold bind, ret. specialize (IH w1).
    destruct (fetch_rows R W idx h city rows w1) as [[bs'|e] w2]; [|done].
    cbn [fst] in *. intros [= <-]. specialize (IH bs' eq_refl).
    destruct b as [[sd items]|]; [|done]. constructor; [|done]. by apply (H1 sd).
Qed.

Lemma survey_well_formed w bs :
  (survey w).1 = Ok (Some bs) -> Forall (fun b => Forall well_formed b.2) bs.
Proof.
  unfold survey.
  destruct (get_config_run w) as ([cfg|e] & Ec); [|by rewrite (bind_raise _ _ _ _ _ Ec)].
  rewrite (bind_ok _ _ _ _ _ Ec).
  destruct (load_location_ids_run (replay [SheetGet CONFIG_TAB "A:B"] w)) as (city & El).
  rewrite (bind_ok _ _ _ _ _ El).
  rewrite (bind_ok _ _ _ _ _ (read_sheet_range_run _ _ _)).
  destruct (values SEARCHES_TAB "A:Z" _) as [|first [|second rows]]; [done..|].
  destruct (first_missing _ REQUIRED) as [r|]; [done|].
  unfold bind, ret.
  match goal with |- context [fetch_rows ?R ?W ?idx ?h ?c ?rs ?ww] =>
    pose proof (fetch_rows_well_formed R W idx h c rs ww) as H;
    destruct (fetch_rows R W idx h c rs ww) as [[bs'|e] w3] end; [|done].
  cbn [fst] in *. intros [= <-]. by apply H.
Qed.

(** The rows of the filter loop carry ids that are not empty. *)
Lemma consider_all_ids bullet now sd items st :
  Forall well_formed items ->
  Forall (fun r => row_id r <> "") st.2 ->
  Forall (fun r => row_id r <> "") (consider_all bullet now sd st items).2.
Proof.
  unfold consider_all. revert st.
  induction items as [|it items IH]; intros st Hwf Hst; [done|].
  inversion_clear Hwf as [|? ? Hit Hrest]. simpl. apply IH; [done|].
  rewrite consider_cases. destruct (_ && _); [|done]. cbn [snd].
  apply Forall_app. split; [done|]. constructor; [|constructor].
  rewrite row_id_result_row. apply Hit.
Qed.

Lemma consider_batches_ids bullet now bs st :
  Forall (fun b => Forall well_formed b.2) bs ->
  Forall (fun r => row_id r <> "") st.2 ->
  Forall (fun r => row_id r <> "") (consider_batches bullet now st bs).2.
Proof.
  unfold consider_batches. revert st.
  induction bs as [|b bs IH]; intros st Hwf Hst; [done|].
  inversion_clear Hwf as [|? ? Hb Hrest]. simpl. apply IH; [done|].
  by apply consider_all_ids.
Qed.

Lemma filter_drop_end {A} (l : list (list A)) :
  List.filter (fun r => negb (is_nil r)) (drop_end is_nil l)
  = List.filter (fun r => negb (is_nil r)) l.
Proof.
  induction l as [|x l IH]; [done|]. unfold drop_end in *. cbn [fold_right].
  destruct (fold_right _ [] l) as [|y acc] eqn:E.
  - cbn [List.filter] in *. rewrite <- IH. by destruct x.
  - cbn [List.filter] in *. by rewrite <- IH.
Qed.

(** The ids a list of rows of the Results tab stands for. *)
Lemma stored_ids_rows w :
  stored_ids w =
    list_to_set (map (item 0)
      (List.filter (fun r => negb (is_nil r))
         (map (fun r => drop_end (fun s => negb (Py.nonempty s)) (take 1 (map cell_text r)))
            (drop 1 (tab_rows RESULTS_TAB w))))).
Proof.
  unfold stored_ids, values, reported, window. cbn [String.eqb Ascii.eqb Bool.eqb].
  rewrite filter_drop_end. rewrite !List.skipn_map, !map_map. done.
Qed.

Lemma row_id_read r :
  row_id r <> "" ->
  drop_end (fun s => negb (Py.nonempty s)) (take 1 (map cell_text r)) = [row_id r].
Proof.
  destruct r as [|c r]; [done|]. unfold row_id, column. cbn.
  by destruct (cell_text c).
Qed.

Lemma row_ids_read rows :
  Forall (fun r => row_id r <> "") rows ->
  map (item 0)
    (List.filter (fun r => negb (is_nil r))
       (map (fun r => drop_end (fun s => negb (Py.nonempty s)) (take 1 (map cell_text r))) rows))
  = map row_id rows.
Proof.
  induction rows as [|r rows IH]; intros H; [done|].
  inversion_clear H as [|? ? Hr Hrest]. cbn [map].
  rewrite (row_id_read r Hr). cbn [List.filter is_nil negb map]. by rewrite IH.
Qed.

Lemma stored_ids_appended w w' rows :
  tab_rows RESULTS_TAB w <> [] ->
  tab_rows RESULTS_TAB w' = (tab_rows RESULTS_TAB w ++ rows)%list ->
  Forall (fun r => row_id r <> "") rows ->
  stored_ids w' = stored_ids w ∪ list_to_set (map row_id rows).
Proof.
  intros Hne E Hrows. rewrite !stored_ids_rows, E.
  destruct (tab_rows RESULTS_TAB w) as [|first rest]; [done|]. cbn [app drop].
  rewrite !drop_0, map_app, List.filter_app, map_app, list_to_set_app_L.
  by rewrite (row_ids_read rows Hrows).
Qed.

Lemma header_in_place_ensured w : header_in_place (after_headers w).
Proof.
  destruct (header_in_place_dec w) as [H|H].
  - apply (header_in_place_sheets w); [by apply header_in_place_after|done].
  - unfold header_in_place. rewrite (values_header_row (after_headers w)); [done|].
    rewrite (ensure_headers_cleared w H).
    unfold tab_rows. simpl. rewrite lookup_insert_eq. simpl.
    unfold tab_rows. simpl. by rewrite lookup_insert_eq.
Qed.

Lemma header_in_place_rows w : header_in_place w -> tab_rows RESULTS_TAB w <> [].
Proof. unfold header_in_place, values. intros H E. by rewrite E in H. Qed.

Lemma header_in_place_appended w w' rows :
  header_in_place w ->
  tab_rows RESULTS_TAB w' = (tab_rows RESULTS_TAB w ++ rows)%list ->
  header_in_place w'.
Proof.
  intros H E. pose proof (header_in_place_rows w H) as Hne.
  unfold header_in_place, values in *. rewrite E.
  by destruct (tab_rows RESULTS_TAB w) as [|first rest].
Qed.

(** A run changes no tab but Results. *)
Lemma main_other_tabs w tab :
  tab <> RESULTS_TAB -> sheets (main w).2 !! tab = sheets w !! tab.
Proof.
  intros Ht.
  destruct (main_run w) as (hdr & early & late & tail & Eh & E1 & E & Hh & He & Hl & Htail).
  destruct (same_inputs_after_headers w) as (_ & _ & Hsame). rewrite (Hsame tab Ht).
  assert (Hquiet : forallb (fun e => negb (is_write e)) (late ++ early) = true).
  { rewrite forallb_app. apply andb_true_iff. split.
    - apply late_class; [done|apply offline_no_write|done].
    - by apply (forallb_weaken reading); [apply reading_no_write|]. }
  rewrite E, !app_assoc, replay_app, <- Eh, <- app_assoc, replay_app.
  rewrite <- (sheets_replay (late ++ early) (after_headers w) Hquiet).
  set (w0 := replay (late ++ early) (after_headers w)).
  assert (Hflush : forall rows, sheets (replay (flush_events rows) w0) !! tab = sheets w0 !! tab).
  { intros rows. unfold flush_events. destruct (is_nil rows); [done|].
    simpl. apply lookup_insert_ne. intros Heq. by apply Ht. }
  destruct (main_rows w).1 as [[rows|]|e].
  - destruct Htail as [-> _]. apply Hflush.
  - by subst tail.
  - by subst tail.
Qed.

(** X17: a run after a run.  A run that starts from the spreadsheet a first
    run has left, and gets the same answers from the site, knows the ids the
    first run knew and the ids of the rows it appended; it appends no row
    and leaves the spreadsheet as it found it. *)
Theorem rerun_appends_nothing (w1 w2 : world) :
  sheets w2 = sheets (main w1).2 -> net w2 = net w1 -> requests w2 = requests w1 ->
  known_ids w2 = known_ids w1 ∪ list_to_set (map row_id (appended_rows w1 (main w1).2))
  /\ appended_rows w2 (main w2).2 = []
  /\ tab_rows RESULTS_TAB (main w2).2 = tab_rows RESULTS_TAB w2.
Proof.
  intros Hsheets Hnet Hreq.
  assert (Hsame : same_inputs w1 w2).
  { split; [done|]. split; [done|]. intros tab Ht.
    by rewrite Hsheets, main_other_tabs. }
  pose proof (proj1 (blind_survey w1 w2 Hsame)) as Hsurvey.
  pose proof (tab_rows_main w1) as Htab. rewrite <- appended_rows_main in Htab.
  assert (Htab2 : tab_rows RESULTS_TAB w2
                  = (tab_rows RESULTS_TAB (after_headers w1)
                     ++ appended_rows w1 (main w1).2)%list).
  { by rewrite (tab_rows_sheets _ _ _ Hsheets). }
  pose proof (header_in_place_ensured w1) as Hh1.
  assert (Hh2 : header_in_place w2) by exact (header_in_place_appended _ _ _ Hh1 Htab2).
  assert (Hrows : Forall (fun r => row_id r <> "") (appended_rows w1 (main w1).2)).
  { rewrite appended_rows_main, main_rows_survey.
    pose proof (survey_well_formed w1) as Hwf.
    destruct (survey w1).1 as [[bs|]|e]; [|done..].
    apply consider_batches_ids; [by apply Hwf|done]. }
  assert (Hknown : known_ids w2
            = known_ids w1 ∪ list_to_set (map row_id (appended_rows w1 (main w1).2))).
  { unfold known_ids at 1.
    rewrite (stored_ids_sheets w2 (after_headers w2) (header_in_place_after w2 Hh2)).
    apply (stored_ids_appended (after_headers w1)); [|done..].
    by apply header_in_place_rows. }
  assert (Hnone : appended_rows w2 (main w2).2 = []).
  { rewrite appended_rows_main, main_rows_survey, <- Hsurvey.
    rewrite Hknown, appended_rows_main, main_rows_survey.
    destruct (survey w1).1 as [[bs|]|e]; [|done..].
    set (st1 := consider_batches BULLET (clock w1 (ticks w1)) (known_ids w1, []) bs).
    pose proof (loop_inv_batches BULLET (clock w1 (ticks w1)) (known_ids w1) bs
                  (known_ids w1, []) (loop_inv_start _ _)) as [Hids _ _ _].
    fold st1 in Hids. rewrite <- Hids.
    rewrite consider_batches_covered; [done|]. apply consider_batches_covers. }
  split; [done|]. split; [done|].
  rewrite tab_rows_main, <- appended_rows_main, Hnone, app_nil_r.
  apply tab_rows_sheets. by apply header_in_place_after.
Qed.

Lemma rerun_appends_nothing_witness :
  appended_rows sample_world (main sample_world).2 = [sample_row]
  /\ appended_rows sample_world_next (main sample_world_next).2 = [].
Proof.
  split; [vm_compute; reflexivity|].
  destruct (rerun_appends_nothing sample_world sample_world_next) as (_ & H & _);
    [vm_compute; reflexivity..|exact H].
Defined.

(** *** The exceptions of a run *)

Lemma index_of_fold (l : list (nat * string)) (m : gmap string nat) name i :
  fold_left (fun idx hi => <[hi.2 := hi.1]> idx) l m !! name = Some i ->
  m !! name = Some i \/ (i, name) ∈ l.
Proof.
  revert m. induction l as [|[j h] l IH]; intros m H; [by left|].
  simpl in H. destruct (IH _ H) as [Hm|Hin].
  - destruct (decide (h = name)) as [->|Hne].
    + rewrite lookup_insert_eq in Hm. injection Hm as ->. right. left.
    + rewrite lookup_insert_ne in Hm by done. by left.
  - right. by right.
Qed.

Lemma index_of_bound header name i :
  index_of header !! name = Some i -> (i < length header)%nat.
Proof.
  unfold index_of. intros H. apply index_of_fold in H as [H|H]; [done|].
  apply elem_of_lookup_imap in H as (j & h & [= -> ->] & Hj).
  by apply lookup_lt_Some in Hj.
Qed.

Lemma field_padded header row name :
  is_some (index_of header !! name) = true ->
  exists v, field (index_of header) (pad (length header) row) name = Ok v.
Proof.
  unfold field. destruct (index_of header !! name) as [i|] eqn:E; [|done]. intros _.
  apply index_of_bound in E.
  destruct (lookup_lt_is_Some_2 (pad (length header) row) i) as [v ->]; [|by exists v].
  unfold pad. rewrite length_app, length_replicate. lia.
Qed.

Lemma int_or_absent_outcome v :
  (exists o, int_or_absent v = Ok o) \/ (exists msg, int_or_absent v = Raise (ValueError msg)).
Proof.
  unfold int_or_absent. destruct (Py.nonempty _); [|by left; eexists].
  destruct (int_outcome (Py.replace "_" "" v)) as [[n ->]|[msg ->]].
  - left. by eexists.
  - right. by eexists.
Qed.

Lemma required_present idx name :
  first_missing idx REQUIRED = None -> In name REQUIRED -> is_some (idx !! name) = true.
Proof.
  unfold first_missing. intros H Hin.
  apply (List.find_none _ _ H) in Hin. by apply negb_false_iff in Hin.
Qed.

(** A row of the Searches tab, padded to the width of a header that has the
    required columns: reading it fails only on a cell that is no number. *)
Lemma read_row_raises header city row e :
  first_missing (index_of header) REQUIRED = None ->
  read_row (index_of header) (is_some (index_of header !! "location_id")) city
    (pad (length header) row) = Raise e ->
  exists msg, e = ValueError msg.
Proof.
  intros Hreq. unfold read_row.
  assert (Hf : forall name, In name REQUIRED ->
            exists v, field (index_of header) (pad (length header) row) name = Ok v).
  { intros name Hin. apply field_padded. by apply required_present. }
  destruct (Hf "active") as [v1 ->]; [simpl; tauto|]. cbn [and_then].
  destruct (negb _); [done|].
  destruct (Hf "query") as [v2 ->]; [simpl; tauto|]. cbn [and_then].
  destruct (Hf "location") as [v3 ->]; [simpl; tauto|]. cbn [and_then].
  destruct (Hf "price_min") as [v4 ->]; [simpl; tauto|]. cbn [and_then].
  destruct (int_or_absent_outcome v4) as [[o4 ->]|[msg ->]]; [|intros [= <-]; by exists msg].
  cbn [and_then].
  destruct (Hf "price_max") as [v5 ->]; [simpl; tauto|]. cbn [and_then].
  destruct (int_or_absent_outcome v5) as [[o5 ->]|[msg ->]]; [|intros [= <-]; by exists msg].
  cbn [and_then].
  destruct (Hf "type") as [v6 ->]; [simpl; tauto|]. cbn [and_then].
  destruct (String.eqb _ "vehicle").
  - destruct (Hf "km_min") as [v7 ->]; [simpl; tauto|]. cbn [and_then].
    destruct (int_or_absent_outcome v7) as [[o7 ->]|[msg ->]]; [|intros [= <-]; by exists msg].
    cbn [and_then].
    destruct (Hf "km_max") as [v8 ->]; [simpl; tauto|]. cbn [and_then].
    destruct (int_or_absent_outcome v8) as [[o8 ->]|[msg ->]]; [|intros [= <-]; by exists msg].
    cbn [and_then].
    destruct (is_some (index_of header !! "location_id")) eqn:El; [|done].
    destruct (field_padded header row "location_id" El) as [v9 ->]. done.
  - cbn [and_then].
    destruct (is_some (index_of header !! "location_id")) eqn:El; [|done].
    destruct (field_padded header row "location_id" El) as [v9 ->]. done.
Qed.

Lemma fetch_row_raises header R city row w e :
  first_missing (index_of header) REQUIRED = None ->
  (fetch_row R (length header) (index_of header) (is_some (index_of header !! "location_id"))
     city row w).1 = Raise e ->
  exists msg, e = ValueError msg.
Proof.
  intros Hreq. unfold fetch_row, bind, lift.
  pose proof (read_row_raises header city row) as Hr.
  destruct (read_row _ _ _ _) as [[sd|]|e']; [| |intros [= <-]; by apply Hr]; [|done].
  unfold try. destruct (fetch_listings _ w) as [[items|e'] w1]; done.
Qed.

Lemma fetch_rows_raises header R city rows w e :
  first_missing (index_of header) REQUIRED = None ->
  (fetch_rows R (length header) (index_of header) (is_some (index_of header !! "location_id"))
     city rows w).1 = Raise e ->
  exists msg, e = ValueError msg.
Proof.
  intros Hreq. revert w. induction rows as [|row rows IH]; intros w; [done|].
  cbn [fetch_rows]. unfold bind at 1.
  pose proof (fetch_row_raises header R city row w) as H1.
  destruct (fetch_row _ _ _ _ _ row w) as [[b|e'] w1]; [|intros [= <-]; by apply H1].
  unfold bind, ret. specialize (IH w1).
  destruct (fetch_rows _ _ _ _ _ rows w1) as [[bs|e'] w2]; [done|].
  intros [= <-]. by apply IH.
Qed.

Lemma survey_raises w e : (survey w).1 = Raise e -> run_error e.
Proof.
  unfold survey. pose proof (get_config_config w) as Hc.
  destruct (get_config_run w) as ([cfg|e'] & Ec).
  2:{ rewrite (bind_raise _ _ _ _ _ Ec). rewrite Ec in Hc. cbn [fst] in *. cbv zeta in Hc.
      intros [= <-]. left.
      destruct (int_outcome (default "25" (config (values CONFIG_TAB "A:B" w) !! "max_radius_km")))
        as [[n E]|[msg E]]; rewrite E in Hc; [done|]. injection Hc as ->. by exists msg. }
  rewrite (bind_ok _ _ _ _ _ Ec).
  destruct (load_location_ids_run (replay [SheetGet CONFIG_TAB "A:B"] w)) as (city & El).
  rewrite (bind_ok _ _ _ _ _ El).
  rewrite (bind_ok _ _ _ _ _ (read_sheet_range_run _ _ _)).
  destruct (values SEARCHES_TAB "A:Z" _) as [|first [|second rows]]; [done..|].
  destruct (first_missing _ REQUIRED) as [r|] eqn:Em.
  { intros [= <-]. right. by eexists. }
  unfold bind, ret.
  match goal with |- context [fetch_rows ?R _ _ _ ?c ?rs ?ww] =>
    pose proof (fetch_rows_raises (map Py.lower first) R c rs ww) as H;
    destruct (fetch_rows R _ _ _ c rs ww) as [[bs'|e'] w3] end; [done|].
  cbn [fst] in *. intros [= <-]. left. by apply H.
Qed.

(** X18: the exceptions of a run.  A run of the watcher that ends with an
    exception ends with a [ValueError], of a radius or a bound that is no
    number, or with the [RuntimeError] of a missing column: short rows are
    padded and the columns are checked before the loop, so no row is read at
    a column it lacks, and what a fetch raises is caught. *)
Theorem main_exceptions (w : world) (e : exn) :
  (main w).1 = Raise e -> run_error e.
Proof.
  rewrite main_outcome, main_rows_survey.
  pose proof (survey_raises w) as H.
  destruct (survey w).1 as [[bs|]|e']; [done..|]. intros [= <-]. by apply H.
Qed.

Lemma main_exceptions_witness :
  run_error (ValueError "invalid literal for int() with base 10: abc").
Proof.
  apply (main_exceptions sample_world_bad_row). vm_compute. reflexivity.
Defined.

(** *** The rows of a run *)

Lemma result_row_shape bullet now q it : well_formed it -> row_shape (result_row bullet now q it).
Proof.
  intros (Hu & Hid & Hne & Hp & Hk). unfold result_row.
  destruct (split_meta bullet (meta it)) as [posted loc]. simpl.
  repeat split; try done.
  - destruct (price_eur it) as [p|]; simpl; [by apply Hp|done].
  - destruct (km it) as [k|]; simpl; [by apply Hk|done].
Qed.

Lemma consider_all_shape bullet now sd items st :
  Forall well_formed items -> Forall row_shape st.2 ->
  Forall row_shape (consider_all bullet now sd st items).2.
Proof.
  unfold consider_all. revert st.
  induction items as [|it items IH]; intros st Hwf Hst; [done|].
  inversion_clear Hwf as [|? ? Hit Hrest]. simpl. apply IH; [done|].
  rewrite consider_cases. destruct (_ && _); [|done]. cbn [snd].
  apply Forall_app. split; [done|]. constructor; [|constructor].
  by apply result_row_shape.
Qed.

Lemma consider_batches_shape bullet now bs st :
  Forall (fun b => Forall well_formed b.2) bs -> Forall row_shape st.2 ->
  Forall row_shape (consider_batches bullet now st bs).2.
Proof.
  unfold consider_batches. revert st.
  induction bs as [|b bs IH]; intros st Hwf Hst; [done|].
  inversion_clear Hwf as [|? ? Hb Hrest]. simpl. apply IH; [done|].
  by apply consider_all_shape.
Qed.

(** X19: the rows of a run.  Every row a run appends has the nine cells of
    the header, in its order: the id and the address are not empty and the
    id is the one read off the address; the price and the distance are
    numbers that are not negative, or blank; every other cell is text. *)
Theorem appended_rows_shape (w : world) :
  Forall row_shape (appended_rows w (main w).2)
  /\ Forall (fun r => length r = length RESULT_HEADERS) (appended_rows w (main w).2).
Proof.
  assert (H : Forall row_shape (appended_rows w (main w).2)).
  { rewrite appended_rows_main, main_rows_survey.
    pose proof (survey_well_formed w) as Hwf.
    destruct (survey w).1 as [[bs|]|e]; [|done..].
    apply consider_batches_shape; [by apply Hwf|done]. }
  split; [done|]. eapply Forall_impl; [exact H|].
  intros r Hr. unfold row_shape in Hr.
  repeat (destruct r as [|[] r]; try done).
Qed.

(** *** Quoting *)

Lemma quote_plus_cons c s :
  Py.quote_plus (String c s) = Py.quote_plus (String c "") +:+ Py.quote_plus s.
Proof. simpl. destruct (Py.unreserved c); [done|]. by destruct (Py.byte_is 32 c). Qed.

Lemma quote_char_safe c : all_chars url_safe (Py.quote_plus (String c "")) = true.
Proof. destruct c as [[] [] [] [] [] [] [] []]; vm_compute; reflexivity. Qed.

Lemma byte_is_eq n c : Py.byte_is n c = true -> c = ascii_of_N n.
Proof.
  unfold Py.byte_is, Py.code. intros H. apply N.eqb_eq in H. subst n.
  by rewrite ascii_N_embedding.
Qed.

Lemma hex_digit_code n : (n < 16)%N ->
  N_of_ascii (Py.hex_digit n) = if (n <? 10)%N then (48 + n)%N else (55 + n)%N.
Proof.
  intros H. unfold Py.hex_digit. destruct (N.ltb_spec n 10); apply N_ascii_embedding; lia.
Qed.

Lemma hex_digit_inj n m : (n < 16)%N -> (m < 16)%N -> Py.hex_digit n = Py.hex_digit m -> n = m.
Proof.
  intros Hn Hm H. apply (f_equal N_of_ascii) in H. rewrite !hex_digit_code in H by done.
  destruct (N.ltb_spec n 10), (N.ltb_spec m 10); lia.
Qed.

Lemma escape_inj c1 c2 :
  Py.hex_digit (Py.code c1 / 16) = Py.hex_digit (Py.code c2 / 16) ->
  Py.hex_digit (Py.code c1 mod 16) = Py.hex_digit (Py.code c2 mod 16) ->
  c1 = c2.
Proof.
  unfold Py.code. intros Hd Hm.
  pose proof (N_ascii_bounded c1) as B1. pose proof (N_ascii_bounded c2) as B2.
  apply hex_digit_inj in Hd; [|apply N.Div0.div_lt_upper_bound; lia..].
  apply hex_digit_inj in Hm; [|apply N.mod_lt; lia..].
  rewrite <- (ascii_N_embedding c1), <- (ascii_N_embedding c2). f_equal.
  rewrite (N.div_mod (N_of_ascii c1) 16), (N.div_mod (N_of_ascii c2) 16) by lia. lia.
Qed.

Lemma quote_plus_inj s1 s2 : Py.quote_plus s1 = Py.quote_plus s2 -> s1 = s2.
Proof.
  revert s2. induction s1 as [|c1 s1 IH]; intros [|c2 s2]; simpl.
  - done.
  - destruct (Py.unreserved c2); [done|]. by destruct (Py.byte_is 32 c2).
  - destruct (Py.unreserved c1); [done|]. by destruct (Py.byte_is 32 c1).
  - destruct (Py.unreserved c1) eqn:U1, (Py.unreserved c2) eqn:U2.
    + intros [= -> H]. by rewrite (IH _ H).
    + destruct (Py.byte_is 32 c2); intros [= -> H]; by vm_compute in U1.
    + destruct (Py.byte_is 32 c1); intros [= <- H]; by vm_compute in U2.
    + destruct (Py.byte_is 32 c1) eqn:B1, (Py.byte_is 32 c2) eqn:B2; try done.
      * intros [= H]. apply byte_is_eq in B1, B2. subst. by rewrite (IH _ H).
      * intros [= Hd Hm H]. rewrite (escape_inj c1 c2 Hd Hm). by rewrite (IH _ H).
Qed.

(** X20: quoting a query.  The quoted text has only letters, digits and the
    characters [_.-~+%], so a query brings no slash, space or question mark
    into the address; and two queries that differ are quoted to texts that
    differ. *)
Theorem quote_plus_safe :
  (forall s, all_chars url_safe (Py.quote_plus s) = true)
  /\ (forall s1 s2, Py.quote_plus s1 = Py.quote_plus s2 -> s1 = s2).
Proof.
  split; [|exact quote_plus_inj].
  induction s as [|c s IH]; [done|].
  by rewrite quote_plus_cons, all_chars_append, quote_char_safe, IH.
Qed.

(** *** A price without separators *)

Lemma digit_no_byte c n : Py.is_digit c = true -> (57 < n)%N -> Py.byte_is n c = false.
Proof.
  intros H Hn. apply digit_code in H. unfold Py.byte_is. apply N.eqb_neq. lia.
Qed.

Lemma digit_neq c x : Py.is_digit c = true -> Py.is_digit x = false -> Ascii.eqb x c = false.
Proof. intros H Hx. apply Ascii.eqb_neq. intros ->. by rewrite H in Hx. Qed.

(** A digit is no byte of a white-space character. *)
Lemma digit_in_ws c :
  Py.is_digit c = true ->
  (forall a, Py.ws2 a c = false) /\ (forall a b, Py.ws3 a c b = false)
  /\ (forall a b, Py.ws3 a b c = false).
Proof.
  intros H. assert (Hb' : forall n, (57 < n)%N -> Py.byte_is n c = false)
    by (intros n; by apply digit_no_byte).
  assert (Hr : forall lo hi, (57 < lo)%N -> Py.between lo hi c = false).
  { intros lo hi Hlo. apply digit_code in H. unfold Py.between.
    apply andb_false_iff. left. apply N.leb_gt. lia. }
  split; [|split].
  - intros a. unfold Py.ws2. rewrite (Hb' 133%N), (Hb' 160%N) by lia. apply andb_false_r.
  - intros a b. unfold Py.ws3. rewrite (Hb' 154%N), (Hb' 128%N), (Hb' 129%N) by lia.
    by rewrite !andb_false_r.
  - intros a b. unfold Py.ws3.
    rewrite (Hb' 128%N), (Hb' 168%N), (Hb' 169%N), (Hb' 175%N), (Hb' 159%N), (Hr 128%N 138%N) by lia.
    by rewrite !andb_false_r.
Qed.

Section KeepsDigit.
Variable w1 : ascii -> bool.
Variable w2 : ascii -> ascii -> bool.
Variable w3 : ascii -> ascii -> ascii -> bool.
Variable c : ascii.
Hypothesis H1 : w1 c = false.
Hypothesis H2 : forall a, w2 a c = false.
Hypothesis H3 : forall a b, w3 a b c = false.

(** A last character that is no part of white space stays, and what is
    dropped before it does not depend on it. *)
Lemma drop_ws_last n :
  forall x, (String.length x <= n)%nat ->
    Py.drop_ws w1 w2 w3 (x +:+ String c "") = Py.drop_ws w1 w2 w3 x +:+ String c "".
Proof.
  induction n as [n IH] using lt_wf_ind. intros x Hn.
  destruct x as [|a x].
  { rewrite append_nil_l. simpl. by rewrite H1. }
  rewrite append_cons. simpl. simpl in Hn.
  destruct (w1 a).
  { apply (IH (String.length x)); lia. }
  destruct x as [|b x].
  { rewrite append_nil_l. by rewrite H2. }
  rewrite append_cons. simpl in Hn.
  destruct (w2 a b).
  { apply (IH (String.length x)); lia. }
  destruct x as [|d x].
  { rewrite append_nil_l. by rewrite H3. }
  rewrite append_cons. simpl in Hn.
  destruct (w3 a b d).
  { apply (IH (String.length x)); lia. }
  by rewrite !append_cons.
Qed.
End KeepsDigit.

Lemma rstrip_digit c s :
  Py.is_digit c = true -> Py.rstrip (String c s) = String c (Py.rstrip s).
Proof.
  intros H. unfold Py.rstrip. rewrite rev_cons.
  destruct (digit_not_ws c H) as (H1 & H2 & H3).
  rewrite (drop_ws_last Py.ws1 (fun a b => Py.ws2 b a) (fun a b d => Py.ws3 d b a) c H1
             (fun a => H2 a) (fun a b => H3 b a) _ _ (le_n _)).
  rewrite rev_append. change (Py.rev (String c "")) with (String c "").
  by rewrite append_cons, append_nil_l.
Qed.

Lemma replace_nbsp_digit c s :
  Py.is_digit c = true ->
  Py.replace NBSP " " (String c s) = String c (Py.replace NBSP " " s).
Proof.
  intros H. unfold Py.replace, NBSP. cbn [Py.replace_from Py.startswith].
  match goal with |- context [Ascii.eqb ?x c] => rewrite (digit_neq c x H eq_refl) end.
  reflexivity.
Qed.

Lemma ws_prefix_digit c s : Py.is_digit c = true -> Py.ws_prefix (String c s) = None.
Proof.
  intros H. destruct (digit_not_ws c H) as (H1 & H2 & H3).
  unfold Py.ws_prefix. rewrite H1. destruct s as [|b s]; [done|]. rewrite H2.
  destruct s as [|d s]; [done|]. by rewrite H3.
Qed.

(** A repetition whose pattern does not match stops at once. *)
Lemma rep_stops R a hi s cap (k : option string -> string -> option R) :
  (forall k', Re.run R a s cap k' = None) ->
  Re.run R (Re.Rep a 0 hi) s cap k = k cap s.
Proof.
  intros Ha. cbn [Re.run]. destruct (String.length s); cbn [Nat.leb]; [done|].
  destruct (Re.may_repeat hi 0); [|done]. by rewrite Ha.
Qed.

Lemma rep3_greedy R d1 d2 d3 d4 r cap (k : option string -> string -> option R) x :
  Py.is_digit d1 = true -> Py.is_digit d2 = true -> Py.is_digit d3 = true ->
  k cap (String d4 r) = Some x ->
  Re.run R (Re.Rep Re.digit 1 (Some 3%nat)) (String d1 (String d2 (String d3 (String d4 r)))) cap k
  = Some x.
Proof.
  intros H1 H2 H3 Hk.
  cbn [Re.run String.length Re.digit Re.one Re.may_repeat Nat.ltb Nat.leb]. rewrite H1.
  rewrite Nat.leb_refl.
  cbn [Re.run String.length Re.digit Re.one Re.may_repeat Nat.ltb Nat.leb]. rewrite H2.
  rewrite Nat.leb_refl.
  cbn [Re.run String.length Re.digit Re.one Re.may_repeat Nat.ltb Nat.leb]. rewrite H3.
  rewrite Nat.leb_refl. by rewrite Hk.
Qed.

Lemma run_grp R a s cap k :
  Re.run R (Re.Grp a) s cap k = Re.run R a s cap (fun _ s' => k (Some (Re.consumed s s')) s').
Proof. reflexivity. Qed.

Lemma run_alt R a b s cap k :
  Re.run R (Re.Alt a b) s cap k
  = match Re.run R a s cap k with Some r => Some r | None => Re.run R b s cap k end.
Proof. reflexivity. Qed.

(** Four digits in a row: the group of the price pattern is the first three. *)
Lemma price_group_long d1 d2 d3 d4 r :
  Py.is_digit d1 = true -> Py.is_digit d2 = true -> Py.is_digit d3 = true ->
  Py.is_digit d4 = true ->
  Re.search_group1 PRICE_REGEX (String d1 (String d2 (String d3 (String d4 r))))
  = Some (String d1 (String d2 (String d3 ""))).
Proof.
  intros H1 H2 H3 H4.
  assert (Hsep : forall x y cap k',
            Py.is_digit x = false -> Py.is_digit y = false ->
            Re.run (option string)
              (Re.Cat (Re.Alt (Re.lit x) (Re.lit y)) (Re.Rep Re.digit 1 (Some 2%nat)))
              (String d4 r) cap k' = None).
  { intros x y cap k' Hx Hy. cbn [Re.run Re.lit Re.one].
    by rewrite (digit_neq d4 x H4 Hx), (digit_neq d4 y H4 Hy). }
  assert (Hgrp : forall cap k',
            Re.run (option string)
              (Re.Cat (Re.Alt (Re.lit ".") Re.space) (Re.times Re.digit 3))
              (String d4 r) cap k' = None).
  { intros cap k'. cbn [Re.run Re.lit Re.one Re.space].
    by rewrite (digit_neq d4 "." H4 eq_refl), (ws_prefix_digit d4 r H4). }
  set (g := String d1 (String d2 (String d3 ""))).
  set (s := String d1 (String d2 (String d3 (String d4 r)))).
  assert (Hrun : Re.run (option string) PRICE_REGEX s None (fun cap _ => Some cap) = Some (Some g)).
  { unfold PRICE_REGEX. rewrite run_cat, run_grp, run_alt, run_cat.
    subst s. erewrite rep3_greedy; [reflexivity|done..|]. cbv beta.
    unfold Re.star. rewrite rep_stops by exact (Hgrp _).
    unfold Re.opt. rewrite rep_stops by (intros k'; by apply Hsep).
    change (String d1 (String d2 (String d3 (String d4 r)))) with (g +:+ String d4 r).
    by rewrite consumed_append. }
  unfold Re.search_group1. subst s. cbn [Re.search]. by rewrite Hrun.
Qed.

Lemma replace_digit o new c s :
  Py.is_digit c = true -> Py.is_digit o = false ->
  Py.replace (String o "") new (String c s) = String c (Py.replace (String o "") new s).
Proof.
  intros H Ho. unfold Py.replace. cbn [Py.replace_from Py.startswith].
  by rewrite (digit_neq c o H Ho).
Qed.

Lemma digit_no_sign c n : Py.is_digit c = true -> (n < 48)%N -> Py.byte_is n c = false.
Proof.
  intros H Hn. apply digit_code in H. unfold Py.byte_is. apply N.eqb_neq. lia.
Qed.

Lemma int_rstrip_digit c s :
  Py.is_digit c = true -> Py.int_rstrip (String c s) = String c (Py.int_rstrip s).
Proof.
  intros H. unfold Py.int_rstrip. rewrite rev_cons.
  destruct (digit_not_ws c H) as (_ & H2 & H3).
  rewrite (drop_ws_last Py.int_ws1 (fun a b => Py.ws2 b a) (fun a b d => Py.ws3 d b a) c
             (int_ws1_digit c H) (fun a => H2 a) (fun a b => H3 b a) _ _ (le_n _)).
  rewrite rev_append. change (Py.rev (String c "")) with (String c "").
  by rewrite append_cons, append_nil_l.
Qed.

Lemma int_three_digits d1 d2 d3 :
  Py.is_digit d1 = true -> Py.is_digit d2 = true -> Py.is_digit d3 = true ->
  Py.int (String d1 (String d2 (String d3 "")))
  = Ok (100 * Py.digit_value d1 + 10 * Py.digit_value d2 + Py.digit_value d3).
Proof.
  intros H1 H2 H3. unfold Py.int, Py.int_strip.
  rewrite int_lstrip_digit, !int_rstrip_digit by done.
  change (Py.int_rstrip "") with "". unfold Py.int_literal.
  rewrite (digit_no_sign d1 45%N), (digit_no_sign d1 43%N) by (done || lia).
  cbn [Py.int_digits Py.count_digits]. rewrite H1, H2, H3. cbn. f_equal. lia.
Qed.

(** X21: a price of four or more digits without a separator.  A text that
    begins with four digits and does not hold "verschenken" is read as the
    number of its first three digits, whatever follows: the pattern takes at
    most three digits before a separator, and nothing asks it to go on. *)
Theorem long_price_cut (d1 d2 d3 d4 : ascii) (rest : string) :
  Py.is_digit d1 = true -> Py.is_digit d2 = true -> Py.is_digit d3 = true ->
  Py.is_digit d4 = true ->
  Py.contains "verschenken"
    (Py.lower (String d1 (String d2 (String d3 (String d4 rest))))) = false ->
  parse_price_eur (Some (String d1 (String d2 (String d3 (String d4 rest)))))
  = Ok (Some (100 * Py.digit_value d1 + 10 * Py.digit_value d2 + Py.digit_value d3)).
Proof.
  intros H1 H2 H3 H4 Hv. unfold parse_price_eur. cbn [Py.nonempty negb]. rewrite Hv.
  cbv zeta. rewrite !replace_nbsp_digit by done. unfold Py.strip.
  rewrite lstrip_digit, !rstrip_digit by done.
  rewrite price_group_long by done.
  rewrite !(replace_digit "." "") by done.
  change (Py.replace "." "" "") with "".
  rewrite !(replace_digit " " "") by done.
  change (Py.replace " " "" "") with "".
  unfold int_or_none. by rewrite int_three_digits.
Qed.

Lemma long_price_cut_witness : parse_price_eur (Some "12345 €") = Ok (Some 123).
Proof.
  apply (long_price_cut "1" "2" "3" "4" "5 €"); reflexivity.
Defined.

(** *** Listings and rows *)

Lemma consider_all_from bullet now all b items st :
  b ∈ all -> (forall it, it ∈ items -> it ∈ b.2) ->
  Forall (row_from bullet now all) st.2 ->
  Forall (row_from bullet now all) (consider_all bullet now b.1 st items).2.
Proof.
  intros Hb. unfold consider_all. revert st.
  induction items as [|it items IH]; intros st Hin Hst; [done|].
  simpl. apply IH; [intros it' H'; apply Hin; by right|].
  rewrite consider_cases. destruct (passes b.1 it) eqn:Hp; [|done].
  destruct (negb _); [|done]. cbn [snd andb].
  apply Forall_app. split; [done|]. constructor; [|constructor].
  exists b, it. split; [done|]. split; [apply Hin; left|]. done.
Qed.

Lemma consider_batches_from bullet now all bs st :
  (forall b, b ∈ bs -> b ∈ all) ->
  Forall (row_from bullet now all) st.2 ->
  Forall (row_from bullet now all) (consider_batches bullet now st bs).2.
Proof.
  unfold consider_batches. revert st.
  induction bs as [|b bs IH]; intros st Hin Hst; [done|].
  simpl. apply IH; [intros b' H'; apply Hin; by right|].
  apply consider_all_from; [apply Hin; left|done|done].
Qed.

(** X22: listings and rows.  Of what a run finds, no listing is lost: a
    listing that passes the filter of its search has an id the run knew at
    its start or an id among the rows the run appends.  And no row is made
    up: every row appended is the row of a listing found that passes the
    filter of its search, under the query of that search. *)
Theorem listings_and_rows (w : world) (bs : list (search * list Listing)) :
  (survey w).1 = Ok (Some bs) ->
  let rows := appended_rows w (main w).2 in
  (forall b it, b ∈ bs -> it ∈ b.2 -> passes b.1 it = true ->
     ad_id it ∈ known_ids w \/ ad_id it ∈ map row_id rows)
  /\ Forall (row_from BULLET (clock w (ticks w)) bs) rows.
Proof.
  intros Hs. cbv zeta. rewrite appended_rows_main, main_rows_survey, Hs.
  set (now := clock w (ticks w)).
  set (st := consider_batches BULLET now (known_ids w, []) bs).
  split.
  - intros b it Hb Hit Hp.
    pose proof (loop_inv_batches BULLET now (known_ids w) bs (known_ids w, [])
                  (loop_inv_start _ _)) as [Hids _ _ _].
    pose proof (consider_batches_covers BULLET now bs (known_ids w, []) b it Hb Hit Hp) as Hc.
    fold st in Hids, Hc. rewrite Hids in Hc.
    apply elem_of_union in Hc as [Hc|Hc]; [by left|right].
    by apply elem_of_list_to_set in Hc.
  - by apply consider_batches_from.
Qed.

Lemma listings_and_rows_witness :
  ad_id sample_item ∈ known_ids sample_world
  \/ ad_id sample_item ∈ map row_id (appended_rows sample_world (main sample_world).2).
Proof.
  destruct (listings_and_rows sample_world [(sample_search, [sample_item])]) as [H _].
  - vm_compute. reflexivity.
  - apply (H (sample_search, [sample_item]) sample_item).
    + left.
    + left.
    + reflexivity.
Defined.
